(** * Folder: a path-confined directory helper

    Shallow embedding of [aida/common/classes/folder.py] (class [Folder])
    together with the parts of the Python 2 runtime it calls:
    [os.path] (POSIX flavour), [os], [shutil] and [fnmatch].

    Python strings are [string]; a method that touches the disk is a
    computation in the monad [M], which threads the filesystem state and
    carries the raised exception, if any. *)

From Stdlib Require Import String Ascii List Bool Arith Lia Permutation.
Import ListNotations.
Open Scope list_scope.
Open Scope string_scope.

(* ------------------------------------------------------------------ *)
(** ** Strings: the [str] methods used by [posixpath] *)

Module str.

Definition sep : ascii := "/"%char.

Definition is_sep (c : ascii) : bool := Ascii.eqb c sep.

(** ['/' in s] *)
Fixpoint has_sep (s : string) : bool :=
  match s with
  | EmptyString => false
  | String c r => is_sep c || has_sep r
  end.

(** [s == '/' * len(s)] *)
Fixpoint all_sep (s : string) : bool :=
  match s with
  | EmptyString => true
  | String c r => is_sep c && all_sep r
  end.

(** [s.startswith('/')] *)
Definition startswith_sep (s : string) : bool :=
  match s with
  | EmptyString => false
  | String c _ => is_sep c
  end.

(** [s.endswith('/')] *)
Fixpoint endswith_sep (s : string) : bool :=
  match s with
  | EmptyString => false
  | String c EmptyString => is_sep c
  | String _ r => endswith_sep r
  end.

(** [s.rstrip('/')] *)
Fixpoint rstrip_sep (s : string) : string :=
  match s with
  | EmptyString => EmptyString
  | String c r => if all_sep (String c r) then EmptyString else String c (rstrip_sep r)
  end.

(** [s[:s.rfind('/') + 1]] *)
Fixpoint upto_last_sep (s : string) : string :=
  match s with
  | EmptyString => EmptyString
  | String c r =>
      if has_sep r then String c (upto_last_sep r)
      else if is_sep c then String c EmptyString
      else EmptyString
  end.

(** [s[s.rfind('/') + 1:]] *)
Fixpoint after_last_sep (s : string) : string :=
  match s with
  | EmptyString => EmptyString
  | String c r =>
      if has_sep r then after_last_sep r
      else if is_sep c then r
      else String c r
  end.

(** [s.split('/')] *)
Fixpoint split_sep (s : string) : list string :=
  match s with
  | EmptyString => [EmptyString]
  | String c r =>
      match split_sep r with
      | [] => [EmptyString]
      | w :: ws => if is_sep c then EmptyString :: w :: ws else String c w :: ws
      end
  end.

(** ['/'.join(l)] *)
Fixpoint join_sep (l : list string) : string :=
  match l with
  | [] => EmptyString
  | [w] => w
  | w :: ws => w ++ String sep (join_sep ws)
  end.

(** The longest common prefix of two strings, character by character. *)
Fixpoint lcp (s1 s2 : string) : string :=
  match s1, s2 with
  | String c1 r1, String c2 r2 =>
      if Ascii.eqb c1 c2 then String c1 (lcp r1 r2) else EmptyString
  | _, _ => EmptyString
  end.

(** [min] and [max] of two strings in Python's (code point) order. *)
Definition min (a b : string) : string := if String.leb a b then a else b.
Definition max (a b : string) : string := if String.leb a b then b else a.

End str.

(* ------------------------------------------------------------------ *)
(** ** [os.path] on POSIX ([posixpath] and [genericpath]) *)

Module posixpath.

Definition isabs (s : string) : bool := str.startswith_sep s.

(** [join(a, b)]: [b] replaces [a] when it is absolute, otherwise it is
    appended, with a separator unless [a] is empty or ends with one. *)
Definition join (a b : string) : string :=
  if str.startswith_sep b then b
  else if String.eqb a "" || str.endswith_sep a then a ++ b
  else a ++ "/" ++ b.

(** [split(p)]: head and tail around the last separator; trailing
    separators are stripped from the head unless it consists of
    separators only. *)
Definition split (p : string) : string * string :=
  let head := str.upto_last_sep p in
  let tail := str.after_last_sep p in
  (if negb (String.eqb head "") && negb (str.all_sep head)
   then str.rstrip_sep head else head, tail).

Definition basename (p : string) : string := str.after_last_sep p.

Definition dirname (p : string) : string := fst (split p).

(** [commonprefix(m)]: the longest common leading string of the
    smallest and the largest element -- characters, not components. *)
Definition commonprefix (m : list string) : string :=
  match m with
  | [] => ""
  | x :: xs => str.lcp (fold_left str.min xs x) (fold_left str.max xs x)
  end.

(** The loop of [normpath] over the components, [new_comps] kept in
    reverse. *)
Fixpoint normpath_comps (initial_slashes : nat) (comps new_comps : list string)
  : list string :=
  match comps with
  | [] => rev new_comps
  | comp :: rest =>
      if String.eqb comp "" || String.eqb comp "." then
        normpath_comps initial_slashes rest new_comps
      else if negb (String.eqb comp "..")
              || (Nat.eqb initial_slashes 0 && match new_comps with [] => true | _ => false end)
              || match new_comps with last_comp :: _ => String.eqb last_comp ".." | [] => false end
      then normpath_comps initial_slashes rest (comp :: new_comps)
      else normpath_comps initial_slashes rest (tl new_comps)
  end.

Definition initial_slashes_of (path : string) : nat :=
  match path with
  | String a (String b (String c _)) =>
      if str.is_sep a then
        if str.is_sep b then if str.is_sep c then 1 else 2 else 1
      else 0
  | String a (String b EmptyString) =>
      if str.is_sep a then if str.is_sep b then 2 else 1 else 0
  | String a EmptyString => if str.is_sep a then 1 else 0
  | EmptyString => 0
  end.

Fixpoint slashes (n : nat) : string :=
  match n with
  | 0 => ""
  | S k => String str.sep (slashes k)
  end.

Definition normpath (path : string) : string :=
  if String.eqb path "" then "."
  else
    let initial_slashes := initial_slashes_of path in
    let comps := normpath_comps initial_slashes (str.split_sep path) [] in
    let path' := slashes initial_slashes ++ str.join_sep comps in
    if String.eqb path' "" then "." else path'.

(** [abspath(path)], with the working directory [cwd] of the process. *)
Definition abspath (cwd path : string) : string :=
  normpath (if isabs path then path else join cwd path).

End posixpath.


(* ------------------------------------------------------------------ *)
(** ** The filesystem

    A tree of directories, regular files and symbolic links.  A
    directory keeps its entries in listing order.  Positions in the
    tree are physical paths: the names from the root down, no link
    among them. *)

Module fs.

#[warnings="-register-all"]
Inductive node : Type :=
| File (content : string)
| Symlink (target : string)
| Dir (entries : list (string * node)).

Definition entries : Type := list (string * node).

(** The root directory and the working directory of the process, as
    [os.getcwd()] gives it. *)
Record state : Type := { root : entries; cwd : string }.

Definition with_root (s : state) (r : entries) : state :=
  {| root := r; cwd := cwd s |}.

Inductive kind : Type := KFile | KLink (target : string) | KDir.

Definition kind_of (n : node) : kind :=
  match n with
  | File _ => KFile
  | Symlink t => KLink t
  | Dir _ => KDir
  end.

Fixpoint assoc (k : string) (es : entries) : option node :=
  match es with
  | [] => None
  | (k', n) :: r => if String.eqb k k' then Some n else assoc k r
  end.

Definition remove_key (k : string) (es : entries) : entries :=
  filter (fun e => negb (String.eqb k (fst e))) es.

(** Bind [k] to [n]: in place when [k] is there, at the end otherwise. *)
Definition put (k : string) (n : node) (es : entries) : entries :=
  match assoc k es with
  | Some _ => map (fun e => if String.eqb k (fst e) then (k, n) else e) es
  | None => (es ++ [(k, n)])%list
  end.

(** The node at a physical path below [n]. *)
Fixpoint find (q : list string) (n : node) : option node :=
  match q with
  | [] => Some n
  | k :: q' =>
      match n with
      | Dir es =>
          match assoc k es with
          | Some c => find q' c
          | None => None
          end
      | _ => None
      end
  end.

(** Apply [f] to the entries of the directory at physical path [q]. *)
Fixpoint alter_at (q : list string) (f : entries -> entries) (n : node) : node :=
  match n with
  | Dir es =>
      match q with
      | [] => Dir (f es)
      | k :: q' =>
          match assoc k es with
          | Some c => Dir (put k (alter_at q' f c) es)
          | None => n
          end
      end
  | _ => n
  end.

Definition alter_root (q : list string) (f : entries -> entries) (s : state) : state :=
  match alter_at q f (Dir (root s)) with
  | Dir es => with_root s es
  | _ => s
  end.

Definition look (r : entries) (q : list string) : option kind :=
  option_map kind_of (find q (Dir r)).

Inductive errno : Type := ENOENT | EEXIST | ENOTDIR | EISDIR | ELOOP | EBUSY.

(** The outcome of resolving a path: the physical path of the node it
    names; or the directory in which its last component is missing; or
    the error of the lookup. *)
Inductive resolved : Type :=
| Found (phys : list string) (k : kind)
| Absent (parent : list string) (name : string)
| Failed (e : errno).

(** Path resolution, component by component from the position [cur].
    [budget] bounds the symbolic links followed in one resolution;
    [follow] tells whether a link in the last component is followed. *)
Fixpoint walk (budget : nat) (lk : list string -> option kind) (follow : bool)
  : list string -> list string -> resolved :=
  fix go (cur segs : list string) {struct segs} : resolved :=
    match segs with
    | [] =>
        match lk cur with
        | Some k => Found cur k
        | None => Failed ENOENT
        end
    | seg :: rest =>
        match lk cur with
        | Some KDir =>
            if String.eqb seg "" || String.eqb seg "." then go cur rest
            else if String.eqb seg ".." then go (removelast cur) rest
            else
              match lk (cur ++ [seg])%list with
              | None =>
                  match rest with
                  | [] => Absent cur seg
                  | _ => Failed ENOENT
                  end
              | Some (KLink target) =>
                  if follow || negb (match rest with [] => true | _ => false end) then
                    match budget with
                    | 0 => Failed ELOOP
                    | S budget' =>
                        if String.eqb target "" then Failed ENOENT
                        else
                          walk budget' lk follow
                            (if posixpath.isabs target then [] else cur)
                            (str.split_sep target ++ rest)%list
                    end
                  else Found (cur ++ [seg])%list (KLink target)
              | Some _ => go (cur ++ [seg])%list rest
              end
        | Some _ => Failed ENOTDIR
        | None => Failed ENOENT
        end
    end.

(** The number of links one resolution may follow (Linux: 40). *)
Definition MAXSYMLINKS : nat := 40.

Definition resolve (s : state) (follow : bool) (path : string) : resolved :=
  if String.eqb path "" then Failed ENOENT
  else
    walk MAXSYMLINKS (look (root s)) follow []
      ((if posixpath.isabs path then [] else str.split_sep (cwd s))
         ++ str.split_sep path)%list.

End fs.

(* ------------------------------------------------------------------ *)
(** ** Exceptions and the monad of disk operations *)

Inductive exn : Type :=
| ValueError (msg : string)
| IOError (e : option fs.errno) (text : string)
| OSError (e : option fs.errno) (text : string)
| ShutilError (msg : string)
| RuntimeError (msg : string).

Definition M (A : Type) : Type := fs.state -> (exn + A) * fs.state.

Definition ret {A : Type} (a : A) : M A := fun s => (inr a, s).

Definition raise {A : Type} (e : exn) : M A := fun s => (inl e, s).

Definition bind {A B : Type} (m : M A) (k : A -> M B) : M B :=
  fun s =>
    match m s with
    | (inr a, s') => k a s'
    | (inl e, s') => (inl e, s')
    end.

(** Read the state without changing it. *)
Definition gets {A : Type} (f : fs.state -> A) : M A := fun s => (inr (f s), s).

(** Lift a result that does not touch the disk. *)
Definition lift {A : Type} (r : exn + A) : M A := fun s => (r, s).

Notation "x <- m ;; k" := (bind m (fun x => k))
  (at level 61, m at next level, right associativity).
Notation "m ;;; k" := (bind m (fun _ => k))
  (at level 61, right associativity).

(* ------------------------------------------------------------------ *)
(** ** [os] *)

Module os.

Import fs.

(** [os.path.exists], [os.path.isdir]: through [stat], links followed. *)
Definition path_exists (path : string) (s : state) : bool :=
  match resolve s true path with
  | Found _ _ => true
  | _ => false
  end.

Definition path_isdir (path : string) (s : state) : bool :=
  match resolve s true path with
  | Found _ KDir => true
  | _ => false
  end.

(** [os.path.islink]: through [lstat]. *)
Definition path_islink (path : string) (s : state) : bool :=
  match resolve s false path with
  | Found _ (KLink _) => true
  | _ => false
  end.

Definition listdir (path : string) : M (list string) :=
  fun s =>
    match resolve s true path with
    | Found q KDir =>
        match find q (Dir (root s)) with
        | Some (Dir es) => (inr (map fst es), s)
        | _ => (inl (OSError (Some ENOTDIR) path), s)
        end
    | Found _ _ => (inl (OSError (Some ENOTDIR) path), s)
    | Absent _ _ => (inl (OSError (Some ENOENT) path), s)
    | Failed e => (inl (OSError (Some e) path), s)
    end.

(** Create the entry [name] of the directory at [parent].  Where the
    file system puts a new entry in the listing of the directory is not
    specified; here it is the end, and the properties below state
    listings after a creation up to order only. *)
Definition create_entry (parent : list string) (name : string) (n : node)
  (s : state) : state :=
  alter_root parent (fun es => es ++ [(name, n)])%list s.

Definition mkdir (path : string) : M unit :=
  fun s =>
    match resolve s false path with
    | Absent parent name => (inr tt, create_entry parent name (Dir []) s)
    | Found _ _ => (inl (OSError (Some EEXIST) path), s)
    | Failed e => (inl (OSError (Some e) path), s)
    end.

(** [os.symlink(src, dst)]: an empty [src] is refused with [ENOENT]
    before [dst] is looked at; any other [src] is stored as it is
    given.  The error names [src]. *)
Definition symlink (src dst : string) : M unit :=
  fun s =>
    if String.eqb src "" then (inl (OSError (Some ENOENT) src), s)
    else
      match resolve s false dst with
      | Absent parent name => (inr tt, create_entry parent name (Symlink src) s)
      | Found _ _ => (inl (OSError (Some EEXIST) src), s)
      | Failed e => (inl (OSError (Some e) src), s)
      end.

(** [os.readlink(path)], called on symbolic links only. *)
Definition readlink (path : string) (s : state) : string :=
  match resolve s false path with
  | Found _ (KLink target) => target
  | _ => ""
  end.

(** [os.makedirs(name)]: the recursion on the head of [name], with
    [fuel] bounding its depth. *)
Fixpoint makedirs_rec (fuel : nat) (name : string) : M unit :=
  fun s =>
    let (head, tail) := posixpath.split name in
    let (head, tail) :=
      if String.eqb tail "" then posixpath.split head else (head, tail) in
    if negb (String.eqb head "") && negb (String.eqb tail "")
       && negb (path_exists head s)
    then
      match fuel with
      | 0 => (inl (RuntimeError "maximum recursion depth exceeded"), s)
      | S fuel' =>
          match makedirs_rec fuel' head s with
          | (inl (OSError (Some EEXIST) text), s') =>
              (* be happy if someone already created the path *)
              if String.eqb tail "." then (inr tt, s') else mkdir name s'
          | (inl e, s') => (inl e, s')
          | (inr _, s') =>
              if String.eqb tail "." then (inr tt, s') else mkdir name s'
          end
      end
    else mkdir name s.

(** Each recursive call is on a strictly shorter name, so the length of
    the name is fuel enough. *)
Definition makedirs (name : string) : M unit :=
  makedirs_rec (String.length name) name.

End os.

(* ------------------------------------------------------------------ *)
(** ** [shutil] *)

Module shutil.

Import fs.

(** [shutil.rmtree(path)]: refuses a symbolic link, lists the directory,
    removes everything below it and then the directory itself; only the
    removal of the root directory fails at that last step. *)
Definition rmtree (path : string) : M unit :=
  fun s =>
    if os.path_islink path s then
      (inl (OSError None "Cannot call rmtree on a symbolic link"), s)
    else
      match resolve s true path with
      | Found q KDir =>
          match q with
          | [] => (inl (OSError (Some EBUSY) path), with_root s [])
          | _ => (inr tt, alter_root (removelast q) (remove_key (last q "")) s)
          end
      | Found _ _ => (inl (OSError (Some ENOTDIR) path), s)
      | Absent _ _ => (inl (OSError (Some ENOENT) path), s)
      | Failed e => (inl (OSError (Some e) path), s)
      end.

(** [os.path.samefile], [False] when either [stat] fails. *)
Definition samefile (src dst : string) (s : state) : bool :=
  match resolve s true src, resolve s true dst with
  | Found q1 _, Found q2 _ =>
      if list_eq_dec string_dec q1 q2 then true else false
  | _, _ => false
  end.

(** [open(path, 'rb').read()] *)
Definition read_file (path : string) : M string :=
  fun s =>
    match resolve s true path with
    | Found q KFile =>
        match find q (Dir (root s)) with
        | Some (File c) => (inr c, s)
        | _ => (inl (IOError (Some ENOENT) path), s)
        end
    | Found _ _ => (inl (IOError (Some EISDIR) path), s)
    | Absent _ _ => (inl (IOError (Some ENOENT) path), s)
    | Failed e => (inl (IOError (Some e) path), s)
    end.

(** [open(path, 'wb').write(content)]: the file is created or
    truncated, then written.  Opening fails where the path names a
    directory or does not resolve; once the file is open the write
    itself is taken to succeed (no I/O error, no full disk), so a copy
    that breaks off half-way is outside this model. *)
Definition write_file (path content : string) : M unit :=
  fun s =>
    match resolve s true path with
    | Found q KFile =>
        (inr tt, alter_root (removelast q) (put (last q "") (File content)) s)
    | Found _ _ => (inl (IOError (Some EISDIR) path), s)
    | Absent parent name => (inr tt, os.create_entry parent name (File content) s)
    | Failed e => (inl (IOError (Some e) path), s)
    end.

(** [shutil.copyfile(src, dst)] *)
Definition copyfile (src dst : string) : M unit :=
  same <- gets (samefile src dst) ;;
  if same : bool then
    raise (ShutilError ("`" ++ src ++ "` and `" ++ dst ++ "` are the same file"))
  else
    content <- read_file src ;;
    write_file dst content.

End shutil.

(* ------------------------------------------------------------------ *)
(** ** [fnmatch] *)

Module fnmatch.

(** A pattern as [fnmatch.translate] reads it. *)
Inductive item : Type :=
| Star
| Any
| Lit (c : ascii)
| Class (negate : bool) (members : list (ascii * ascii)).

(** The members of a bracket expression: [a-z] is a range. *)
Fixpoint members_of (stuff : list ascii) : list (ascii * ascii) :=
  match stuff with
  | [] => []
  | c :: rest =>
      match rest with
      | dash :: hi :: rest' =>
          if Ascii.eqb dash "-" then (c, hi) :: members_of rest'
          else (c, c) :: members_of rest
      | _ => (c, c) :: members_of rest
      end
  end.

(** The text before the first closing bracket, and what follows it. *)
Fixpoint break_bracket (l : list ascii) : option (list ascii * list ascii) :=
  match l with
  | [] => None
  | c :: r =>
      if Ascii.eqb c "]" then Some ([], r)
      else
        match break_bracket r with
        | Some (body, r') => Some (c :: body, r')
        | None => None
        end
  end.

Fixpoint parse (fuel : nat) (pat : list ascii) : list item :=
  match fuel, pat with
  | S fuel', c :: r =>
      if Ascii.eqb c "*" then Star :: parse fuel' r
      else if Ascii.eqb c "?" then Any :: parse fuel' r
      else if Ascii.eqb c "[" then
        let (negate, r1) :=
          match r with
          | bang :: r1 => if Ascii.eqb bang "!" then (true, r1) else (false, r)
          | [] => (false, r)
          end in
        let (lead, r2) :=
          match r1 with
          | close :: r2 => if Ascii.eqb close "]" then ([close], r2) else ([], r1)
          | [] => ([], r1)
          end in
        match break_bracket r2 with
        | None => Lit c :: parse fuel' r
        | Some (body, rest) =>
            Class negate (members_of (lead ++ body)%list) :: parse fuel' rest
        end
      else Lit c :: parse fuel' r
  | _, _ => []
  end.

Definition in_class (c : ascii) (members : list (ascii * ascii)) : bool :=
  existsb (fun m => Nat.leb (nat_of_ascii (fst m)) (nat_of_ascii c)
                    && Nat.leb (nat_of_ascii c) (nat_of_ascii (snd m))) members.

Fixpoint matches (items : list item) (name : list ascii) : bool :=
  match items with
  | [] => match name with [] => true | _ => false end
  | Star :: items' =>
      (fix from (l : list ascii) : bool :=
         matches items' l
         || match l with
            | [] => false
            | _ :: l' => from l'
            end) name
  | Any :: items' =>
      match name with
      | _ :: name' => matches items' name'
      | [] => false
      end
  | Lit c :: items' =>
      match name with
      | d :: name' => Ascii.eqb c d && matches items' name'
      | [] => false
      end
  | Class negate members :: items' =>
      match name with
      | d :: name' => xorb negate (in_class d members) && matches items' name'
      | [] => false
      end
  end.

(** [fnmatch.fnmatch(name, pat)] on POSIX, where [normcase] changes
    nothing. *)
Definition fnmatch (name pat : string) : bool :=
  let p := list_ascii_of_string pat in
  matches (parse (List.length p) p) (list_ascii_of_string name).

End fnmatch.

(* ------------------------------------------------------------------ *)
(** ** class [Folder] *)

Record Folder : Type := { abspath : string; folder_limit : string }.

Section FolderClass.

(** Library calls whose result the methods pass on as it is:
    [os.path.realpath] on the current disk, [fnmatch.fnmatch],
    [shutil.copytree] and [shutil.move]. *)
Variable realpath : fs.state -> string -> string.
Variable fnmatch : string -> string -> bool.
Variable copytree : string -> string -> M unit.
Variable move : string -> string -> M unit.

(** [Folder.__init__(abspath, folder_limit=None)] *)
Definition Folder_init (abspath : string) (folder_limit : option string)
  : M Folder :=
  fun s =>
    let abspath := realpath s abspath in
    let folder_limit :=
      match folder_limit with
      | None => abspath
      | Some l => l
      end in
    let folder_limit := realpath s folder_limit in
    (* check that it is a subfolder *)
    if negb (String.eqb (posixpath.commonprefix [abspath; folder_limit]) folder_limit)
    then
      (inl (ValueError
              ("The absolute path for this folder is not within the folder_limit. "
               ++ "abspath=" ++ abspath ++ ", folder_limit=" ++ folder_limit ++ ".")),
       s)
    else
      (inr {| abspath := realpath s abspath; folder_limit := folder_limit |}, s).

(** [Folder.exists] *)
Definition exists_ (self : Folder) : M bool :=
  gets (os.path_exists (abspath self)).

(** [Folder.create] *)
Definition create (self : Folder) : M unit :=
  e <- exists_ self ;;
  if negb e then os.makedirs (abspath self) else ret tt.

(** [Folder.get_subfolder(subfolder, create=False)] *)
Definition get_subfolder (self : Folder) (subfolder : string) (create_ : bool)
  : M Folder :=
  dest_abs_dir <- gets (fun s => realpath s (posixpath.join (abspath self) subfolder)) ;;
  (* Create a new Folder object, with the same limit of the parent *)
  new_folder <- Folder_init dest_abs_dir (Some (folder_limit self)) ;;
  (if create_ then create new_folder else ret tt) ;;;
  ret new_folder.

(** [Folder.get_content_list(pattern='*')] *)
Definition get_content_list (self : Folder) (pattern : string)
  : M (list (string * bool)) :=
  names <- os.listdir (abspath self) ;;
  gets (fun s =>
          map (fun fname =>
                 (fname, negb (os.path_isdir (posixpath.join (abspath self) fname) s)))
              (filter (fun fname => fnmatch fname pattern) names)).

(** [Folder.get_filename(filename)] *)
Definition get_filename (self : Folder) (filename : string) : exn + string :=
  let dest_abs_path := posixpath.join (abspath self) filename in
  let (head, tail) := posixpath.split dest_abs_path in
  if negb (String.eqb head (abspath self) && String.eqb tail filename) then
    inl (ValueError ("You didn't specify a valid filename: " ++ filename))
  else inr dest_abs_path.

(** [Folder.create_symlink(src, name)] *)
Definition create_symlink (self : Folder) (src name : string) : M unit :=
  dest_abs_path <- lift (get_filename self name) ;;
  os.symlink src dest_abs_path.

(** [Folder.insert_file(src, dest_name=None)] *)
Definition insert_file (self : Folder) (src : string) (dest_name : option string)
  : M string :=
  let filename :=
    match dest_name with
    | None => posixpath.basename src
    | Some d => d
    end in
  (* I get the full path of the filename, checking also that I don't
     go beyond the folder limits *)
  dest_abs_path <- lift (get_filename self filename) ;;
  shutil.copyfile src dest_abs_path ;;;
  ret dest_abs_path.

(** [Folder.erase(create_empty_folder=False)] *)
Definition erase (self : Folder) (create_empty_folder : bool) : M unit :=
  e <- exists_ self ;;
  (if e : bool then shutil.rmtree (abspath self) else ret tt) ;;;
  if create_empty_folder then create self else ret tt.

(** [Folder.replace_with_folder(srcdir, move=False, overwrite=False)] *)
Definition replace_with_folder (self : Folder) (srcdir : string)
  (move_ overwrite : bool) : M unit :=
  (if overwrite then erase self false
   else
     e <- exists_ self ;;
     if e : bool then
       raise (IOError None ("Location " ++ abspath self
                            ++ " already exists, and overwrite is set to False"))
     else ret tt) ;;;
  (* Create parent dir, if needed *)
  let pardir := posixpath.dirname (abspath self) in
  pe <- gets (os.path_exists pardir) ;;
  (if negb pe then os.makedirs pardir else ret tt) ;;;
  if move_ then move srcdir (abspath self) else copytree srcdir (abspath self).

End FolderClass.

(* ------------------------------------------------------------------ *)
(** ** A disk without symbolic links; canonical paths *)

(** The loop of [posixpath._joinrealpath] when no component is a
    symbolic link. *)
Fixpoint joinrealpath_nolinks (names : list string) (path : string) : string :=
  match names with
  | [] => path
  | name :: rest =>
      if String.eqb name "" || String.eqb name "." then
        joinrealpath_nolinks rest path
      else if String.eqb name ".." then
        if negb (String.eqb path "") then
          let (path', name') := posixpath.split path in
          joinrealpath_nolinks rest
            (if String.eqb name' ".."
             then posixpath.join (posixpath.join path' "..") ".."
             else path')
        else joinrealpath_nolinks rest ".."
      else joinrealpath_nolinks rest (posixpath.join path name)
  end.

(** [posixpath._joinrealpath('', filename, {})], no component being a
    symbolic link: an absolute [filename] starts from the root. *)
Definition joinrealpath_top (filename : string) : string :=
  match filename with
  | String c rest =>
      if str.is_sep c then joinrealpath_nolinks (str.split_sep rest) "/"
      else joinrealpath_nolinks (str.split_sep filename) ""
  | EmptyString => ""
  end.

(** [os.path.realpath] on a disk where no component of the path is a
    symbolic link. *)
Definition realpath_nolinks (s : fs.state) (filename : string) : string :=
  posixpath.abspath (fs.cwd s) (joinrealpath_top filename).

(* ------------------------------------------------------------------ *)
(** ** [os.path.realpath], symbolic links resolved *)

(** The [seen] dict of [posixpath._joinrealpath]: from the path of a
    link to its resolution, [None] while the link is being resolved.
    The dict is shared by all the nested calls, so it is threaded
    through them. *)
Definition seen_dict : Type := list (string * option string).

Fixpoint seen_get (k : string) (seen : seen_dict) : option (option string) :=
  match seen with
  | [] => None
  | (k', v) :: r => if String.eqb k k' then Some v else seen_get k r
  end.

Definition seen_set (k : string) (v : option string) (seen : seen_dict)
  : seen_dict :=
  (k, v) :: seen.

(** The [while rest:] loop of [_joinrealpath] over the components of
    [rest].  [rec] is [_joinrealpath] itself, called on the target of a
    link.  The result is [(path, ok)] with the dict as the call leaves
    it; [None] when the nesting is deeper than the interpreter
    allows. *)
Fixpoint joinrealpath_loop
  (rec : string -> string -> seen_dict -> option (string * bool * seen_dict))
  (s : fs.state) (names : list string) (path : string) (seen : seen_dict)
  : option (string * bool * seen_dict) :=
  match names with
  | [] => Some (path, true, seen)
  | name :: rest =>
      if String.eqb name "" || String.eqb name "." then
        joinrealpath_loop rec s rest path seen
      else if String.eqb name ".." then
        if negb (String.eqb path "") then
          let (path', name') := posixpath.split path in
          joinrealpath_loop rec s rest
            (if String.eqb name' ".."
             then posixpath.join (posixpath.join path' "..") ".."
             else path')
            seen
        else joinrealpath_loop rec s rest ".." seen
      else
        let newpath := posixpath.join path name in
        if negb (os.path_islink newpath s) then
          joinrealpath_loop rec s rest newpath seen
        else
          (* Resolve the symbolic link *)
          match seen_get newpath seen with
          | Some (Some cached) => joinrealpath_loop rec s rest cached seen
          | Some None =>
              (* The symlink is not resolved, so we must have a symlink
                 loop.  Return already resolved part + rest of the path
                 unchanged. *)
              Some (posixpath.join newpath (str.join_sep rest), false, seen)
          | None =>
              match rec path (os.readlink newpath s) (seen_set newpath None seen) with
              | None => None
              | Some (path', false, seen') =>
                  Some (posixpath.join path' (str.join_sep rest), false, seen')
              | Some (path', true, seen') =>
                  joinrealpath_loop rec s rest path'
                    (seen_set newpath (Some path') seen')
              end
          end
  end.

(** [posixpath._joinrealpath(path, rest, seen)]; [fuel] bounds the
    nesting of the calls. *)
Fixpoint joinrealpath (fuel : nat) (s : fs.state) (path rest : string)
  (seen : seen_dict) : option (string * bool * seen_dict) :=
  match fuel with
  | 0 => None
  | S fuel' =>
      match rest with
      | String c rest' =>
          if str.is_sep c
          then joinrealpath_loop (joinrealpath fuel' s) s (str.split_sep rest') "/" seen
          else joinrealpath_loop (joinrealpath fuel' s) s (str.split_sep rest) path seen
      | EmptyString => Some (path, true, seen)
      end
  end.

(** The depth at which the interpreter gives up ([RuntimeError]). *)
Definition recursion_limit : nat := 1000.

(** [os.path.realpath(filename)].  Where the nesting of links exceeds
    the recursion limit Python raises; no property below reaches that
    case, and the value given for it here is the argument itself. *)
Definition path_realpath (s : fs.state) (filename : string) : string :=
  match joinrealpath recursion_limit s "" filename [] with
  | Some (path, _, _) => posixpath.abspath (fs.cwd s) path
  | None => filename
  end.

(** Whether no node of the tree is a symbolic link. *)
Fixpoint link_free (n : fs.node) : bool :=
  match n with
  | fs.File _ => true
  | fs.Symlink _ => false
  | fs.Dir es =>
      (fix all (l : list (string * fs.node)) : bool :=
         match l with
         | [] => true
         | (_, c) :: r => link_free c && all r
         end) es
  end.

(** The form of a path that [realpath] returns: no trailing separator,
    unless the path is made of separators only. *)
Definition trimmed (a : string) : bool :=
  str.all_sep a || negb (str.endswith_sep a).

(** [is_below q p]: the physical path [p] is [q] or lies under it. *)
Definition is_below (q p : list string) : Prop := exists t, p = (q ++ t)%list.

(** A node with nothing below it. *)
Definition childless (c : fs.node) : Prop :=
  match c with
  | fs.Dir es => es = []
  | _ => True
  end.

(** A name that can be an entry of a directory. *)
Definition proper_name (name : string) : bool :=
  negb (String.eqb name "") && negb (String.eqb name ".")
  && negb (String.eqb name "..") && negb (str.has_sep name).

(** The absolute path string of a physical path. *)
Fixpoint path_below (q : list string) : string :=
  match q with
  | [] => ""
  | name :: q' => "/" ++ name ++ path_below q'
  end.

Definition path_of (q : list string) : string :=
  match q with
  | [] => "/"
  | _ => path_below q
  end.

(** A canonical absolute path: what [realpath] returns. *)
Definition canonical (p : string) : Prop :=
  exists q, Forall (fun n => proper_name n = true) q /\ p = path_of q.

(** Whether the link with this target, an entry of the directory at
    [q], leads to a directory. *)
Definition follows_to_dir (s : fs.state) (q : list string) (target : string)
  : bool :=
  match
    (if String.eqb target "" then fs.Failed fs.ENOENT
     else
       fs.walk (pred fs.MAXSYMLINKS) (fs.look (fs.root s)) true
         (if posixpath.isabs target then [] else q)
         (str.split_sep target ++ [])%list)
  with
  | fs.Found _ fs.KDir => true
  | _ => false
  end.

(** [os.path.isfile]: a regular file, or a link to one. *)
Definition path_isfile (path : string) (s : fs.state) : bool :=
  match fs.resolve s true path with
  | fs.Found _ fs.KFile => true
  | _ => false
  end.

(** Containment as the specification words it: the components of
    [limit] are the leading components of [path]. *)
Fixpoint components_prefix (l p : list string) : bool :=
  match l, p with
  | [], _ => true
  | a :: l', b :: p' => String.eqb a b && components_prefix l' p'
  | _ :: _, [] => false
  end.

Definition spec_contained (limit path : string) : bool :=
  components_prefix
    (filter (fun c => negb (String.eqb c "")) (str.split_sep limit))
    (filter (fun c => negb (String.eqb c "")) (str.split_sep path)).

(** Instances of the library calls that the embedding leaves open, for
    running the methods: [copytree] and [move] as they act on a source
    that is missing. *)
Definition copytree_missing (src dst : string) : M unit :=
  raise (OSError (Some fs.ENOENT) src).

Definition move_missing (src dst : string) : M unit :=
  raise (IOError (Some fs.ENOENT) src).

(** An empty disk, and one holding a folder with a file, a
    subdirectory and a dangling link. *)
Definition empty_disk : fs.state := {| fs.root := []; fs.cwd := "/" |}.

Definition sample_disk : fs.state :=
  {| fs.root :=
       [ ("tmp", fs.Dir
            [ ("x", fs.Dir
                 [ ("report.txt", fs.File "results");
                   ("sub", fs.Dir []);
                   ("lnk", fs.Symlink "nowhere") ]);
              ("src.dat", fs.File "data") ]) ];
     fs.cwd := "/" |}.

(** The folder [/tmp/x] of the sample disk, with [/tmp] as its limit. *)
Definition sample_folder : Folder :=
  {| abspath := "/tmp/x"; folder_limit := "/tmp" |}.

(** A disk where the folder [/box] holds a link that leads out of it. *)
Definition linked_disk : fs.state :=
  {| fs.root :=
       [ ("box", fs.Dir
            [ ("out", fs.Symlink "/data/keep.txt");
              ("new.txt", fs.File "fresh") ]);
         ("data", fs.Dir [ ("keep.txt", fs.File "kept") ]) ];
     fs.cwd := "/" |}.

(** A disk with a symbolic link that leads back through itself:
    [/T/b/c -> c/c]. *)
Definition loop_disk : fs.state :=
  {| fs.root := [ ("T", fs.Dir [ ("b", fs.Dir [ ("c", fs.Symlink "c/c") ]) ]) ];
     fs.cwd := "/" |}.

(* ================================================================== *)
(** * Properties *)

(* ------------------------------------------------------------------ *)
(** ** Strings and paths *)

Lemma is_sep_true (c : ascii) : str.is_sep c = true -> c = "/"%char.
Proof. unfold str.is_sep. intros H. now apply Ascii.eqb_eq in H. Qed.

Lemma append_assoc (x y z : string) : (x ++ y) ++ z = x ++ y ++ z.
Proof. induction x as [|c x IH]; simpl; congruence. Qed.

Lemma append_nil_r (x : string) : x ++ "" = x.
Proof. induction x as [|c x IH]; simpl; congruence. Qed.

Lemma has_sep_app (x y : string) :
  str.has_sep (x ++ y) = str.has_sep x || str.has_sep y.
Proof.
  induction x as [|c x IH]; simpl; [reflexivity|].
  rewrite IH. now rewrite orb_assoc.
Qed.

Lemma lcp_refl (s : string) : str.lcp s s = s.
Proof.
  induction s as [|c s IH]; simpl; [reflexivity|].
  now rewrite Ascii.eqb_refl, IH.
Qed.

Lemma lcp_comm (a b : string) : str.lcp a b = str.lcp b a.
Proof.
  revert b; induction a as [|c a IH]; intros [|d b]; simpl; try reflexivity.
  rewrite (Ascii.eqb_sym d c).
  destruct (Ascii.eqb c d) eqn:E; [|reflexivity].
  apply Ascii.eqb_eq in E. subst d. now rewrite IH.
Qed.

(** On two paths [commonprefix] is their longest common prefix. *)
Lemma commonprefix_pair (a b : string) :
  posixpath.commonprefix [a; b] = str.lcp a b.
Proof.
  unfold posixpath.commonprefix; simpl. unfold str.min, str.max.
  destruct (String.leb a b); [reflexivity | apply lcp_comm].
Qed.

Lemma lcp_is_prefix (a l : string) :
  str.lcp a l = l -> exists rest, a = l ++ rest.
Proof.
  revert l. induction a as [|c a IH]; intros [|d l]; simpl; intros H.
  - now exists "".
  - discriminate.
  - now exists (String c a).
  - destruct (Ascii.eqb_spec c d) as [->|_]; [|discriminate].
    injection H as H. destruct (IH l H) as [rest ->]. now exists rest.
Qed.

(** A string prefix is a common prefix. *)
Lemma lcp_prefix (l r : string) : str.lcp (l ++ r) l = l.
Proof.
  induction l as [|c l IH]; simpl.
  - now destruct r.
  - now rewrite Ascii.eqb_refl, IH.
Qed.

Lemma after_last_sep_no_sep (p : string) :
  str.has_sep (str.after_last_sep p) = false.
Proof.
  induction p as [|c p IH]; simpl; [reflexivity|].
  destruct (str.has_sep p) eqn:Hp; [exact IH|].
  destruct (str.is_sep c) eqn:Hc; simpl; [exact Hp|].
  now rewrite Hc, Hp.
Qed.

Lemma no_sep_last (n : string) :
  str.has_sep n = false ->
  str.upto_last_sep n = "" /\ str.after_last_sep n = n.
Proof.
  destruct n as [|c n]; simpl; [now split|].
  intros H. apply orb_false_iff in H as [Hc Hn].
  now rewrite Hn, Hc.
Qed.

Lemma endswith_sep_cons (c : ascii) (x : string) :
  str.endswith_sep (String c x) = true ->
  x = "" /\ str.is_sep c = true \/ x <> "" /\ str.endswith_sep x = true.
Proof.
  destruct x as [|d x]; simpl; intros H; [now left | right].
  split; [discriminate | exact H].
Qed.

(** Splitting right after a trailing separator. *)
Lemma last_sep_after_trailing (x n : string) :
  str.endswith_sep x = true -> str.has_sep n = false ->
  str.upto_last_sep (x ++ n) = x /\ str.after_last_sep (x ++ n) = n.
Proof.
  intros Hx Hn. induction x as [|c x IH]; [discriminate|].
  apply endswith_sep_cons in Hx as [[-> Hc] | [Hne Hx]].
  - simpl. now rewrite Hn, Hc.
  - destruct (IH Hx) as [IH1 IH2].
    change (String c x ++ n) with (String c (x ++ n)). simpl.
    rewrite has_sep_app.
    assert (Hs : str.has_sep x = true).
    { clear - Hx. induction x as [|d x IH]; [discriminate|].
      apply endswith_sep_cons in Hx as [[-> Hd] | [_ Hx]]; simpl.
      - now rewrite Hd.
      - rewrite (IH Hx). apply orb_true_r. }
    rewrite Hs. simpl. now rewrite IH1, IH2.
Qed.

Lemma endswith_sep_app_sep (a : string) : str.endswith_sep (a ++ "/") = true.
Proof.
  induction a as [|c a IH]; [reflexivity|].
  change (String c a ++ "/") with (String c (a ++ "/")).
  simpl. rewrite IH. now destruct (a ++ "/").
Qed.

Lemma all_sep_app (x y : string) :
  str.all_sep (x ++ y) = str.all_sep x && str.all_sep y.
Proof.
  induction x as [|c x IH]; simpl; [reflexivity|].
  now rewrite IH, andb_assoc.
Qed.

Lemma all_sep_endswith (a : string) :
  a <> "" -> str.all_sep a = true -> str.endswith_sep a = true.
Proof.
  induction a as [|c a IH]; [congruence|]. intros _. simpl.
  intros H. apply andb_true_iff in H as [Hc Ha].
  destruct a as [|d a]; [exact Hc|]. apply IH; [discriminate | exact Ha].
Qed.

Lemma rstrip_sep_app_sep (a : string) :
  str.endswith_sep a = false -> str.rstrip_sep (a ++ "/") = a.
Proof.
  induction a as [|c a IH]; [reflexivity|]. intros H.
  change (String c a ++ "/") with (String c (a ++ "/")).
  cbn [str.rstrip_sep].
  assert (Hall : str.all_sep (String c (a ++ "/")) = false).
  { destruct (str.all_sep (String c (a ++ "/"))) eqn:E; [|reflexivity].
    change (String c (a ++ "/")) with (String c a ++ "/") in E.
    rewrite all_sep_app in E. apply andb_true_iff in E as [E _].
    apply all_sep_endswith in E; [congruence | discriminate]. }
  rewrite Hall. f_equal.
  destruct a as [|d a]; [reflexivity | apply IH; exact H].
Qed.

Lemma split_join_name (a n : string) :
  trimmed a = true -> str.has_sep n = false ->
  posixpath.split (posixpath.join a n) = (a, n).
Proof.
  intros Ha Hn. unfold posixpath.join.
  assert (Hs : str.startswith_sep n = false).
  { destruct n as [|c n]; [reflexivity|]. simpl in *.
    now apply orb_false_iff in Hn as [-> _]. }
  rewrite Hs. unfold posixpath.split.
  destruct (String.eqb a "") eqn:Ea.
  - apply String.eqb_eq in Ea. subst a. simpl.
    destruct (no_sep_last n Hn) as [-> ->]. reflexivity.
  - assert (Hne : a <> "") by (intros ->; discriminate).
    simpl. destruct (str.endswith_sep a) eqn:Ee.
    + destruct (last_sep_after_trailing a n Ee Hn) as [-> ->].
      unfold trimmed in Ha. rewrite Ee in Ha. simpl in Ha.
      rewrite orb_false_r in Ha. rewrite Ha, Ea. reflexivity.
    + change (a ++ String "/" n) with (a ++ "/" ++ n).
      rewrite <- append_assoc.
      destruct (last_sep_after_trailing (a ++ "/") n (endswith_sep_app_sep a) Hn)
        as [-> ->].
      assert (Hall : str.all_sep a = false).
      { destruct (str.all_sep a) eqn:E; [|reflexivity].
        apply (all_sep_endswith a Hne) in E. congruence. }
      rewrite all_sep_app, Hall. simpl.
      assert (Hn0 : String.eqb (a ++ "/") "" = false) by now destruct a.
      rewrite Hn0. simpl. now rewrite rstrip_sep_app_sep.
Qed.

(* ------------------------------------------------------------------ *)
(** ** The tree: [assoc], [find], [alter_at] *)

Lemma assoc_app_absent (k k' : string) (n : fs.node) (es : fs.entries) :
  fs.assoc k es = None ->
  fs.assoc k' (es ++ [(k, n)])%list
  = if String.eqb k' k then Some n else fs.assoc k' es.
Proof.
  intros H. induction es as [|[k0 n0] es IH]; simpl in *.
  - reflexivity.
  - destruct (String.eqb k k0) eqn:E0; [discriminate|].
    destruct (String.eqb k' k0) eqn:E1.
    + destruct (String.eqb k' k) eqn:E2; [|reflexivity].
      apply String.eqb_eq in E1, E2. subst. now rewrite String.eqb_refl in E0.
    + apply IH, H.
Qed.

Lemma assoc_remove_key (k k' : string) (es : fs.entries) :
  fs.assoc k' (fs.remove_key k es)
  = if String.eqb k' k then None else fs.assoc k' es.
Proof.
  induction es as [|[k0 n0] es IH]; simpl.
  - now destruct (String.eqb k' k).
  - destruct (String.eqb k k0) eqn:E0; simpl.
    + rewrite IH. destruct (String.eqb k' k) eqn:E1; [reflexivity|].
      apply String.eqb_eq in E0. subst k0. now rewrite E1.
    + rewrite IH. destruct (String.eqb k' k0) eqn:E1; [|reflexivity].
      destruct (String.eqb k' k) eqn:E2; [|reflexivity].
      apply String.eqb_eq in E1, E2. subst. now rewrite String.eqb_refl in E0.
Qed.

Lemma assoc_map_put (k k' : string) (n : fs.node) (es : fs.entries) :
  fs.assoc k' (map (fun e => if String.eqb k (fst e) then (k, n) else e) es)
  = if String.eqb k' k then option_map (fun _ => n) (fs.assoc k es)
    else fs.assoc k' es.
Proof.
  induction es as [|[k0 n0] es IH]; simpl.
  - now destruct (String.eqb k' k).
  - destruct (String.eqb k k0) eqn:E0; simpl; rewrite IH;
      destruct (String.eqb k' k0) eqn:E1; destruct (String.eqb k' k) eqn:E2;
      try reflexivity;
      repeat match goal with
             | H : String.eqb _ _ = true |- _ => apply String.eqb_eq in H; subst
             end;
      rewrite ?String.eqb_refl in *; congruence.
Qed.

Lemma assoc_put (k k' : string) (n : fs.node) (es : fs.entries) :
  fs.assoc k' (fs.put k n es)
  = if String.eqb k' k then Some n else fs.assoc k' es.
Proof.
  unfold fs.put. destruct (fs.assoc k es) eqn:E.
  - rewrite assoc_map_put, E. reflexivity.
  - now apply assoc_app_absent.
Qed.

Lemma alter_at_dir (q : list string) (f : fs.entries -> fs.entries) (es : fs.entries) :
  exists es', fs.alter_at q f (fs.Dir es) = fs.Dir es'.
Proof.
  destruct q as [|k q]; simpl; [eauto|].
  destruct (fs.assoc k es); eauto.
Qed.

(** Below the altered directory the tree is the new one. *)
Lemma find_alter_at_below (q t : list string) (f : fs.entries -> fs.entries)
  (n : fs.node) (es : fs.entries) :
  fs.find q n = Some (fs.Dir es) ->
  fs.find (q ++ t) (fs.alter_at q f n) = fs.find t (fs.Dir (f es)).
Proof.
  revert n. induction q as [|k q IH]; intros n H.
  - simpl in H. injection H as ->. reflexivity.
  - destruct n as [c|c|es0]; try discriminate. simpl in H.
    destruct (fs.assoc k es0) as [c|] eqn:E; [|discriminate].
    cbn [fs.alter_at]. rewrite E.
    change ((k :: q) ++ t)%list with (k :: (q ++ t))%list. cbn [fs.find].
    rewrite assoc_put, String.eqb_refl. now apply IH.
Qed.

(** Elsewhere every node keeps its kind. *)
Lemma find_alter_at_other (q p : list string) (f : fs.entries -> fs.entries)
  (n : fs.node) :
  ~ is_below q p ->
  option_map fs.kind_of (fs.find p (fs.alter_at q f n))
  = option_map fs.kind_of (fs.find p n).
Proof.
  revert n p. induction q as [|k q IH]; intros n p H.
  - exfalso. apply H. now exists p.
  - destruct n as [c|c|es]; try reflexivity. cbn [fs.alter_at].
    destruct (fs.assoc k es) as [c|] eqn:E; [|reflexivity].
    destruct p as [|k' p]; [reflexivity|]. cbn [fs.find].
    rewrite assoc_put. destruct (String.eqb k' k) eqn:Ek; [|reflexivity].
    apply String.eqb_eq in Ek. subst k'. rewrite E. apply IH.
    intros [t Ht]. apply H. exists t. simpl. now f_equal.
Qed.

Lemma find_app (q t : list string) (n : fs.node) :
  fs.find (q ++ t) n
  = match fs.find q n with
    | Some c => fs.find t c
    | None => None
    end.
Proof.
  revert n. induction q as [|k q IH]; intros n; [reflexivity|].
  simpl. destruct n as [c|c|es]; try reflexivity.
  destruct (fs.assoc k es); [apply IH | reflexivity].
Qed.

Lemma alter_root_look (q : list string) (f : fs.entries -> fs.entries) (s : fs.state) :
  fs.alter_at q f (fs.Dir (fs.root s)) = fs.Dir (fs.root (fs.alter_root q f s))
  /\ fs.cwd (fs.alter_root q f s) = fs.cwd s.
Proof.
  unfold fs.alter_root.
  destruct (alter_at_dir q f (fs.root s)) as [es' ->]. now split.
Qed.

(* ------------------------------------------------------------------ *)
(** ** Path resolution *)

Lemma walk_nil (b : nat) lk (fl : bool) (cur : list string) :
  fs.walk b lk fl cur []
  = match lk cur with
    | Some k => fs.Found cur k
    | None => fs.Failed fs.ENOENT
    end.
Proof. destruct b; reflexivity. Qed.

Lemma walk_cons (b : nat) lk (fl : bool) (cur : list string) (seg : string)
  (rest : list string) :
  fs.walk b lk fl cur (seg :: rest)
  = match lk cur with
    | Some fs.KDir =>
        if String.eqb seg "" || String.eqb seg "." then fs.walk b lk fl cur rest
        else if String.eqb seg ".." then fs.walk b lk fl (removelast cur) rest
        else
          match lk (cur ++ [seg])%list with
          | None =>
              match rest with
              | [] => fs.Absent cur seg
              | _ => fs.Failed fs.ENOENT
              end
          | Some (fs.KLink target) =>
              if fl || negb (match rest with [] => true | _ => false end) then
                match b with
                | 0 => fs.Failed fs.ELOOP
                | S b' =>
                    if String.eqb target "" then fs.Failed fs.ENOENT
                    else
                      fs.walk b' lk fl
                        (if posixpath.isabs target then [] else cur)
                        (str.split_sep target ++ rest)%list
                end
              else fs.Found (cur ++ [seg])%list (fs.KLink target)
          | Some _ => fs.walk b lk fl (cur ++ [seg])%list rest
          end
    | Some _ => fs.Failed fs.ENOTDIR
    | None => fs.Failed fs.ENOENT
    end.
Proof. destruct b; reflexivity. Qed.

(** Induction along the calls of [walk]. *)
Lemma walk_ind (P : nat -> list string -> list string -> Prop) :
  (forall b cur, P b cur []) ->
  (forall b cur seg rest,
      P b cur rest ->
      P b (removelast cur) rest ->
      P b (cur ++ [seg])%list rest ->
      (forall b' start target, b = S b' -> P b' start (str.split_sep target ++ rest)%list) ->
      P b cur (seg :: rest)) ->
  forall b cur segs, P b cur segs.
Proof.
  intros Hnil Hcons. induction b as [|b IHb].
  - intros cur segs. revert cur. induction segs as [|seg rest IH]; intros cur.
    + apply Hnil.
    + apply Hcons; try apply IH. intros b' start target E. discriminate.
  - intros cur segs. revert cur. induction segs as [|seg rest IH]; intros cur.
    + apply Hnil.
    + apply Hcons; try apply IH. intros b' start target E.
      injection E as <-. apply IHb.
Qed.

(** When the last component is missing, its directory is there. *)
Lemma walk_absent lk (fl : bool) (par : list string) (name : string) :
  forall b cur segs,
    fs.walk b lk fl cur segs = fs.Absent par name ->
    lk par = Some fs.KDir /\ lk (par ++ [name])%list = None.
Proof.
  apply (walk_ind (fun b cur segs =>
    fs.walk b lk fl cur segs = fs.Absent par name ->
    lk par = Some fs.KDir /\ lk (par ++ [name])%list = None)).
  - intros b cur. rewrite walk_nil. destruct (lk cur); discriminate.
  - intros b cur seg rest IH1 IH2 IH3 IH4. rewrite walk_cons.
    destruct (lk cur) as [[| |]|] eqn:Hc; try discriminate.
    destruct (String.eqb seg "" || String.eqb seg "."); [exact IH1|].
    destruct (String.eqb seg ".."); [exact IH2|].
    destruct (lk (cur ++ [seg])%list) as [[|target|]|] eqn:Hn; try exact IH3.
    + destruct (fl || negb match rest with [] => true | _ => false end);
        [|discriminate].
      destruct b as [|b']; [discriminate|].
      destruct (String.eqb target ""); [discriminate|]. now apply IH4.
    + destruct rest; [|discriminate]. intros E. injection E as <- <-. now split.
Qed.

(** Resolution reads the disk through [look] only. *)
Lemma walk_ext lk lk' (fl : bool) :
  (forall p, lk' p = lk p) ->
  forall b cur segs, fs.walk b lk' fl cur segs = fs.walk b lk fl cur segs.
Proof.
  intros Hlk.
  apply (walk_ind (fun b cur segs =>
    fs.walk b lk' fl cur segs = fs.walk b lk fl cur segs)).
  - intros b cur. now rewrite !walk_nil, Hlk.
  - intros b cur seg rest IH1 IH2 IH3 IH4. rewrite !walk_cons, !Hlk.
    destruct (lk cur) as [[| |]|]; try reflexivity.
    destruct (String.eqb seg "" || String.eqb seg "."); [exact IH1|].
    destruct (String.eqb seg ".."); [exact IH2|].
    destruct (lk (cur ++ [seg])%list) as [[|target|]|]; try exact IH3; [|reflexivity].
    destruct (fl || negb match rest with [] => true | _ => false end);
      [|reflexivity].
    destruct b as [|b']; [reflexivity|].
    destruct (String.eqb target ""); [reflexivity|]. now apply IH4.
Qed.

(** Once the missing last component is created, with a file or a
    directory, the path resolves to it. *)
Lemma walk_created lk lk' (fl fl' : bool) (par : list string) (name : string)
  (k : fs.kind) :
  lk' (par ++ [name])%list = Some k ->
  (forall t, k <> fs.KLink t) ->
  (forall p, p <> (par ++ [name])%list -> lk' p = lk p) ->
  (fl = true -> fl' = true) ->
  forall b cur segs,
    fs.walk b lk fl cur segs = fs.Absent par name ->
    fs.walk b lk' fl' cur segs = fs.Found (par ++ [name])%list k.
Proof.
  intros Hnew Hk Hold Hfl.
  apply (walk_ind (fun b cur segs =>
    fs.walk b lk fl cur segs = fs.Absent par name ->
    fs.walk b lk' fl' cur segs = fs.Found (par ++ [name])%list k)).
  - intros b cur. rewrite walk_nil. destruct (lk cur); discriminate.
  - intros b cur seg rest IH1 IH2 IH3 IH4 H.
    pose proof (walk_absent _ _ _ _ _ _ _ H) as [_ Hnone].
    rewrite walk_cons in H. rewrite walk_cons.
    destruct (lk cur) as [[| |]|] eqn:Hc; try discriminate.
    assert (Hc' : lk' cur = Some fs.KDir).
    { rewrite Hold; [exact Hc|]. intros ->. congruence. }
    rewrite Hc'.
    destruct (String.eqb seg "" || String.eqb seg "."); [now apply IH1|].
    destruct (String.eqb seg ".."); [now apply IH2|].
    destruct (lk (cur ++ [seg])%list) as [x|] eqn:Hn.
    + assert (Hn' : lk' (cur ++ [seg])%list = Some x).
      { rewrite Hold; [exact Hn|]. intros E. rewrite E in Hn. congruence. }
      rewrite Hn'. destruct x as [|target|]; try now apply IH3.
      destruct rest as [|seg' rest]; simpl in *.
      * rewrite orb_false_r in *. destruct fl; [|discriminate].
        assert (Hfl' : fl' = true) by now apply Hfl.
        subst fl'. destruct b as [|b']; [discriminate|].
        destruct (String.eqb target ""); [discriminate|]. now apply IH4.
      * rewrite orb_true_r in *. destruct b as [|b']; [discriminate|].
        destruct (String.eqb target ""); [discriminate|]. now apply IH4.
    + destruct rest; [|discriminate]. injection H as <- <-.
      rewrite Hnew, walk_nil, Hnew.
      destruct k as [|t|]; try reflexivity. now destruct (Hk t).
Qed.

(** Once a directory is removed, a path that resolved to it resolves
    to nothing. *)
Lemma walk_removed lk lk' (fl : bool) (q : list string) :
  (forall p, is_below q p -> lk' p = None) ->
  (forall p, ~ is_below q p -> lk' p = lk p) ->
  forall b cur segs k,
    fs.walk b lk fl cur segs = fs.Found q k ->
    forall q' k', fs.walk b lk' fl cur segs <> fs.Found q' k'.
Proof.
  intros Hgone Hold.
  assert (Hsame : forall p x, lk' p = Some x -> lk p = Some x).
  { intros p x Hp. rewrite <- Hold; [exact Hp|].
    intros Hb. rewrite (Hgone p Hb) in Hp. discriminate. }
  apply (walk_ind (fun b cur segs => forall k,
    fs.walk b lk fl cur segs = fs.Found q k ->
    forall q' k', fs.walk b lk' fl cur segs <> fs.Found q' k')).
  - intros b cur k. rewrite !walk_nil.
    destruct (lk cur) as [x|] eqn:Hc; [|discriminate].
    intros E. injection E as -> ->. rewrite Hgone; [discriminate|].
    exists []. now rewrite app_nil_r.
  - intros b cur seg rest IH1 IH2 IH3 IH4 k H q' k'.
    rewrite walk_cons in H. rewrite walk_cons.
    destruct (lk' cur) as [x|] eqn:Hc'; [|discriminate].
    rewrite (Hsame _ _ Hc') in H.
    destruct x; try discriminate.
    destruct (String.eqb seg "" || String.eqb seg "."); [now apply (IH1 k)|].
    destruct (String.eqb seg ".."); [now apply (IH2 k)|].
    destruct (lk' (cur ++ [seg])%list) as [x|] eqn:Hn'.
    + rewrite (Hsame _ _ Hn') in H.
      destruct x as [|target|]; try now apply (IH3 k).
      destruct (fl || negb match rest with [] => true | _ => false end).
      * destruct b as [|b']; [discriminate|].
        destruct (String.eqb target ""); [discriminate|]. now apply (IH4 _ _ _ eq_refl k).
      * injection H as <- _. intros E. injection E as <- _.
        rewrite Hgone in Hn'; [discriminate|]. exists []. now rewrite app_nil_r.
    + destruct rest; discriminate.
Qed.

(* ------------------------------------------------------------------ *)
(** ** Canonical paths *)

Lemma proper_name_inv (n : string) :
  proper_name n = true ->
  n <> "" /\ n <> "." /\ n <> ".." /\ str.has_sep n = false.
Proof.
  unfold proper_name. intros H.
  repeat (apply andb_true_iff in H as [H ?]).
  repeat split; try (apply String.eqb_neq; now apply negb_true_iff).
  now apply negb_true_iff.
Qed.

Lemma proper_name_walks (n : string) :
  proper_name n = true ->
  String.eqb n "" || String.eqb n "." = false /\ String.eqb n ".." = false.
Proof.
  intros H. apply proper_name_inv in H as (H1 & H2 & H3 & _).
  apply String.eqb_neq in H1, H2, H3. now rewrite H1, H2, H3.
Qed.

Lemma no_sep_not_abs (n : string) :
  str.has_sep n = false -> str.startswith_sep n = false.
Proof.
  destruct n as [|c n]; [reflexivity|]. simpl.
  intros H. now apply orb_false_iff in H as [-> _].
Qed.

Lemma path_below_app (q : list string) (n : string) :
  path_below (q ++ [n]) = path_below q ++ "/" ++ n.
Proof.
  induction q as [|k q IH]; simpl.
  - now rewrite append_nil_r.
  - rewrite IH. now rewrite !append_assoc.
Qed.

Lemma endswith_sep_app (x y : string) :
  y <> "" -> str.endswith_sep (x ++ y) = str.endswith_sep y.
Proof.
  intros Hy. induction x as [|c x IH]; [reflexivity|].
  change (String c x ++ y) with (String c (x ++ y)).
  cbn [str.endswith_sep]. rewrite IH.
  destruct (x ++ y) eqn:E; [|reflexivity].
  destruct x; [simpl in E; congruence | discriminate].
Qed.

Lemma no_sep_endswith (n : string) :
  str.has_sep n = false -> str.endswith_sep n = false.
Proof.
  induction n as [|c n IH]; [reflexivity|]. simpl.
  intros H. apply orb_false_iff in H as [Hc Hn].
  destruct n; [exact Hc | now apply IH].
Qed.

Lemma path_below_endswith (q : list string) :
  Forall (fun n => proper_name n = true) q ->
  str.endswith_sep (path_below q) = false.
Proof.
  intros H. destruct q as [|k q] using rev_ind; [reflexivity|].
  apply Forall_app in H as [_ H]. inversion H as [|? ? Hk _]; subst.
  apply proper_name_inv in Hk as (Hne & _ & _ & Hs).
  rewrite path_below_app, <- append_assoc.
  rewrite endswith_sep_app by exact Hne. now apply no_sep_endswith.
Qed.

Lemma path_of_trimmed (q : list string) :
  Forall (fun n => proper_name n = true) q -> trimmed (path_of q) = true.
Proof.
  intros H. destruct q as [|k q]; [reflexivity|].
  unfold trimmed, path_of. rewrite (path_below_endswith _ H).
  apply orb_true_r.
Qed.

Lemma path_of_not_empty (q : list string) : path_of q <> "".
Proof. destruct q; discriminate. Qed.

Lemma path_of_abs (q : list string) : posixpath.isabs (path_of q) = true.
Proof. destruct q; reflexivity. Qed.

Lemma join_path_of (q : list string) (n : string) :
  Forall (fun n => proper_name n = true) q -> str.has_sep n = false ->
  posixpath.join (path_of q) n = path_of (q ++ [n]).
Proof.
  intros Hq Hn. unfold posixpath.join. rewrite (no_sep_not_abs _ Hn).
  destruct q as [|k q]; [simpl; now rewrite append_nil_r|].
  assert (E : path_of ((k :: q) ++ [n]) = path_below ((k :: q) ++ [n]))
    by reflexivity.
  rewrite E, path_below_app. unfold path_of.
  rewrite (path_below_endswith _ Hq). reflexivity.
Qed.

Lemma split_path_of (q : list string) (n : string) :
  Forall (fun n => proper_name n = true) q -> str.has_sep n = false ->
  posixpath.split (path_of (q ++ [n])) = (path_of q, n).
Proof.
  intros Hq Hn. rewrite <- (join_path_of q n Hq Hn).
  apply split_join_name; [now apply path_of_trimmed | exact Hn].
Qed.

Lemma split_sep_no_sep (n r w : string) (ws : list string) :
  str.has_sep n = false ->
  str.split_sep r = w :: ws ->
  str.split_sep (n ++ r) = (n ++ w) :: ws.
Proof.
  intros H Hr. induction n as [|c n IH]; simpl in *; [exact Hr|].
  apply orb_false_iff in H as [Hc Hn]. now rewrite (IH Hn), Hc.
Qed.

Lemma split_sep_path_below (q : list string) :
  Forall (fun n => proper_name n = true) q -> q <> [] ->
  str.split_sep (path_below q) = "" :: q.
Proof.
  induction q as [|k q IH]; [congruence|]. intros H _.
  inversion H as [|? ? Hk Hq]; subst.
  apply proper_name_inv in Hk as (_ & _ & _ & Hs).
  change (path_below (k :: q)) with (String "/" (k ++ path_below q)).
  cbn [str.split_sep]. destruct q as [|k' q].
  - change (path_below []) with "".
    rewrite (split_sep_no_sep k "" "" [] Hs eq_refl). simpl.
    now rewrite append_nil_r.
  - rewrite (split_sep_no_sep k _ "" (k' :: q) Hs)
      by (apply IH; [assumption | discriminate]).
    simpl. now rewrite append_nil_r.
Qed.

Lemma look_root (r : fs.entries) : fs.look r [] = Some fs.KDir.
Proof. reflexivity. Qed.

(** A canonical path is resolved from the root, name by name. *)
Lemma resolve_path_of (s : fs.state) (fl : bool) (q : list string) :
  Forall (fun n => proper_name n = true) q ->
  fs.resolve s fl (path_of q)
  = fs.walk fs.MAXSYMLINKS (fs.look (fs.root s)) fl [] q.
Proof.
  intros Hq. unfold fs.resolve.
  destruct (String.eqb_spec (path_of q) "") as [E|_];
    [now destruct (path_of_not_empty q)|].
  rewrite path_of_abs. destruct q as [|k q].
  - change ([] ++ str.split_sep (path_of []))%list with [""; ""].
    now rewrite !walk_cons, look_root.
  - unfold path_of. rewrite split_sep_path_below by (assumption || discriminate).
    change ([] ++ "" :: k :: q)%list with ("" :: k :: q).
    now rewrite walk_cons, look_root.
Qed.

(** Through directories the walk goes down name by name. *)
Lemma walk_descend lk (fl : bool) (b : nat) (m : list string) :
  Forall (fun n => proper_name n = true) m ->
  forall cur rest,
    (forall m1 m2, m = (m1 ++ m2)%list -> lk (cur ++ m1)%list = Some fs.KDir) ->
    fs.walk b lk fl cur (m ++ rest)%list = fs.walk b lk fl (cur ++ m)%list rest.
Proof.
  induction 1 as [|n m Hn Hm IH]; intros cur rest Hd.
  - now rewrite app_nil_r.
  - simpl. rewrite walk_cons.
    pose proof (Hd [] (n :: m) eq_refl) as H0. rewrite app_nil_r in H0.
    rewrite H0. destruct (proper_name_walks n Hn) as [-> ->].
    rewrite (Hd [n] m eq_refl).
    rewrite IH.
    + now rewrite <- app_assoc.
    + intros m1 m2 E. rewrite <- app_assoc. apply (Hd (n :: m1) m2).
      simpl. now f_equal.
Qed.

Lemma find_prefix_dir (p1 p2 : list string) (n : fs.node) (es : fs.entries) :
  fs.find (p1 ++ p2) n = Some (fs.Dir es) ->
  exists es1, fs.find p1 n = Some (fs.Dir es1).
Proof.
  rewrite find_app. destruct (fs.find p1 n) as [c|]; [|discriminate].
  destruct p2 as [|k p2]; simpl.
  - intros E. injection E as ->. eauto.
  - destruct c as [?|?|es1]; try discriminate. eauto.
Qed.

Lemma look_dir (r : fs.entries) (q : list string) :
  fs.look r q = Some fs.KDir <-> exists es, fs.find q (fs.Dir r) = Some (fs.Dir es).
Proof.
  unfold fs.look. split.
  - destruct (fs.find q (fs.Dir r)) as [[?|?|es]|]; try discriminate. eauto.
  - intros [es ->]. reflexivity.
Qed.

(** Below an existing directory, resolution starts at that directory. *)
Lemma resolve_below (s : fs.state) (fl : bool) (q m : list string) :
  Forall (fun n => proper_name n = true) q ->
  Forall (fun n => proper_name n = true) m ->
  fs.look (fs.root s) q = Some fs.KDir ->
  fs.resolve s fl (path_of (q ++ m))
  = fs.walk fs.MAXSYMLINKS (fs.look (fs.root s)) fl q m.
Proof.
  intros Hq Hm Hd. rewrite resolve_path_of by now apply Forall_app.
  apply (walk_descend _ fl _ q Hq [] m).
  intros m1 m2 E. simpl. apply look_dir in Hd as [es Hd]. subst q.
  apply find_prefix_dir in Hd as [es1 Hd]. apply look_dir. eauto.
Qed.

(* ------------------------------------------------------------------ *)
(** ** The effect of the disk operations on [look] *)

Lemma is_below_dec (q p : list string) : {is_below q p} + {~ is_below q p}.
Proof.
  revert p. induction q as [|k q IH]; intros p.
  - left. now exists p.
  - destruct p as [|k' p].
    + right. intros [t Ht]. discriminate.
    + destruct (string_dec k k') as [->|Hk].
      * destruct (IH p) as [Hb|Hb].
        -- left. destruct Hb as [t ->]. now exists t.
        -- right. intros [t Ht]. injection Ht as ->. apply Hb. now exists t.
      * right. intros [t Ht]. injection Ht as -> _. now apply Hk.
Qed.

Lemma find_entry (par : list string) (name : string) (n : fs.node) (es : fs.entries) :
  fs.find par n = Some (fs.Dir es) ->
  fs.find (par ++ [name]) n = fs.assoc name es.
Proof.
  intros H. rewrite find_app, H. simpl. now destruct (fs.assoc name es).
Qed.

Lemma childless_find (c : fs.node) (k : string) (t : list string) :
  childless c -> fs.find (k :: t) c = None.
Proof. destruct c as [?|?|es]; simpl; try reflexivity. now intros ->. Qed.

Lemma look_create_entry (s : fs.state) (par : list string) (name : string)
  (c : fs.node) (es : fs.entries) :
  fs.find par (fs.Dir (fs.root s)) = Some (fs.Dir es) ->
  fs.assoc name es = None ->
  childless c ->
  fs.find (par ++ [name]) (fs.Dir (fs.root (os.create_entry par name c s))) = Some c
  /\ (forall p, p <> (par ++ [name])%list ->
        fs.look (fs.root (os.create_entry par name c s)) p = fs.look (fs.root s) p)
  /\ fs.cwd (os.create_entry par name c s) = fs.cwd s.
Proof.
  intros Hpar Hname Hc. unfold os.create_entry.
  destruct (alter_root_look par (fun es => es ++ [(name, c)])%list s) as [E Hcwd].
  unfold fs.look. rewrite <- E. split; [|split; [|exact Hcwd]].
  - rewrite (find_alter_at_below _ _ _ _ _ Hpar). simpl.
    rewrite (assoc_app_absent _ _ _ _ Hname), String.eqb_refl. reflexivity.
  - intros p Hp. destruct (is_below_dec par p) as [[t ->]|Hb].
    + rewrite (find_alter_at_below _ _ _ _ _ Hpar), find_app, Hpar.
      destruct t as [|k t]; [reflexivity|]. simpl.
      rewrite (assoc_app_absent _ _ _ _ Hname).
      destruct (String.eqb_spec k name) as [->|Hk]; [|reflexivity].
      rewrite Hname. destruct t as [|k' t]; [congruence|].
      now rewrite (childless_find _ _ _ Hc).
    + now apply find_alter_at_other.
Qed.

Lemma look_remove_entry (s : fs.state) (par : list string) (name : string)
  (es : fs.entries) :
  fs.find par (fs.Dir (fs.root s)) = Some (fs.Dir es) ->
  (forall p, is_below (par ++ [name]) p ->
     fs.look (fs.root (fs.alter_root par (fs.remove_key name) s)) p = None)
  /\ (forall p, ~ is_below (par ++ [name]) p ->
        fs.look (fs.root (fs.alter_root par (fs.remove_key name) s)) p
        = fs.look (fs.root s) p)
  /\ fs.cwd (fs.alter_root par (fs.remove_key name) s) = fs.cwd s.
Proof.
  intros Hpar.
  destruct (alter_root_look par (fs.remove_key name) s) as [E Hcwd].
  unfold fs.look. rewrite <- E. split; [|split; [|exact Hcwd]].
  - intros p [t ->]. rewrite <- app_assoc.
    rewrite (find_alter_at_below _ _ _ _ _ Hpar). simpl.
    now rewrite assoc_remove_key, String.eqb_refl.
  - intros p Hp. destruct (is_below_dec par p) as [[t ->]|Hb].
    + rewrite (find_alter_at_below _ _ _ _ _ Hpar), find_app, Hpar.
      destruct t as [|k t]; [reflexivity|]. simpl.
      rewrite assoc_remove_key.
      destruct (String.eqb_spec k name) as [->|Hk]; [|reflexivity].
      exfalso. apply Hp. exists t. now rewrite <- app_assoc.
    + now apply find_alter_at_other.
Qed.

Lemma look_put_file (s : fs.state) (par : list string) (name : string)
  (es : fs.entries) (c0 c' : string) :
  fs.find par (fs.Dir (fs.root s)) = Some (fs.Dir es) ->
  fs.assoc name es = Some (fs.File c0) ->
  fs.find (par ++ [name])
    (fs.Dir (fs.root (fs.alter_root par (fs.put name (fs.File c')) s)))
  = Some (fs.File c')
  /\ (forall p,
        fs.look (fs.root (fs.alter_root par (fs.put name (fs.File c')) s)) p
        = fs.look (fs.root s) p)
  /\ fs.cwd (fs.alter_root par (fs.put name (fs.File c')) s) = fs.cwd s.
Proof.
  intros Hpar Hname.
  destruct (alter_root_look par (fs.put name (fs.File c')) s) as [E Hcwd].
  unfold fs.look. rewrite <- E. split; [|split; [|exact Hcwd]].
  - rewrite (find_alter_at_below _ _ _ _ _ Hpar). simpl.
    now rewrite assoc_put, String.eqb_refl.
  - intros p. destruct (is_below_dec par p) as [[t ->]|Hb].
    + rewrite (find_alter_at_below _ _ _ _ _ Hpar), find_app, Hpar.
      destruct t as [|k t]; [reflexivity|]. simpl. rewrite assoc_put.
      destruct (String.eqb_spec k name) as [->|Hk]; [|reflexivity].
      rewrite Hname. now destruct t.
    + now apply find_alter_at_other.
Qed.

(** What [Absent] tells about the tree. *)
Lemma resolve_absent (s : fs.state) (fl : bool) (path : string)
  (par : list string) (name : string) :
  fs.resolve s fl path = fs.Absent par name ->
  exists es, fs.find par (fs.Dir (fs.root s)) = Some (fs.Dir es)
             /\ fs.assoc name es = None.
Proof.
  unfold fs.resolve. destruct (String.eqb path ""); [discriminate|].
  intros H. apply walk_absent in H as [Hd Hn].
  apply look_dir in Hd as [es Hd]. exists es. split; [exact Hd|].
  unfold fs.look in Hn. rewrite (find_entry _ _ _ _ Hd) in Hn.
  now destruct (fs.assoc name es).
Qed.

(** Creating the missing last component of a path makes the path
    resolve to the new node. *)
Lemma resolve_created (s : fs.state) (fl fl' : bool) (path : string)
  (par : list string) (name : string) (c : fs.node) :
  fs.resolve s fl path = fs.Absent par name ->
  childless c -> (forall t, c <> fs.Symlink t) -> (fl = true -> fl' = true) ->
  fs.resolve (os.create_entry par name c s) fl' path
  = fs.Found (par ++ [name]) (fs.kind_of c)
  /\ fs.find (par ++ [name]) (fs.Dir (fs.root (os.create_entry par name c s)))
     = Some c.
Proof.
  intros H Hc Hl Hfl.
  destruct (resolve_absent _ _ _ _ _ H) as (es & Hpar & Hname).
  destruct (look_create_entry s par name c es Hpar Hname Hc) as (Hnew & Hold & Hcwd).
  split; [|exact Hnew].
  unfold fs.resolve in *. destruct (String.eqb path ""); [discriminate|].
  rewrite Hcwd.
  apply (walk_created (fs.look (fs.root s)) _ fl fl' par name (fs.kind_of c));
    try assumption.
  - unfold fs.look. now rewrite Hnew.
  - intros t E. destruct c; try discriminate. now apply (Hl target).
Qed.

(* ------------------------------------------------------------------ *)
(** ** [os.mkdir], [os.makedirs], [shutil.rmtree], [shutil.copyfile] *)

Lemma mkdir_ok (path : string) (s s' : fs.state) :
  os.mkdir path s = (inr tt, s') ->
  exists q,
    (forall fl, fs.resolve s' fl path = fs.Found q fs.KDir)
    /\ fs.find q (fs.Dir (fs.root s')) = Some (fs.Dir []).
Proof.
  unfold os.mkdir. destruct (fs.resolve s false path) as [| par name |] eqn:H;
    try discriminate.
  intros E. injection E as <-. exists (par ++ [name])%list.
  split.
  - intros fl. apply (resolve_created s false fl path par name (fs.Dir []) H);
      [reflexivity | discriminate | discriminate].
  - apply (resolve_created s false true path par name (fs.Dir []) H);
      [reflexivity | discriminate | discriminate].
Qed.

Lemma mkdir_makes_dir (path : string) (s s' : fs.state) :
  os.mkdir path s = (inr tt, s') ->
  os.path_exists path s' = true
  /\ os.path_isdir path s' = true
  /\ os.listdir path s' = (inr [], s').
Proof.
  intros H. apply mkdir_ok in H as (q & Hr & Hf).
  unfold os.path_exists, os.path_isdir, os.listdir.
  now rewrite (Hr true), Hf.
Qed.

(** The last component as [makedirs] takes it. *)
Lemma makedirs_rec_ok (fuel : nat) (name : string) (s s' : fs.state) :
  trimmed name = true -> posixpath.basename name <> "." ->
  os.makedirs_rec fuel name s = (inr tt, s') ->
  exists s1, os.mkdir name s1 = (inr tt, s').
Proof.
  intros Ht Hb H.
  assert (Htail : forall head tail,
             (if String.eqb (snd (posixpath.split name)) ""
              then posixpath.split (fst (posixpath.split name))
              else posixpath.split name) = (head, tail) ->
             String.eqb tail "." = false).
  { intros head tail E. apply String.eqb_neq. intros ->.
    unfold posixpath.basename in Hb.
    change (snd (posixpath.split name)) with (str.after_last_sep name) in E.
    destruct (String.eqb_spec (str.after_last_sep name) "") as [E0|E0].
    - (* the name ends with a separator: it is made of separators *)
      assert (Hall : str.all_sep name = true).
      { unfold trimmed in Ht. apply orb_true_iff in Ht as [Ht|Ht]; [exact Ht|].
        apply negb_true_iff in Ht.
        destruct name as [|c name]; [reflexivity|].
        exfalso. clear - E0 Ht.
        revert c E0 Ht. induction name as [|d name IH]; intros c E0 Ht.
        - simpl in *. destruct (str.is_sep c); discriminate.
        - change (str.endswith_sep (String c (String d name)))
            with (str.endswith_sep (String d name)) in Ht.
          cbn [str.after_last_sep] in E0.
          destruct (str.has_sep (String d name)) eqn:Hs.
          + now apply (IH d).
          + destruct (str.is_sep c); discriminate. }
      assert (Hup : str.upto_last_sep name = name).
      { clear - Hall. induction name as [|c name IH]; [reflexivity|].
        simpl in *. apply andb_true_iff in Hall as [Hc Hall].
        rewrite Hc, (IH Hall). destruct name as [|d name]; [reflexivity|].
        simpl in Hall. apply andb_true_iff in Hall as [Hd _].
        simpl. now rewrite Hd. }
      unfold posixpath.split in E. simpl in E. rewrite Hup, Hall in E.
      rewrite andb_false_r in E. rewrite Hup in E.
      injection E as _ E. congruence.
    - unfold posixpath.split in E. simpl in E. injection E as _ E. congruence. }
  destruct fuel as [|fuel]; cbn [os.makedirs_rec] in H.
  - destruct (posixpath.split name) as [head tail] eqn:E1.
    specialize (Htail). simpl in Htail.
    destruct (if String.eqb tail "" then posixpath.split head else (head, tail))
      as [head' tail'] eqn:E2.
    destruct (negb (String.eqb head' "") && negb (String.eqb tail' "")
              && negb (os.path_exists head' s)); [discriminate|]. eauto.
  - destruct (posixpath.split name) as [head tail] eqn:E1.
    simpl in Htail.
    destruct (if String.eqb tail "" then posixpath.split head else (head, tail))
      as [head' tail'] eqn:E2.
    rewrite (Htail _ _ eq_refl) in H.
    destruct (negb (String.eqb head' "") && negb (String.eqb tail' "")
              && negb (os.path_exists head' s)); [|eauto].
    destruct (os.makedirs_rec fuel head' s) as [[e|u] s1].
    + destruct e as [| |[[]|] ?| |]; try discriminate. eauto.
    + eauto.
Qed.

Lemma app_removelast_last_str (q : list string) :
  q <> [] -> q = (removelast q ++ [last q ""])%list.
Proof. apply app_removelast_last. Qed.

Lemma resolve_found_dir (s : fs.state) (fl : bool) (path : string)
  (q : list string) (k : fs.kind) :
  fs.resolve s fl path = fs.Found q k -> fs.look (fs.root s) q = Some k.
Proof.
  unfold fs.resolve. destruct (String.eqb path ""); [discriminate|].
  generalize ((if posixpath.isabs path then [] else str.split_sep (fs.cwd s))
                ++ str.split_sep path)%list.
  generalize (@nil string) as cur. generalize fs.MAXSYMLINKS as b.
  intros b cur segs. revert b cur segs.
  apply (walk_ind (fun b cur segs =>
    fs.walk b (fs.look (fs.root s)) fl cur segs = fs.Found q k ->
    fs.look (fs.root s) q = Some k)).
  - intros b cur. rewrite walk_nil.
    destruct (fs.look (fs.root s) cur) eqn:E; [|discriminate].
    intros H. injection H as <- <-. exact E.
  - intros b cur seg rest IH1 IH2 IH3 IH4. rewrite walk_cons.
    destruct (fs.look (fs.root s) cur) as [[| |]|]; try discriminate.
    destruct (String.eqb seg "" || String.eqb seg "."); [exact IH1|].
    destruct (String.eqb seg ".."); [exact IH2|].
    destruct (fs.look (fs.root s) (cur ++ [seg])%list) as [[|target|]|] eqn:Hn;
      try exact IH3.
    + destruct (fl || negb match rest with [] => true | _ => false end).
      * destruct b as [|b']; [discriminate|].
        destruct (String.eqb target ""); [discriminate|]. now apply IH4.
      * intros H. injection H as <- <-. exact Hn.
    + destruct rest; discriminate.
Qed.

Lemma rmtree_ok (path : string) (s s' : fs.state) :
  shutil.rmtree path s = (inr tt, s') -> os.path_exists path s' = false.
Proof.
  unfold shutil.rmtree. destruct (os.path_islink path s); [discriminate|].
  destruct (fs.resolve s true path) as [q k| |] eqn:H; try discriminate.
  destruct k; try discriminate.
  destruct q as [|k0 q0] eqn:Eq; [discriminate|].
  rewrite <- Eq in *. assert (Hne : q <> []) by (subst q; discriminate).
  clear Eq. intros E. injection E as <-.
  pose proof (resolve_found_dir _ _ _ _ _ H) as Hd.
  apply look_dir in Hd as [es Hd].
  rewrite (app_removelast_last_str q Hne) in Hd.
  apply find_prefix_dir in Hd as [es1 Hpar].
  destruct (look_remove_entry s (removelast q) (last q "") es1 Hpar)
    as (Hgone & Hold & Hcwd).
  rewrite <- (app_removelast_last_str q Hne) in Hgone, Hold.
  unfold os.path_exists.
  set (s1 := fs.alter_root (removelast q) (fs.remove_key (last q "")) s) in *.
  destruct (fs.resolve s1 true path) as [q' k'| |] eqn:H'; try reflexivity.
  exfalso. unfold fs.resolve in H, H'.
  destruct (String.eqb path ""); [discriminate|].
  rewrite Hcwd in H'.
  exact (walk_removed _ _ true q Hgone Hold _ _ _ _ H _ _ H').
Qed.

Lemma write_file_ok (path content : string) (s s' : fs.state) :
  shutil.write_file path content s = (inr tt, s') ->
  shutil.read_file path s' = (inr content, s').
Proof.
  unfold shutil.write_file, shutil.read_file.
  destruct (fs.resolve s true path) as [q k|par name|] eqn:H; try discriminate.
  - destruct k; try discriminate. intros E. injection E as <-.
    pose proof (resolve_found_dir _ _ _ _ _ H) as Hk.
    assert (Hne : q <> []) by (intros ->; discriminate).
    unfold fs.look in Hk.
    destruct (fs.find q (fs.Dir (fs.root s))) as [[c0|?|?]|] eqn:Hf;
      try discriminate.
    rewrite (app_removelast_last_str q Hne) in Hf.
    pose proof Hf as Hf'. rewrite find_app in Hf'.
    destruct (fs.find (removelast q) (fs.Dir (fs.root s))) as [c|] eqn:Hpar;
      [|discriminate].
    destruct c as [?|?|es]; try discriminate.
    rewrite (find_entry _ _ _ _ Hpar) in Hf.
    destruct (look_put_file s (removelast q) (last q "") es c0 content Hpar Hf)
      as (Hnew & Hsame & Hcwd).
    rewrite <- (app_removelast_last_str q Hne) in Hnew.
    assert (H' : fs.resolve (fs.alter_root (removelast q)
                               (fs.put (last q "") (fs.File content)) s) true path
                 = fs.Found q fs.KFile).
    { unfold fs.resolve in *. destruct (String.eqb path ""); [discriminate|].
      rewrite Hcwd. rewrite (walk_ext _ _ true Hsame). exact H. }
    now rewrite H', Hnew.
  - intros E. injection E as <-.
    destruct (resolve_created s true true path par name (fs.File content) H)
      as [H' Hnew]; [exact I | discriminate | auto |].
    simpl in H'. now rewrite H', Hnew.
Qed.

(* ------------------------------------------------------------------ *)
(** ** [realpath] on a disk without symbolic links *)

Lemma split_sep_comps_no_sep (x : string) :
  Forall (fun c => str.has_sep c = false) (str.split_sep x).
Proof.
  induction x as [|c x IH]; simpl; [repeat constructor|].
  destruct (str.split_sep x) as [|w ws]; [repeat constructor|].
  inversion IH as [|? ? Hw Hws]; subst.
  destruct (str.is_sep c) eqn:Hc.
  - repeat constructor; assumption.
  - constructor; [|assumption]. simpl. now rewrite Hc, Hw.
Qed.

Lemma no_sep_proper (n : string) :
  str.has_sep n = false ->
  String.eqb n "" || String.eqb n "." = false ->
  String.eqb n ".." = false ->
  proper_name n = true.
Proof.
  intros Hs H1 H2. apply orb_false_iff in H1 as [H0 H1].
  unfold proper_name. now rewrite H0, H1, H2, Hs.
Qed.

(** From a canonical path the loop of [_joinrealpath] reaches a
    canonical path. *)
Lemma joinrealpath_canonical (names : list string) :
  Forall (fun c => str.has_sep c = false) names ->
  forall acc,
    Forall (fun n => proper_name n = true) acc ->
    canonical (joinrealpath_nolinks names (path_of acc)).
Proof.
  induction 1 as [|name names Hn Hnames IH]; intros acc Hacc;
    cbn [joinrealpath_nolinks].
  - now exists acc.
  - destruct (String.eqb name "" || String.eqb name ".") eqn:E1; [now apply IH|].
    destruct (String.eqb name "..") eqn:E2.
    + destruct (String.eqb_spec (path_of acc) "") as [E|_];
        [now destruct (path_of_not_empty acc)|]. cbn [negb].
      destruct acc as [|k acc] using rev_ind.
      * change (posixpath.split (path_of [])) with ("/", "").
        cbv beta iota. change (String.eqb "" "..") with false. cbv iota.
        apply (IH [] Hacc).
      * clear IHacc. apply Forall_app in Hacc as [Hacc Hk].
        inversion Hk as [|? ? Hk' _]; subst.
        pose proof (proper_name_inv k Hk') as (_ & _ & Hdd & Hs).
        rewrite (split_path_of acc k Hacc Hs).
        apply String.eqb_neq in Hdd. rewrite Hdd. now apply IH.
    + pose proof (no_sep_proper name Hn E1 E2) as Hp.
      rewrite (join_path_of acc name Hacc Hn). apply IH.
      apply Forall_app. split; [assumption | now constructor].
Qed.

(** Over names that are entries it appends them. *)
Lemma joinrealpath_proper (names : list string) :
  Forall (fun n => proper_name n = true) names ->
  forall acc,
    Forall (fun n => proper_name n = true) acc ->
    joinrealpath_nolinks names (path_of acc) = path_of (acc ++ names).
Proof.
  induction 1 as [|name names Hn Hnames IH]; intros acc Hacc;
    cbn [joinrealpath_nolinks].
  - now rewrite app_nil_r.
  - destruct (proper_name_walks name Hn) as [-> ->].
    pose proof (proper_name_inv name Hn) as (_ & _ & _ & Hs).
    rewrite (join_path_of acc name Hacc Hs), IH.
    + now rewrite <- app_assoc.
    + apply Forall_app. split; [assumption | now constructor].
Qed.

Lemma normpath_comps_proper (i : nat) (names : list string) :
  Forall (fun n => proper_name n = true) names ->
  forall acc, posixpath.normpath_comps i names acc = (rev acc ++ names)%list.
Proof.
  induction 1 as [|name names Hn Hnames IH]; intros acc; simpl.
  - now rewrite app_nil_r.
  - destruct (proper_name_walks name Hn) as [-> ->]. simpl.
    rewrite IH. simpl. now rewrite <- app_assoc.
Qed.

(** The loop of [normpath] on an absolute path keeps entries only. *)
Lemma normpath_comps_canonical (names : list string) :
  Forall (fun c => str.has_sep c = false) names ->
  forall acc,
    Forall (fun n => proper_name n = true) acc ->
    Forall (fun n => proper_name n = true) (posixpath.normpath_comps 1 names acc).
Proof.
  induction 1 as [|name names Hn Hnames IH]; intros acc Hacc; simpl.
  - now apply Forall_rev.
  - destruct (String.eqb name "" || String.eqb name ".") eqn:E1; [now apply IH|].
    destruct (String.eqb name "..") eqn:E2; simpl.
    + destruct acc as [|k acc]; simpl.
      * now apply IH.
      * inversion Hacc as [|? ? Hk Hacc']; subst.
        pose proof (proper_name_inv k Hk) as (_ & _ & Hdd & _).
        apply String.eqb_neq in Hdd. rewrite Hdd. now apply IH.
    + apply IH. constructor; [|assumption]. now apply no_sep_proper.
Qed.

Lemma join_sep_path_below (q : list string) :
  q <> [] -> String "/" (str.join_sep q) = path_below q.
Proof.
  induction q as [|k q IH]; [congruence|]. intros _.
  destruct q as [|k' q].
  - simpl. now rewrite append_nil_r.
  - change (str.join_sep (k :: k' :: q))
      with (k ++ String str.sep (str.join_sep (k' :: q))).
    change (path_below (k :: k' :: q)) with ("/" ++ k ++ path_below (k' :: q)).
    rewrite <- IH by discriminate. reflexivity.
Qed.

Lemma slash_join_sep (q : list string) :
  posixpath.slashes 1 ++ str.join_sep q = path_of q.
Proof.
  destruct q as [|k q]; [reflexivity|].
  unfold path_of. rewrite <- join_sep_path_below by discriminate. reflexivity.
Qed.

(** From an absolute path with one leading separator [normpath] gives a
    canonical path. *)
Lemma normpath_canonical (path : string) :
  posixpath.initial_slashes_of path = 1 ->
  canonical (posixpath.normpath path).
Proof.
  intros Hi. unfold posixpath.normpath.
  destruct (String.eqb_spec path "") as [->|_]; [discriminate|].
  rewrite Hi, slash_join_sep.
  destruct (String.eqb_spec (path_of (posixpath.normpath_comps 1 (str.split_sep path) [])) "")
    as [E|_]; [now destruct (path_of_not_empty _ E)|].
  eexists. split; [|reflexivity].
  apply normpath_comps_canonical; [apply split_sep_comps_no_sep | constructor].
Qed.

Lemma initial_slashes_one (c : ascii) (rest : string) :
  str.is_sep c = false ->
  posixpath.initial_slashes_of (String "/" (String c rest)) = 1.
Proof. intros Hc. destruct rest; simpl; now rewrite Hc. Qed.

Lemma path_of_initial_slashes (q : list string) (x : string) :
  Forall (fun n => proper_name n = true) q -> q <> [] ->
  posixpath.initial_slashes_of (path_of q ++ x) = 1.
Proof.
  intros Hq Hne. destruct q as [|k q]; [congruence|].
  inversion Hq as [|? ? Hk _]; subst.
  pose proof (proper_name_inv k Hk) as (Hk0 & _ & _ & Hs).
  destruct k as [|c k]; [congruence|]. simpl in Hs.
  apply orb_false_iff in Hs as [Hc _].
  unfold path_of. simpl. now apply initial_slashes_one.
Qed.

(** A canonical path is left as it is. *)
Lemma normpath_path_of (q : list string) :
  Forall (fun n => proper_name n = true) q ->
  posixpath.normpath (path_of q) = path_of q.
Proof.
  intros Hq. destruct q as [|k q]; [reflexivity|].
  unfold posixpath.normpath.
  destruct (String.eqb_spec (path_of (k :: q)) "") as [E|_]; [discriminate|].
  assert (Hi : posixpath.initial_slashes_of (path_of (k :: q)) = 1).
  { rewrite <- (append_nil_r (path_of (k :: q))).
    apply path_of_initial_slashes; [assumption | discriminate]. }
  assert (Hsp : str.split_sep (path_of (k :: q)) = "" :: k :: q)
    by (apply split_sep_path_below; [assumption | discriminate]).
  rewrite !Hi, !Hsp.
  change (posixpath.normpath_comps 1 ("" :: k :: q) [])
    with (posixpath.normpath_comps 1 (k :: q) []).
  rewrite (normpath_comps_proper 1 (k :: q) Hq []). cbn [rev app].
  rewrite slash_join_sep.
  destruct (String.eqb_spec (path_of (k :: q)) "") as [E|_]; [discriminate|].
  reflexivity.
Qed.

Lemma joinrealpath_top_path_of (q : list string) :
  Forall (fun n => proper_name n = true) q ->
  joinrealpath_top (path_of q) = path_of q.
Proof.
  intros Hq. destruct q as [|k q]; [reflexivity|].
  assert (Hs : str.split_sep (k ++ path_below q) = k :: q).
  { pose proof (split_sep_path_below (k :: q) Hq ltac:(discriminate)) as H.
    change (path_below (k :: q)) with (String "/" (k ++ path_below q)) in H.
    cbn [str.split_sep] in H.
    destruct (str.split_sep (k ++ path_below q)); [discriminate|].
    change (str.is_sep "/") with true in H. cbv iota in H.
    now injection H as -> ->. }
  change (path_of (k :: q)) with (String "/" (k ++ path_below q)) at 1.
  unfold joinrealpath_top. change (str.is_sep "/") with true. cbv iota.
  rewrite Hs.
  apply (joinrealpath_proper (k :: q) Hq []). constructor.
Qed.

Lemma realpath_nolinks_path_of (s : fs.state) (q : list string) :
  Forall (fun n => proper_name n = true) q ->
  realpath_nolinks s (path_of q) = path_of q.
Proof.
  intros Hq. unfold realpath_nolinks, posixpath.abspath.
  rewrite (joinrealpath_top_path_of q Hq), path_of_abs.
  now apply normpath_path_of.
Qed.

Lemma join_relative (a b : string) :
  str.startswith_sep a = false -> str.startswith_sep b = false ->
  str.startswith_sep (posixpath.join a b) = false.
Proof.
  intros Ha Hb. unfold posixpath.join. rewrite Hb.
  destruct a as [|c a]; [exact Hb|]. simpl in Ha.
  destruct (String.eqb (String c a) "" || str.endswith_sep (String c a)); exact Ha.
Qed.

Lemma split_head_relative (p : string) :
  str.startswith_sep p = false ->
  str.startswith_sep (fst (posixpath.split p)) = false.
Proof.
  intros Hp. unfold posixpath.split. simpl.
  assert (Hu : str.startswith_sep (str.upto_last_sep p) = false).
  { destruct p as [|c p]; [reflexivity|]. simpl in *.
    destruct (str.has_sep p); [exact Hp|]. now rewrite Hp. }
  destruct (negb (String.eqb (str.upto_last_sep p) "")
            && negb (str.all_sep (str.upto_last_sep p))); [|exact Hu].
  destruct (str.upto_last_sep p) as [|c u]; [reflexivity|].
  cbn [str.rstrip_sep]. destruct (str.all_sep (String c u)); [reflexivity | exact Hu].
Qed.

Lemma joinrealpath_relative (names : list string) :
  Forall (fun c => str.has_sep c = false) names ->
  forall path,
    str.startswith_sep path = false ->
    str.startswith_sep (joinrealpath_nolinks names path) = false.
Proof.
  induction 1 as [|name names Hn Hnames IH]; intros path Hp;
    cbn [joinrealpath_nolinks]; [exact Hp|].
  destruct (String.eqb name "" || String.eqb name "."); [now apply IH|].
  destruct (String.eqb name "..").
  - destruct (negb (String.eqb path "")); [|now apply IH].
    pose proof (split_head_relative path Hp) as Hh.
    destruct (posixpath.split path) as [path' name']. simpl in Hh.
    apply IH. destruct (String.eqb name' ".."); [|exact Hh].
    now repeat apply join_relative.
  - apply IH. apply join_relative; [exact Hp | now apply no_sep_not_abs].
Qed.

(** With a canonical working directory, [realpath] on a disk without
    links returns a canonical path. *)
Lemma realpath_nolinks_canonical (s : fs.state) (filename : string) :
  canonical (fs.cwd s) -> canonical (realpath_nolinks s filename).
Proof.
  intros (q & Hq & Hcwd). unfold realpath_nolinks, posixpath.abspath.
  assert (Hx : canonical (joinrealpath_top filename)
               \/ str.startswith_sep (joinrealpath_top filename) = false).
  { unfold joinrealpath_top. destruct filename as [|c rest]; [now right|].
    destruct (str.is_sep c).
    - left. apply (joinrealpath_canonical _ (split_sep_comps_no_sep rest) []).
      constructor.
    - right. apply joinrealpath_relative; [apply split_sep_comps_no_sep | reflexivity]. }
  destruct Hx as [(q' & Hq' & ->) | Hrel].
  - rewrite path_of_abs, (normpath_path_of q' Hq'). now exists q'.
  - unfold posixpath.isabs. rewrite Hrel. apply normpath_canonical.
    unfold posixpath.join. rewrite Hrel, Hcwd.
    destruct q as [|k q].
    + cbn. destruct (joinrealpath_top filename) as [|c x]; [reflexivity|].
      simpl in Hrel. now apply initial_slashes_one.
    + destruct (String.eqb (path_of (k :: q)) "" || str.endswith_sep (path_of (k :: q)));
        apply path_of_initial_slashes; (assumption || discriminate).
Qed.

Lemma realpath_nolinks_idempotent (s : fs.state) (filename : string) :
  canonical (fs.cwd s) ->
  realpath_nolinks s (realpath_nolinks s filename) = realpath_nolinks s filename.
Proof.
  intros Hc. destruct (realpath_nolinks_canonical s filename Hc) as (q & Hq & ->).
  now apply realpath_nolinks_path_of.
Qed.

(* ------------------------------------------------------------------ *)
(** ** [Folder.get_filename] *)

Lemma canonical_trimmed (p : string) : canonical p -> trimmed p = true.
Proof. intros (q & Hq & ->). now apply path_of_trimmed. Qed.

Lemma canonical_basename (p : string) :
  canonical p -> posixpath.basename p <> ".".
Proof.
  intros (q & Hq & ->). destruct q as [|k q] using rev_ind; [discriminate|].
  apply Forall_app in Hq as [Hq Hk]. inversion Hk as [|? ? Hk' _]; subst.
  apply proper_name_inv in Hk' as (_ & Hdot & _ & Hs).
  pose proof (split_path_of q k Hq Hs) as E.
  unfold posixpath.basename. unfold posixpath.split in E.
  injection E as _ E. now rewrite E.
Qed.

(** A name without a separator is accepted and joined to the folder. *)
Lemma get_filename_accepts (self : Folder) (filename : string) :
  trimmed (abspath self) = true -> str.has_sep filename = false ->
  get_filename self filename = inr (posixpath.join (abspath self) filename).
Proof.
  intros Ht Hn. unfold get_filename.
  rewrite (split_join_name _ _ Ht Hn), !String.eqb_refl. reflexivity.
Qed.

(** A name with a separator is refused. *)
Lemma get_filename_rejects_sep (self : Folder) (filename : string) :
  str.has_sep filename = true ->
  get_filename self filename
  = inl (ValueError ("You didn't specify a valid filename: " ++ filename)).
Proof.
  intros Hn. unfold get_filename.
  destruct (posixpath.split (posixpath.join (abspath self) filename))
    as [head tail] eqn:E.
  assert (Ht : String.eqb tail filename = false).
  { apply String.eqb_neq. intros ->. unfold posixpath.split in E.
    injection E as _ E.
    pose proof (after_last_sep_no_sep (posixpath.join (abspath self) filename)) as H.
    rewrite E in H. congruence. }
  now rewrite Ht, andb_false_r.
Qed.

(** C3 (code defect).  [get_filename] does not refuse the empty name,
    [.] or [..]: on the folder [/tmp/x] each of them is returned joined
    to the folder path, [..] naming the parent of the folder; only a
    name with a separator is refused. *)
Theorem get_filename_accepts_empty_dot_dotdot :
  get_filename sample_folder "" = inr "/tmp/x/"
  /\ get_filename sample_folder "." = inr "/tmp/x/."
  /\ get_filename sample_folder ".." = inr "/tmp/x/.."
  /\ get_filename sample_folder "report.txt" = inr "/tmp/x/report.txt"
  /\ get_filename sample_folder "a/b"
     = inl (ValueError "You didn't specify a valid filename: a/b").
Proof. repeat split; reflexivity. Qed.

(* ------------------------------------------------------------------ *)
(** ** [Folder.__init__] and [Folder.get_subfolder] *)

(** C1 (code defect).  The containment check compares characters, not
    path components: with limit [/a/b] the path [/a/b2/c], which is not
    under [/a/b], is accepted. *)
Theorem Folder_init_accepts_sibling :
  spec_contained "/a/b" "/a/b2/c" = false
  /\ Folder_init realpath_nolinks "/a/b2/c" (Some "/a/b") empty_disk
     = (inr {| abspath := "/a/b2/c"; folder_limit := "/a/b" |}, empty_disk).
Proof. split; reflexivity. Qed.

(** C2 (code defect).  [get_subfolder] inherits the check of
    [__init__]: from the folder [/a/b], limited to itself, the relative
    path [../b2] is accepted and yields a folder outside the limit. *)
Theorem get_subfolder_accepts_sibling :
  spec_contained "/a/b" "/a/b2" = false
  /\ get_subfolder realpath_nolinks
       {| abspath := "/a/b"; folder_limit := "/a/b" |} "../b2" false empty_disk
     = (inr {| abspath := "/a/b2"; folder_limit := "/a/b" |}, empty_disk).
Proof. split; reflexivity. Qed.

Section Construction.

Variable realpath : fs.state -> string -> string.

(** Without a limit the check compares [realpath] of the path with
    [realpath] of that: where the second call changes nothing, the
    folder is built, with [abspath] equal to [folder_limit]. *)
Lemma Folder_init_own_limit (s : fs.state) (path : string) :
  realpath s (realpath s path) = realpath s path ->
  Folder_init realpath path None s
  = (inr {| abspath := realpath s path; folder_limit := realpath s path |}, s).
Proof.
  intros H. unfold Folder_init.
  rewrite H, commonprefix_pair, lcp_refl, String.eqb_refl. reflexivity.
Qed.

(** A path under the limit, in the sense of strings, passes the
    check. *)
Lemma Folder_init_within (s : fs.state) (path limit : string) :
  realpath s (realpath s path) = realpath s path ->
  (exists rest, realpath s path = realpath s limit ++ rest) ->
  Folder_init realpath path (Some limit) s
  = (inr {| abspath := realpath s path; folder_limit := realpath s limit |}, s).
Proof.
  intros H [rest E]. unfold Folder_init.
  rewrite H, commonprefix_pair. rewrite E at 1.
  rewrite lcp_prefix, String.eqb_refl. reflexivity.
Qed.

(** A path of which the limit is no string prefix is refused. *)
Lemma Folder_init_outside (s : fs.state) (path limit : string) :
  (forall rest, realpath s path <> realpath s limit ++ rest) ->
  Folder_init realpath path (Some limit) s
  = (inl (ValueError
            ("The absolute path for this folder is not within the folder_limit. "
             ++ "abspath=" ++ realpath s path
             ++ ", folder_limit=" ++ realpath s limit ++ ".")),
     s).
Proof.
  intros H. unfold Folder_init. rewrite commonprefix_pair.
  destruct (String.eqb_spec (str.lcp (realpath s path) (realpath s limit))
              (realpath s limit)) as [E|E]; [|reflexivity].
  destruct (lcp_is_prefix _ _ E) as [rest Hrest]. now destruct (H rest).
Qed.

(** [get_subfolder] accepts every subfolder whose resolved path extends
    the limit, however many [..] the relative path holds, and keeps the
    limit. *)
Lemma get_subfolder_within (self : Folder) (subfolder rest : string)
  (s : fs.state) :
  let dest := realpath s (posixpath.join (abspath self) subfolder) in
  realpath s (folder_limit self) = folder_limit self ->
  realpath s dest = dest ->
  dest = folder_limit self ++ rest ->
  get_subfolder realpath self subfolder false s
  = (inr {| abspath := dest; folder_limit := folder_limit self |}, s).
Proof.
  intros dest Hl Hi Hd. unfold get_subfolder, bind, gets, ret, Folder_init.
  fold dest. rewrite Hl, !Hi, commonprefix_pair. rewrite Hd at 1.
  now rewrite lcp_prefix, String.eqb_refl.
Qed.

End Construction.

(** The walk-through of the specification: the folder [/tmp/x] with
    limit [/tmp]; the subfolder [a/../b], created; a file inserted
    under its base name; the listing of [*.txt]. *)
Example get_subfolder_end_to_end :
  exists s1 s2,
    get_subfolder realpath_nolinks sample_folder "a/../b" true sample_disk
    = (inr {| abspath := "/tmp/x/b"; folder_limit := "/tmp" |}, s1)
    /\ os.path_isdir "/tmp/x/b" s1 = true
    /\ insert_file sample_folder "/tmp/src.dat" None s1 = (inr "/tmp/x/src.dat", s2)
    /\ get_content_list fnmatch.fnmatch sample_folder "*.txt" s2
       = (inr [("report.txt", true)], s2)
    /\ exists l,
         get_content_list fnmatch.fnmatch sample_folder "*" s2 = (inr l, s2)
         /\ Permutation l [("report.txt", true); ("sub", false); ("lnk", true);
                           ("b", false); ("src.dat", true)].
Proof.
  exists (snd (get_subfolder realpath_nolinks sample_folder "a/../b" true sample_disk)).
  exists (snd (insert_file sample_folder "/tmp/src.dat" None
                 (snd (get_subfolder realpath_nolinks sample_folder "a/../b" true
                         sample_disk)))).
  repeat split; try reflexivity.
  exists [("report.txt", true); ("sub", false); ("lnk", true);
          ("b", false); ("src.dat", true)].
  split; [reflexivity | apply Permutation_refl].
Qed.

(** *** [realpath] with links, on a disk that has none *)

Lemma link_free_assoc (k : string) (es : fs.entries) (c : fs.node) :
  link_free (fs.Dir es) = true -> fs.assoc k es = Some c -> link_free c = true.
Proof.
  induction es as [|[k0 c0] es IH]; [discriminate|].
  cbn [link_free fs.assoc]. intros H Ha.
  apply andb_true_iff in H as [H0 H1].
  destruct (String.eqb k k0); [now injection Ha as <- | now apply IH].
Qed.

Lemma link_free_find (q : list string) :
  forall n c, link_free n = true -> fs.find q n = Some c -> link_free c = true.
Proof.
  induction q as [|k q IH]; intros n c Hn Hf.
  - now injection Hf as <-.
  - destruct n as [?|?|es]; try discriminate. cbn [fs.find] in Hf.
    destruct (fs.assoc k es) as [c0|] eqn:E; [|discriminate].
    apply (IH c0 c); [|exact Hf]. now apply (link_free_assoc k es).
Qed.

Lemma link_free_islink (s : fs.state) :
  link_free (fs.Dir (fs.root s)) = true ->
  forall p, os.path_islink p s = false.
Proof.
  intros H p. unfold os.path_islink.
  destruct (fs.resolve s false p) as [q [|target|]| |] eqn:Hr; try reflexivity.
  apply resolve_found_dir in Hr. unfold fs.look in Hr.
  destruct (fs.find q (fs.Dir (fs.root s))) as [c|] eqn:Hf; [|discriminate].
  pose proof (link_free_find q _ _ H Hf) as Hc.
  destruct c; try discriminate.
Qed.

(** Without links the loop of [_joinrealpath] never calls itself. *)
Lemma joinrealpath_loop_nolinks rec (s : fs.state) :
  (forall p, os.path_islink p s = false) ->
  forall names path seen,
    joinrealpath_loop rec s names path seen
    = Some (joinrealpath_nolinks names path, true, seen).
Proof.
  intros H names. induction names as [|name names IH]; intros path seen;
    [reflexivity|].
  cbn [joinrealpath_loop joinrealpath_nolinks].
  destruct (String.eqb name "" || String.eqb name "."); [apply IH|].
  destruct (String.eqb name "..").
  - destruct (negb (String.eqb path "")); [|apply IH].
    destruct (posixpath.split path). apply IH.
  - cbv zeta. rewrite H. cbn [negb]. apply IH.
Qed.

Lemma path_realpath_nolinks (s : fs.state) (filename : string) :
  link_free (fs.Dir (fs.root s)) = true ->
  path_realpath s filename = realpath_nolinks s filename.
Proof.
  intros H. pose proof (link_free_islink s H) as Hl.
  assert (E : exists k, recursion_limit = S k) by (now exists 999).
  destruct E as [k E].
  unfold path_realpath, realpath_nolinks, joinrealpath_top. rewrite E.
  cbn [joinrealpath].
  destruct filename as [|c rest]; [reflexivity|].
  destruct (str.is_sep c); now rewrite joinrealpath_loop_nolinks.
Qed.

(** On the disk where [/T/b/c] leads to [c/c], [realpath] applied to
    its own result gives something else. *)
Example path_realpath_loop :
  path_realpath loop_disk "/T/b/c" = "/T/b/c/c"
  /\ path_realpath loop_disk "/T/b/c/c" = "/T/b/c/c/c".
Proof. split; vm_compute; reflexivity. Qed.

(** C9 as it is stated fails: on a path that runs into a loop of
    symbolic links [realpath] is not idempotent, the limit, which is
    [realpath] of [realpath] of the path, is longer than the path, and
    the constructor raises the [ValueError] of its check. *)
Lemma Folder_init_default_limit_on_loop :
  ~ (forall (s : fs.state) (path : string),
       exists f,
         Folder_init path_realpath path None s = (inr f, s)
         /\ abspath f = folder_limit f).
Proof.
  intros H. destruct (H loop_disk "/T/b/c") as (f & Hf & _).
  assert (E : Folder_init path_realpath "/T/b/c" None loop_disk
              = (inl (ValueError
                        ("The absolute path for this folder is not within the folder_limit. "
                         ++ "abspath=/T/b/c/c, folder_limit=/T/b/c/c/c.")),
                 loop_disk))
    by (vm_compute; reflexivity).
  rewrite E in Hf. discriminate.
Qed.

(** C9, amended.  Without a limit the check cannot fail where
    [realpath] returns its own result unchanged: for every [realpath]
    and every such path the folder is built, with [abspath] equal to
    [folder_limit]; and so it is for every path at all on a disk
    without symbolic links. *)
Theorem Folder_init_default_limit :
  (forall (realpath : fs.state -> string -> string) (s : fs.state) (path : string),
      realpath s (realpath s path) = realpath s path ->
      Folder_init realpath path None s
      = (inr {| abspath := realpath s path; folder_limit := realpath s path |}, s))
  /\ (forall (s : fs.state) (path : string),
        canonical (fs.cwd s) ->
        Folder_init realpath_nolinks path None s
        = (inr {| abspath := realpath_nolinks s path;
                  folder_limit := realpath_nolinks s path |}, s))
  /\ (forall (s : fs.state) (path : string),
        canonical (fs.cwd s) ->
        link_free (fs.Dir (fs.root s)) = true ->
        Folder_init path_realpath path None s
        = (inr {| abspath := path_realpath s path;
                  folder_limit := path_realpath s path |}, s)).
Proof.
  split; [|split].
  - apply Folder_init_own_limit.
  - intros s path Hc. apply Folder_init_own_limit.
    now apply realpath_nolinks_idempotent.
  - intros s path Hc Hl. apply Folder_init_own_limit.
    rewrite !(path_realpath_nolinks s _ Hl).
    now apply realpath_nolinks_idempotent.
Qed.

Lemma Folder_init_default_limit_witness :
  Folder_init realpath_nolinks "../x/./y" None sample_disk
  = (inr {| abspath := "/x/y"; folder_limit := "/x/y" |}, sample_disk)
  /\ Folder_init path_realpath "tmp/../a" None empty_disk
     = (inr {| abspath := "/a"; folder_limit := "/a" |}, empty_disk).
Proof.
  split.
  - apply (proj1 (proj2 Folder_init_default_limit) sample_disk "../x/./y").
    exists []. split; [constructor | reflexivity].
  - apply (proj2 (proj2 Folder_init_default_limit) empty_disk "tmp/../a").
    + exists []. split; [constructor | reflexivity].
    + reflexivity.
Defined.

(* ------------------------------------------------------------------ *)
(** ** Guards that run before the disk is touched *)

Section Guards.

Variable copytree : string -> string -> M unit.
Variable move : string -> string -> M unit.

(** C4.  Without [overwrite], [replace_with_folder] on a folder that
    exists raises the [IOError] that says so, and the disk, source and
    destination, is as it was. *)
Theorem replace_with_folder_exists (self : Folder) (srcdir : string)
  (move_ : bool) (s : fs.state) :
  os.path_exists (abspath self) s = true ->
  replace_with_folder copytree move self srcdir move_ false s
  = (inl (IOError None ("Location " ++ abspath self
                        ++ " already exists, and overwrite is set to False")),
     s).
Proof.
  intros H. unfold replace_with_folder, bind, exists_, gets, raise.
  now rewrite H.
Qed.

End Guards.

Lemma replace_with_folder_exists_witness :
  replace_with_folder copytree_missing move_missing sample_folder "/tmp/src" false
    false sample_disk
  = (inl (IOError None "Location /tmp/x already exists, and overwrite is set to False"),
     sample_disk).
Proof.
  apply (replace_with_folder_exists copytree_missing move_missing sample_folder
           "/tmp/src" false sample_disk).
  reflexivity.
Defined.

(** C10.  [insert_file] checks the name first: when [get_filename]
    refuses it, [insert_file] raises that error and the disk is as it
    was. *)
Theorem insert_file_rejected_name (self : Folder) (src dest_name : string)
  (e : exn) (s : fs.state) :
  get_filename self dest_name = inl e ->
  insert_file self src (Some dest_name) s = (inl e, s).
Proof.
  intros H. unfold insert_file, bind, lift. now rewrite H.
Qed.

Lemma insert_file_rejected_name_witness :
  insert_file sample_folder "/tmp/src.dat" (Some "sub/new.dat") sample_disk
  = (inl (ValueError "You didn't specify a valid filename: sub/new.dat"),
     sample_disk).
Proof.
  apply (insert_file_rejected_name sample_folder "/tmp/src.dat" "sub/new.dat").
  reflexivity.
Defined.

(* ------------------------------------------------------------------ *)
(** ** Canonical paths on the disk *)

Lemma look_entry (s : fs.state) (q : list string) (n : string) (es : fs.entries) :
  fs.find q (fs.Dir (fs.root s)) = Some (fs.Dir es) ->
  fs.look (fs.root s) (q ++ [n])
  = option_map fs.kind_of (fs.assoc n es).
Proof. intros H. unfold fs.look. now rewrite (find_entry _ _ _ _ H). Qed.

(** The entry [n] of the directory at [q]: what its path resolves to. *)
Lemma resolve_entry (s : fs.state) (fl : bool) (q : list string) (n : string)
  (es : fs.entries) :
  Forall (fun n => proper_name n = true) q -> proper_name n = true ->
  fs.find q (fs.Dir (fs.root s)) = Some (fs.Dir es) ->
  fs.resolve s fl (path_of (q ++ [n]))
  = match fs.assoc n es with
    | None => fs.Absent q n
    | Some (fs.Symlink target) =>
        if fl then
          if String.eqb target "" then fs.Failed fs.ENOENT
          else
            fs.walk (pred fs.MAXSYMLINKS) (fs.look (fs.root s)) fl
              (if posixpath.isabs target then [] else q)
              (str.split_sep target ++ [])%list
        else fs.Found (q ++ [n]) (fs.KLink target)
    | Some c => fs.Found (q ++ [n]) (fs.kind_of c)
    end.
Proof.
  intros Hq Hn Hd.
  assert (Hk : fs.look (fs.root s) q = Some fs.KDir) by (apply look_dir; eauto).
  rewrite resolve_below by (auto using Forall_cons, Forall_nil).
  change (pred fs.MAXSYMLINKS) with 39. unfold fs.MAXSYMLINKS.
  rewrite walk_cons, Hk. destruct (proper_name_walks n Hn) as [-> ->].
  rewrite (look_entry _ _ _ _ Hd).
  destruct (fs.assoc n es) as [[c|target|es']|] eqn:E; cbn [option_map fs.kind_of].
  - rewrite walk_nil, (look_entry _ _ _ _ Hd), E. reflexivity.
  - cbn [negb]. rewrite orb_false_r. destruct fl; reflexivity.
  - rewrite walk_nil, (look_entry _ _ _ _ Hd), E. reflexivity.
  - reflexivity.
Qed.

(** A path that leaves the tree at a missing entry does not exist. *)
Lemma path_missing (s : fs.state) (q m : list string) (es : fs.entries) :
  Forall (fun n => proper_name n = true) q ->
  Forall (fun n => proper_name n = true) m ->
  m <> [] ->
  fs.find q (fs.Dir (fs.root s)) = Some (fs.Dir es) ->
  fs.assoc (hd "" m) es = None ->
  os.path_exists (path_of (q ++ m)) s = false.
Proof.
  intros Hq Hm Hne Hd Ha. unfold os.path_exists.
  assert (Hk : fs.look (fs.root s) q = Some fs.KDir) by (apply look_dir; eauto).
  rewrite resolve_below by assumption.
  destruct m as [|n m]; [congruence|]. simpl in Ha.
  inversion Hm as [|? ? Hn _]; subst.
  rewrite walk_cons, Hk. destruct (proper_name_walks n Hn) as [-> ->].
  rewrite (look_entry _ _ _ _ Hd), Ha. cbn [option_map]. now destruct m.
Qed.

Lemma dir_exists (s : fs.state) (q : list string) (es : fs.entries) :
  Forall (fun n => proper_name n = true) q ->
  fs.find q (fs.Dir (fs.root s)) = Some (fs.Dir es) ->
  forall fl, fs.resolve s fl (path_of q) = fs.Found q fs.KDir.
Proof.
  intros Hq Hd fl.
  assert (Hk : fs.look (fs.root s) q = Some fs.KDir) by (apply look_dir; eauto).
  rewrite <- (app_nil_r q) at 1.
  rewrite resolve_below by (auto using Forall_nil).
  now rewrite walk_nil, Hk.
Qed.

(** [makedirs] on a canonical path that leaves the tree at a missing
    entry of the directory [q]: every missing directory is created. *)
Lemma makedirs_rec_creates (q : list string) :
  Forall (fun n => proper_name n = true) q ->
  forall m,
    Forall (fun n => proper_name n = true) m -> m <> [] ->
    forall fuel s es,
      List.length m <= S fuel ->
      fs.find q (fs.Dir (fs.root s)) = Some (fs.Dir es) ->
      fs.assoc (hd "" m) es = None ->
      exists s',
        os.makedirs_rec fuel (path_of (q ++ m)) s = (inr tt, s')
        /\ fs.find (q ++ m) (fs.Dir (fs.root s')) = Some (fs.Dir [])
        /\ (forall p, ~ is_below (q ++ [hd "" m]) p ->
              fs.look (fs.root s') p = fs.look (fs.root s) p)
        /\ fs.cwd s' = fs.cwd s.
Proof.
  intros Hq m. induction m as [|n m0 IH] using rev_ind; [congruence|].
  intros Hm _ fuel s es Hfuel Hd Ha.
  apply Forall_app in Hm as [Hm0 Hn]. inversion Hn as [|? ? Hn' _]; subst.
  pose proof (proper_name_inv n Hn') as (Hn0 & Hn1 & _ & Hns).
  assert (Hsplit : posixpath.split (path_of (q ++ m0 ++ [n]))
                   = (path_of (q ++ m0), n)).
  { rewrite app_assoc. apply split_path_of; [now apply Forall_app | exact Hns]. }
  assert (Hstep : forall s1 es1,
             fs.find (q ++ m0) (fs.Dir (fs.root s1)) = Some (fs.Dir es1) ->
             fs.assoc n es1 = None ->
             os.mkdir (path_of (q ++ m0 ++ [n])) s1
             = (inr tt, os.create_entry (q ++ m0) n (fs.Dir []) s1)).
  { intros s1 es1 Hd1 Ha1. unfold os.mkdir. rewrite app_assoc.
    rewrite (resolve_entry s1 false (q ++ m0) n es1); try assumption;
      [|now apply Forall_app].
    now rewrite Ha1. }
  apply String.eqb_neq in Hn0, Hn1.
  assert (Hp0 : String.eqb (path_of (q ++ m0)) "" = false)
    by (apply String.eqb_neq, path_of_not_empty).
  destruct m0 as [|n0 m0'] eqn:Em0.
  - (* the parent is the directory [q] itself *)
    simpl in Ha. rewrite app_nil_r in *. simpl app in *.
    exists (os.create_entry q n (fs.Dir []) s).
    destruct (look_create_entry s q n (fs.Dir []) es Hd Ha eq_refl)
      as (Hnew & Hold & Hcwd).
    split; [|split; [exact Hnew | split; [|exact Hcwd]]].
    + assert (Hex : os.path_exists (path_of q) s = true).
      { unfold os.path_exists. now rewrite (dir_exists s q es Hq Hd true). }
      destruct fuel; cbn [os.makedirs_rec]; rewrite Hsplit; cbv beta iota;
        rewrite Hn0; cbv beta iota; rewrite Hn0, Hp0, Hex; cbn [negb andb];
        apply (Hstep s es Hd Ha).
    + intros p Hp. apply Hold. intros ->. apply Hp. exists []. now rewrite app_nil_r.
  - (* the parent is missing too *)
    rewrite <- Em0 in *.
    assert (Hne0 : m0 <> []) by (subst m0; discriminate).
    assert (Hhd : hd "" (m0 ++ [n]) = hd "" m0) by (subst m0; reflexivity).
    rewrite Hhd in *.
    assert (Hex : os.path_exists (path_of (q ++ m0)) s = false)
      by now apply (path_missing s q m0 es).
    destruct fuel as [|fuel].
    { rewrite length_app in Hfuel. simpl in Hfuel.
      destruct m0; [congruence | simpl in Hfuel; lia]. }
    assert (Hfuel0 : List.length m0 <= S fuel).
    { rewrite length_app in Hfuel. simpl in Hfuel. lia. }
    destruct (IH Hm0 Hne0 fuel s es Hfuel0 Hd Ha) as (s1 & Hrec & Hnew1 & Hold1 & Hcwd1).
    exists (os.create_entry (q ++ m0) n (fs.Dir []) s1).
    destruct (look_create_entry s1 (q ++ m0) n (fs.Dir []) [] Hnew1 eq_refl eq_refl)
      as (Hnew & Hold & Hcwd).
    split; [|split; [|split]].
    + cbn [os.makedirs_rec]. rewrite Hsplit. cbv beta iota.
      rewrite Hn0. cbv beta iota. rewrite Hn0, Hp0, Hex. cbn [negb andb].
      rewrite Hrec, Hn1. apply (Hstep s1 [] Hnew1 eq_refl).
    + now rewrite app_assoc.
    + intros p Hp. rewrite Hold, Hold1; [reflexivity | exact Hp |].
      intros ->. apply Hp. subst m0. exists (m0' ++ [n])%list.
      now rewrite <- !app_assoc.
    + now rewrite Hcwd, Hcwd1.
Qed.

Lemma path_below_length (q : list string) :
  List.length q <= String.length (path_below q).
Proof.
  induction q as [|k q IH]; simpl; [lia|].
  assert (H : forall a b, String.length (a ++ b) = String.length a + String.length b).
  { intros a b. induction a as [|c a IHa]; simpl; [reflexivity | now rewrite IHa]. }
  rewrite H. lia.
Qed.

Lemma makedirs_creates (q m : list string) (s : fs.state) (es : fs.entries) :
  Forall (fun n => proper_name n = true) q ->
  Forall (fun n => proper_name n = true) m -> m <> [] ->
  fs.find q (fs.Dir (fs.root s)) = Some (fs.Dir es) ->
  fs.assoc (hd "" m) es = None ->
  exists s',
    os.makedirs (path_of (q ++ m)) s = (inr tt, s')
    /\ fs.find (q ++ m) (fs.Dir (fs.root s')) = Some (fs.Dir [])
    /\ (forall p, ~ is_below (q ++ [hd "" m]) p ->
          fs.look (fs.root s') p = fs.look (fs.root s) p)
    /\ fs.cwd s' = fs.cwd s.
Proof.
  intros Hq Hm Hne Hd Ha. unfold os.makedirs.
  apply (makedirs_rec_creates q Hq m Hm Hne _ s es); try assumption.
  assert (H : path_of (q ++ m) = path_below (q ++ m)).
  { destruct (q ++ m)%list eqn:E; [|reflexivity].
    apply app_eq_nil in E as [_ E]. congruence. }
  rewrite H. pose proof (path_below_length (q ++ m)) as Hl.
  rewrite length_app in Hl. lia.
Qed.

(* ------------------------------------------------------------------ *)
(** ** [Folder.create] and [Folder.erase] *)

Lemma create_exists (self : Folder) (s : fs.state) :
  os.path_exists (abspath self) s = true -> create self s = (inr tt, s).
Proof. intros H. unfold create, bind, exists_, gets, ret. now rewrite H. Qed.

Lemma create_missing (self : Folder) (s : fs.state) :
  os.path_exists (abspath self) s = false ->
  create self s = os.makedirs (abspath self) s.
Proof. intros H. unfold create, bind, exists_, gets, ret. now rewrite H. Qed.

(** Whenever [create] returns, the folder is a directory. *)
Lemma create_ok (self : Folder) (s s' : fs.state) :
  canonical (abspath self) ->
  create self s = (inr tt, s') ->
  os.path_exists (abspath self) s' = true
  /\ (os.path_exists (abspath self) s = false ->
      os.path_isdir (abspath self) s' = true
      /\ os.listdir (abspath self) s' = (inr [], s')).
Proof.
  intros Hc H. destruct (os.path_exists (abspath self) s) eqn:He.
  - rewrite (create_exists _ _ He) in H. injection H as <-.
    split; [exact He | discriminate].
  - rewrite (create_missing _ _ He) in H. unfold os.makedirs in H.
    apply makedirs_rec_ok in H as [s1 H];
      [|now apply canonical_trimmed | now apply canonical_basename].
    apply mkdir_makes_dir in H as (H1 & H2 & H3). auto.
Qed.

(** C7 as it is stated fails: where the path of the folder is a
    regular file, no directory is there, and yet [create] makes none;
    it returns and the path is still the file. *)
Lemma create_skips_regular_file :
  ~ (forall (self : Folder) (s : fs.state),
       (os.path_isdir (abspath self) s = true -> create self s = (inr tt, s))
       /\ (os.path_isdir (abspath self) s = false ->
           forall s',
             create self s = (inr tt, s') ->
             os.path_isdir (abspath self) s' = true)).
Proof.
  intros H.
  destruct (H {| abspath := "/tmp/src.dat"; folder_limit := "/tmp" |} sample_disk)
    as [_ H2].
  specialize (H2 eq_refl sample_disk eq_refl). discriminate.
Qed.

(** C7, amended.  [create] is idempotent.  Where anything exists under
    the path of the folder, a directory or not, it changes nothing and
    returns; whenever it returns, the path exists and a second call
    changes nothing and returns; where nothing existed under the path
    it leaves a directory; and where the path leaves the tree at a
    missing entry of a directory, it returns, having made a directory
    of every missing component and changed nothing else. *)
Theorem create_idempotent (self : Folder) (s : fs.state) :
  canonical (abspath self) ->
  (os.path_exists (abspath self) s = true -> create self s = (inr tt, s))
  /\ (forall s',
        create self s = (inr tt, s') ->
        os.path_exists (abspath self) s' = true
        /\ create self s' = (inr tt, s'))
  /\ (forall s',
        os.path_exists (abspath self) s = false ->
        create self s = (inr tt, s') ->
        os.path_isdir (abspath self) s' = true)
  /\ (forall q m es,
        abspath self = path_of (q ++ m) ->
        Forall (fun n => proper_name n = true) q ->
        Forall (fun n => proper_name n = true) m ->
        m <> [] ->
        fs.find q (fs.Dir (fs.root s)) = Some (fs.Dir es) ->
        fs.assoc (hd "" m) es = None ->
        exists s',
          create self s = (inr tt, s')
          /\ (forall m1 m2, m = (m1 ++ m2)%list ->
                fs.look (fs.root s') (q ++ m1) = Some fs.KDir)
          /\ (forall p, ~ is_below (q ++ [hd "" m]) p ->
                fs.look (fs.root s') p = fs.look (fs.root s) p)).
Proof.
  intros Hc. split; [apply create_exists|]. split; [|split].
  - intros s' H. destruct (create_ok self s s' Hc H) as [He _].
    split; [exact He | now apply create_exists].
  - intros s' He H. destruct (create_ok self s s' Hc H) as [_ Hd].
    now apply Hd.
  - intros q m es Hp Hq Hm Hne Hd Ha.
    assert (He : os.path_exists (abspath self) s = false)
      by (rewrite Hp; now apply (path_missing s q m es)).
    rewrite (create_missing _ _ He), Hp.
    destruct (makedirs_creates q m s es Hq Hm Hne Hd Ha)
      as (s' & Hmk & Hnew & Hold & _).
    exists s'. split; [exact Hmk|]. split; [|exact Hold].
    intros m1 m2 ->. rewrite app_assoc in Hnew.
    apply find_prefix_dir in Hnew as [es1 Hnew]. apply look_dir. eauto.
Qed.

Lemma create_idempotent_witness :
  exists s',
    create {| abspath := "/tmp/a/b"; folder_limit := "/tmp" |} sample_disk
    = (inr tt, s')
    /\ create {| abspath := "/tmp/a/b"; folder_limit := "/tmp" |} s' = (inr tt, s').
Proof.
  pose proof (create_idempotent
                {| abspath := "/tmp/a/b"; folder_limit := "/tmp" |} sample_disk) as H.
  destruct H as (_ & H2 & _).
  - exists ["tmp"; "a"; "b"]. split; [repeat constructor | reflexivity].
  - eexists. split; [reflexivity|]. apply H2. reflexivity.
Defined.

Lemma rmtree_dir (s : fs.state) (q : list string) (n : string)
  (es sub : fs.entries) :
  Forall (fun n => proper_name n = true) (q ++ [n]) ->
  fs.find q (fs.Dir (fs.root s)) = Some (fs.Dir es) ->
  fs.assoc n es = Some (fs.Dir sub) ->
  os.path_exists (path_of (q ++ [n])) s = true
  /\ shutil.rmtree (path_of (q ++ [n])) s
     = (inr tt, fs.alter_root q (fs.remove_key n) s).
Proof.
  intros Hqn Hd Ha. pose proof Hqn as Hqn'.
  apply Forall_app in Hqn' as [Hq Hn]. inversion Hn as [|? ? Hn' _]; subst.
  assert (Hr : forall fl, fs.resolve s fl (path_of (q ++ [n]))
                          = fs.Found (q ++ [n]) fs.KDir).
  { intros fl. rewrite (resolve_entry s fl q n es Hq Hn' Hd), Ha. reflexivity. }
  unfold os.path_exists, shutil.rmtree, os.path_islink. rewrite !Hr.
  split; [reflexivity|].
  rewrite removelast_last, last_last. now destruct q.
Qed.

(** C6.  [erase] on a folder that does not exist changes nothing and
    returns.  Whenever [erase(create_empty_folder=True)] returns, the
    folder is a directory without entries; and it returns whether the
    folder was there or not: where the folder is a directory of the
    disk, and where its path leaves the tree at a missing entry of a
    directory. *)
Theorem erase_spec (self : Folder) (s : fs.state) :
  canonical (abspath self) ->
  (os.path_exists (abspath self) s = false -> erase self false s = (inr tt, s))
  /\ (forall s',
        erase self true s = (inr tt, s') ->
        os.path_isdir (abspath self) s' = true
        /\ os.listdir (abspath self) s' = (inr [], s'))
  /\ (forall p sub,
        abspath self = path_of p ->
        Forall (fun n => proper_name n = true) p ->
        p <> [] ->
        fs.find p (fs.Dir (fs.root s)) = Some (fs.Dir sub) ->
        exists s', erase self true s = (inr tt, s'))
  /\ (forall q m es,
        abspath self = path_of (q ++ m) ->
        Forall (fun n => proper_name n = true) q ->
        Forall (fun n => proper_name n = true) m ->
        m <> [] ->
        fs.find q (fs.Dir (fs.root s)) = Some (fs.Dir es) ->
        fs.assoc (hd "" m) es = None ->
        exists s', erase self true s = (inr tt, s')).
Proof.
  intros Hc. split; [|split; [|split]].
  - intros He. unfold erase, bind, exists_, gets, ret. now rewrite He.
  - intros s' H. unfold erase, bind, exists_, gets, ret in H.
    destruct (os.path_exists (abspath self) s) eqn:He.
    + destruct (shutil.rmtree (abspath self) s) as [[e|[]] s1] eqn:Hrm;
        [discriminate|].
      apply rmtree_ok in Hrm.
      destruct (create self s1) as [[e|[]] s2] eqn:Hcr; [discriminate|].
      injection H as <-.
      now apply (create_ok self s1 s2 Hc Hcr).
    + destruct (create self s) as [[e|[]] s2] eqn:Hcr; [discriminate|].
      injection H as <-.
      now apply (create_ok self s s2 Hc Hcr).
  - intros p sub Hp Hprop Hne Hfind.
    rewrite (app_removelast_last_str p Hne) in Hp, Hprop, Hfind.
    set (q := removelast p) in *. set (n := last p "") in *.
    pose proof Hprop as Hqn. apply Forall_app in Hqn as [Hq Hn].
    destruct (find_prefix_dir _ _ _ _ Hfind) as [es Hd].
    rewrite (find_entry _ _ _ _ Hd) in Hfind.
    unfold erase, bind, exists_, gets, ret. rewrite Hp.
    destruct (rmtree_dir s q n es sub Hprop Hd Hfind) as [He Hrm].
    rewrite He, Hrm.
    set (s1 := fs.alter_root q (fs.remove_key n) s).
    assert (Hd1 : fs.find q (fs.Dir (fs.root s1))
                  = Some (fs.Dir (fs.remove_key n es))).
    { destruct (alter_root_look q (fs.remove_key n) s) as [E _].
      fold s1 in E. rewrite <- E.
      rewrite <- (app_nil_r q) at 1.
      now rewrite (find_alter_at_below _ _ _ _ _ Hd). }
    assert (Ha1 : fs.assoc n (fs.remove_key n es) = None)
      by now rewrite assoc_remove_key, String.eqb_refl.
    destruct (makedirs_creates q [n] s1 _ Hq Hn ltac:(discriminate) Hd1 Ha1)
      as (s' & Hmk & _).
    exists s'.
    assert (He1 : os.path_exists (abspath self) s1 = false)
      by (rewrite Hp; now apply (path_missing s1 q [n] (fs.remove_key n es))).
    rewrite (create_missing self s1 He1). now rewrite Hp, Hmk.
  - intros q m es Hp Hq Hm Hne Hd Ha.
    assert (He : os.path_exists (abspath self) s = false)
      by (rewrite Hp; now apply (path_missing s q m es)).
    unfold erase, bind, exists_, gets, ret. rewrite He.
    destruct (makedirs_creates q m s es Hq Hm Hne Hd Ha) as (s' & Hmk & _).
    exists s'. rewrite (create_missing self s He). now rewrite Hp, Hmk.
Qed.

Lemma erase_spec_witness :
  erase {| abspath := "/tmp/gone"; folder_limit := "/tmp" |} false sample_disk
  = (inr tt, sample_disk)
  /\ exists s', erase sample_folder true sample_disk = (inr tt, s')
                /\ os.listdir "/tmp/x" s' = (inr [], s').
Proof.
  split.
  - apply (erase_spec {| abspath := "/tmp/gone"; folder_limit := "/tmp" |}
             sample_disk).
    + exists ["tmp"; "gone"]. split; [repeat constructor | reflexivity].
    + reflexivity.
  - eexists. split; [reflexivity|].
    apply (erase_spec sample_folder sample_disk).
    + exists ["tmp"; "x"]. split; [repeat constructor | reflexivity].
    + reflexivity.
Defined.

(* ------------------------------------------------------------------ *)
(** ** [Folder.insert_file] *)

Lemma read_file_state (path : string) (s : fs.state) :
  snd (shutil.read_file path s) = s.
Proof.
  unfold shutil.read_file.
  destruct (fs.resolve s true path) as [q [| |]| |]; try reflexivity.
  now destruct (fs.find q (fs.Dir (fs.root s))) as [[| |]|].
Qed.

Lemma copyfile_ok (src dst : string) (s s' : fs.state) :
  shutil.copyfile src dst s = (inr tt, s') ->
  exists content,
    shutil.read_file src s = (inr content, s)
    /\ shutil.read_file dst s' = (inr content, s').
Proof.
  unfold shutil.copyfile, bind, gets, raise.
  destruct (shutil.samefile src dst s); [discriminate|].
  pose proof (read_file_state src s) as Hs.
  destruct (shutil.read_file src s) as [[e|content] s1]; [discriminate|].
  simpl in Hs. subst s1. intros H. exists content.
  split; [reflexivity | exact (write_file_ok _ _ _ _ H)].
Qed.

(** C8.  Without [dest_name], [insert_file] takes the base name of
    [src]: [get_filename] accepts it, the destination is the folder
    path joined with it, and [insert_file] is the copy to that
    destination.  Whenever it returns, it returns the destination, which
    then reads as [src] did; and it returns where the folder is a
    directory of the disk without an entry of that name and [src] can be
    read. *)
Theorem insert_file_default_name (self : Folder) (src : string) (s : fs.state) :
  canonical (abspath self) ->
  get_filename self (posixpath.basename src)
  = inr (posixpath.join (abspath self) (posixpath.basename src))
  /\ insert_file self src None s
     = (match shutil.copyfile src
                (posixpath.join (abspath self) (posixpath.basename src)) s with
        | (inr _, s') =>
            (inr (posixpath.join (abspath self) (posixpath.basename src)), s')
        | (inl e, s') => (inl e, s')
        end)
  /\ (forall v s',
        insert_file self src None s = (inr v, s') ->
        v = posixpath.join (abspath self) (posixpath.basename src)
        /\ exists content,
             shutil.read_file src s = (inr content, s)
             /\ shutil.read_file v s' = (inr content, s'))
  /\ (forall q es content,
        abspath self = path_of q ->
        Forall (fun n => proper_name n = true) q ->
        fs.find q (fs.Dir (fs.root s)) = Some (fs.Dir es) ->
        proper_name (posixpath.basename src) = true ->
        fs.assoc (posixpath.basename src) es = None ->
        shutil.read_file src s = (inr content, s) ->
        exists s',
          insert_file self src None s
          = (inr (posixpath.join (abspath self) (posixpath.basename src)), s')).
Proof.
  intros Hc.
  assert (Hg : get_filename self (posixpath.basename src)
               = inr (posixpath.join (abspath self) (posixpath.basename src))).
  { apply get_filename_accepts; [now apply canonical_trimmed|].
    apply after_last_sep_no_sep. }
  assert (Hi : insert_file self src None s
     = (match shutil.copyfile src
                (posixpath.join (abspath self) (posixpath.basename src)) s with
        | (inr _, s') =>
            (inr (posixpath.join (abspath self) (posixpath.basename src)), s')
        | (inl e, s') => (inl e, s')
        end)).
  { unfold insert_file, bind, lift, ret. rewrite Hg.
    now destruct (shutil.copyfile src _ s) as [[e|u] s']. }
  split; [exact Hg|]. split; [exact Hi|]. split.
  - intros v s' H. rewrite Hi in H.
    destruct (shutil.copyfile src _ s) as [[e|[]] s1] eqn:Hcp; [discriminate|].
    injection H as <- <-. split; [reflexivity|]. now apply copyfile_ok.
  - intros q es content Hp Hq Hd Hn Ha Hrd. rewrite Hi.
    assert (Hr : fs.resolve s true
                   (posixpath.join (abspath self) (posixpath.basename src))
                 = fs.Absent q (posixpath.basename src)).
    { rewrite Hp, join_path_of; [|exact Hq | apply after_last_sep_no_sep].
      now rewrite (resolve_entry s true q _ es Hq Hn Hd), Ha. }
    assert (Hsame : shutil.samefile src
                      (posixpath.join (abspath self) (posixpath.basename src)) s
                    = false).
    { unfold shutil.samefile. rewrite Hr. now destruct (fs.resolve s true src). }
    unfold shutil.copyfile, bind, gets, raise. rewrite Hsame, Hrd.
    unfold shutil.write_file. rewrite Hr. eauto.
Qed.

Lemma insert_file_default_name_witness :
  exists s',
    insert_file sample_folder "/tmp/src.dat" None sample_disk
    = (inr "/tmp/x/src.dat", s')
    /\ shutil.read_file "/tmp/x/src.dat" s' = (inr "data", s').
Proof.
  pose proof (insert_file_default_name sample_folder "/tmp/src.dat" sample_disk) as H.
  destruct H as (_ & _ & H3 & _).
  - exists ["tmp"; "x"]. split; [repeat constructor | reflexivity].
  - eexists. split; [reflexivity|].
    destruct (H3 _ _ eq_refl) as (_ & content & Hrd & Hwr).
    injection Hrd as <-. exact Hwr.
Defined.

(* ------------------------------------------------------------------ *)
(** ** [Folder.get_content_list] *)

(** C5 as it is stated fails: in the folder [/tmp/x] of the sample disk
    the entry [lnk] is a link that leads nowhere, so it is neither a
    regular file nor a link to one, and yet it is listed with [True]. *)
Lemma get_content_list_flags_dangling_link :
  ~ (forall (self : Folder) (pattern : string) (s : fs.state)
       (l : list (string * bool)),
        get_content_list fnmatch.fnmatch self pattern s = (inr l, s) ->
        forall name flag,
          In (name, flag) l ->
          (flag = true <-> path_isfile (posixpath.join (abspath self) name) s = true)).
Proof.
  intros H.
  specialize (H sample_folder "*" sample_disk
                [("report.txt", true); ("sub", false); ("lnk", true)]
                eq_refl "lnk" true).
  destruct H as [H _]; [simpl; auto|].
  specialize (H eq_refl). discriminate.
Qed.

Section Listing.

Variable fnmatch : string -> string -> bool.

(** C5, amended.  For a folder that is a directory of the disk,
    [get_content_list] returns, in listing order, the names of its
    entries that match the pattern, each with [not isdir]: [False] for a
    directory and for a link that leads to one, [True] for a regular
    file and for every other entry. *)
Theorem get_content_list_spec (self : Folder) (pattern : string)
  (s : fs.state) (q : list string) (es : fs.entries) :
  abspath self = path_of q ->
  Forall (fun n => proper_name n = true) q ->
  fs.find q (fs.Dir (fs.root s)) = Some (fs.Dir es) ->
  get_content_list fnmatch self pattern s
  = (inr (map (fun name =>
                 (name, negb (os.path_isdir (posixpath.join (abspath self) name) s)))
              (filter (fun name => fnmatch name pattern) (map fst es))),
     s)
  /\ (forall name c,
        proper_name name = true ->
        fs.assoc name es = Some c ->
        negb (os.path_isdir (posixpath.join (abspath self) name) s)
        = match c with
          | fs.Dir _ => false
          | fs.File _ => true
          | fs.Symlink target => negb (follows_to_dir s q target)
          end).
Proof.
  intros Hp Hq Hd. split.
  - unfold get_content_list, bind, gets, os.listdir.
    rewrite Hp, (dir_exists s q es Hq Hd true), Hd. reflexivity.
  - intros name c Hn Ha. f_equal.
    pose proof (proper_name_inv name Hn) as (_ & _ & _ & Hs).
    unfold os.path_isdir. rewrite Hp, (join_path_of q name Hq Hs).
    rewrite (resolve_entry s true q name es Hq Hn Hd), Ha.
    destruct c; reflexivity.
Qed.

End Listing.

Lemma get_content_list_spec_witness :
  get_content_list fnmatch.fnmatch sample_folder "[!.]*" sample_disk
  = (inr [("report.txt", true); ("sub", false); ("lnk", true)], sample_disk).
Proof.
  destruct (get_content_list_spec fnmatch.fnmatch sample_folder "[!.]*" sample_disk
              ["tmp"; "x"]
              [ ("report.txt", fs.File "results"); ("sub", fs.Dir []);
                ("lnk", fs.Symlink "nowhere") ]) as [H _].
  - reflexivity.
  - repeat constructor.
  - reflexivity.
  - exact H.
Defined.

(* ================================================================== *)
(** * Further properties of the class *)

(* ------------------------------------------------------------------ *)
(** ** Names and construction *)

(** X1.  On a folder with a canonical path, [get_filename] accepts
    exactly the names without a separator: such a name comes back
    joined to the folder path, any other raises [ValueError]. *)
Theorem get_filename_separator (self : Folder) (filename : string) :
  canonical (abspath self) ->
  get_filename self filename
  = if str.has_sep filename
    then inl (ValueError ("You didn't specify a valid filename: " ++ filename))
    else inr (posixpath.join (abspath self) filename).
Proof.
  intros Hc. destruct (str.has_sep filename) eqn:Hs.
  - now apply get_filename_rejects_sep.
  - apply get_filename_accepts; [now apply canonical_trimmed | exact Hs].
Qed.

Lemma get_filename_separator_witness :
  get_filename sample_folder "sub/report.txt"
  = inl (ValueError "You didn't specify a valid filename: sub/report.txt")
  /\ get_filename sample_folder "report.txt" = inr "/tmp/x/report.txt".
Proof.
  split.
  - apply (get_filename_separator sample_folder "sub/report.txt").
    exists ["tmp"; "x"]. split; [repeat constructor | reflexivity].
  - apply (get_filename_separator sample_folder "report.txt").
    exists ["tmp"; "x"]. split; [repeat constructor | reflexivity].
Defined.

(** X2.  For a name that can be an entry, the path [get_filename]
    returns is that of the entry of this name in the directory of the
    folder: without following a link it resolves to that entry, or to
    its absence in that directory. *)
Theorem get_filename_entry (self : Folder) (name : string) (s : fs.state)
  (q : list string) (es : fs.entries) :
  abspath self = path_of q ->
  Forall (fun n => proper_name n = true) q ->
  proper_name name = true ->
  fs.find q (fs.Dir (fs.root s)) = Some (fs.Dir es) ->
  get_filename self name = inr (path_of (q ++ [name]))
  /\ fs.resolve s false (path_of (q ++ [name]))
     = match fs.assoc name es with
       | Some c => fs.Found (q ++ [name]) (fs.kind_of c)
       | None => fs.Absent q name
       end.
Proof.
  intros Hp Hq Hn Hd.
  pose proof (proper_name_inv name Hn) as (_ & _ & _ & Hs). split.
  - rewrite get_filename_accepts; [|rewrite Hp; now apply path_of_trimmed | exact Hs].
    now rewrite Hp, join_path_of.
  - rewrite (resolve_entry s false q name es Hq Hn Hd).
    now destruct (fs.assoc name es) as [[| |]|].
Qed.

Lemma get_filename_entry_witness :
  get_filename sample_folder "lnk" = inr "/tmp/x/lnk"
  /\ fs.resolve sample_disk false "/tmp/x/lnk"
     = fs.Found ["tmp"; "x"; "lnk"] (fs.KLink "nowhere").
Proof.
  apply (get_filename_entry sample_folder "lnk" sample_disk ["tmp"; "x"]
           [ ("report.txt", fs.File "results"); ("sub", fs.Dir []);
             ("lnk", fs.Symlink "nowhere") ]).
  - reflexivity.
  - repeat constructor.
  - reflexivity.
  - reflexivity.
Defined.

Lemma lcp_eqb_prefix (a l : string) :
  String.eqb (str.lcp a l) l = String.prefix l a.
Proof.
  revert a. induction l as [|d l IH]; intros [|c a]; simpl; try reflexivity.
  destruct (ascii_dec d c) as [->|Hn].
  - rewrite Ascii.eqb_refl. simpl. rewrite Ascii.eqb_refl. apply IH.
  - destruct (Ascii.eqb_spec c d) as [->|_]; [congruence|]. reflexivity.
Qed.

(** X3.  [Folder.__init__] with a limit decides by string prefix: the
    folder is built exactly when [realpath] of the limit is a prefix,
    character by character, of [realpath] of the path; otherwise
    [ValueError] is raised.  The disk is not touched. *)
Theorem Folder_init_prefix (realpath : fs.state -> string -> string)
  (s : fs.state) (path limit : string) :
  Folder_init realpath path (Some limit) s
  = if String.prefix (realpath s limit) (realpath s path)
    then (inr {| abspath := realpath s (realpath s path);
                 folder_limit := realpath s limit |}, s)
    else (inl (ValueError
                 ("The absolute path for this folder is not within the folder_limit. "
                  ++ "abspath=" ++ realpath s path
                  ++ ", folder_limit=" ++ realpath s limit ++ ".")),
          s).
Proof.
  unfold Folder_init. rewrite commonprefix_pair, lcp_eqb_prefix.
  now destruct (String.prefix (realpath s limit) (realpath s path)).
Qed.

(** X4.  On a disk without symbolic links, with a canonical working
    directory, a folder that [__init__] builds has canonical paths, its
    limit is a string prefix of its path, and building a folder again
    from its two paths gives the same folder. *)
Theorem Folder_init_stable (s : fs.state) (path : string) (limit : option string)
  (f : Folder) :
  canonical (fs.cwd s) ->
  Folder_init realpath_nolinks path limit s = (inr f, s) ->
  canonical (abspath f)
  /\ canonical (folder_limit f)
  /\ (exists rest, abspath f = folder_limit f ++ rest)
  /\ Folder_init realpath_nolinks (abspath f) (Some (folder_limit f)) s = (inr f, s).
Proof.
  intros Hc H. unfold Folder_init in H.
  set (a := realpath_nolinks s path) in *.
  set (l := realpath_nolinks s match limit with Some l0 => l0 | None => a end) in *.
  assert (Ha : realpath_nolinks s a = a) by now apply realpath_nolinks_idempotent.
  assert (Hl : realpath_nolinks s l = l) by now apply realpath_nolinks_idempotent.
  rewrite commonprefix_pair, Ha in H.
  destruct (String.eqb_spec (str.lcp a l) l) as [E|E]; [|discriminate].
  simpl in H. injection H as <-. simpl.
  split; [now apply realpath_nolinks_canonical|].
  split; [now apply realpath_nolinks_canonical|].
  split; [now apply lcp_is_prefix|].
  unfold Folder_init. rewrite Ha, Hl, commonprefix_pair, E, String.eqb_refl.
  cbn [negb]. now rewrite Ha.
Qed.

Lemma Folder_init_stable_witness :
  Folder_init realpath_nolinks "/tmp/x" (Some "/tmp") sample_disk
  = (inr sample_folder, sample_disk).
Proof.
  apply (Folder_init_stable sample_disk "/tmp/y/../x/" (Some "/tmp/.") sample_folder).
  - exists []. split; [constructor | reflexivity].
  - reflexivity.
Defined.

(* ------------------------------------------------------------------ *)
(** ** Subfolders *)

Lemma Folder_init_nolinks_fields (s s' : fs.state) (path : string)
  (limit : option string) (f : Folder) :
  canonical (fs.cwd s) ->
  Folder_init realpath_nolinks path limit s = (inr f, s') ->
  s' = s
  /\ abspath f = realpath_nolinks s path
  /\ folder_limit f
     = realpath_nolinks s
         match limit with Some l => l | None => realpath_nolinks s path end
  /\ str.lcp (abspath f) (folder_limit f) = folder_limit f.
Proof.
  intros Hc H. unfold Folder_init in H.
  rewrite commonprefix_pair in H.
  rewrite (realpath_nolinks_idempotent s path Hc) in H.
  match type of H with
  | context [String.eqb ?x ?y] => destruct (String.eqb_spec x y) as [E|E]
  end; [|discriminate].
  simpl in H. injection H as <- <-. simpl. auto.
Qed.

Lemma path_of_extends (q : list string) (n : string) :
  exists x, path_of (q ++ [n]) = path_of q ++ x.
Proof.
  destruct q as [|k q].
  - exists n. simpl. now rewrite append_nil_r.
  - exists ("/" ++ n).
    change (path_of ((k :: q) ++ [n])) with (path_below ((k :: q) ++ [n])).
    now rewrite path_below_app.
Qed.

(** X5.  On a disk without symbolic links, the subfolder of a plain
    entry name is always accepted: from a folder within its limit,
    [get_subfolder(name)] returns the folder one level below, with the
    same limit, and leaves the disk as it is. *)
Theorem get_subfolder_child (self : Folder) (name : string) (s : fs.state)
  (q : list string) :
  abspath self = path_of q ->
  Forall (fun n => proper_name n = true) q ->
  proper_name name = true ->
  realpath_nolinks s (folder_limit self) = folder_limit self ->
  (exists rest, abspath self = folder_limit self ++ rest) ->
  get_subfolder realpath_nolinks self name false s
  = (inr {| abspath := path_of (q ++ [name]); folder_limit := folder_limit self |},
     s).
Proof.
  intros Hp Hq Hn Hl [rest Hrest].
  pose proof (proper_name_inv name Hn) as (_ & _ & _ & Hs).
  assert (Hqn : Forall (fun n => proper_name n = true) (q ++ [name]))
    by (apply Forall_app; split; [assumption | now constructor]).
  assert (Hd : realpath_nolinks s (posixpath.join (abspath self) name)
               = path_of (q ++ [name])).
  { rewrite Hp, (join_path_of q name Hq Hs). now apply realpath_nolinks_path_of. }
  destruct (path_of_extends q name) as [x Hx].
  pose proof (get_subfolder_within realpath_nolinks self name (rest ++ x) s) as H.
  cbv zeta in H. rewrite Hd in H. apply H.
  - exact Hl.
  - now apply realpath_nolinks_path_of.
  - rewrite Hx, <- Hp, Hrest. apply append_assoc.
Qed.

Lemma get_subfolder_child_witness :
  get_subfolder realpath_nolinks sample_folder "sub" false sample_disk
  = (inr {| abspath := "/tmp/x/sub"; folder_limit := "/tmp" |}, sample_disk).
Proof.
  apply (get_subfolder_child sample_folder "sub" sample_disk ["tmp"; "x"]).
  - reflexivity.
  - repeat constructor.
  - reflexivity.
  - reflexivity.
  - exists "/x". reflexivity.
Defined.

(** X6.  On a disk without symbolic links, whenever
    [get_subfolder(subfolder, create=True)] returns a folder, that
    folder exists on the disk, its path is canonical, and its limit is
    that of the parent, canonicalised. *)
Theorem get_subfolder_created (self : Folder) (subfolder : string)
  (s s' : fs.state) (f : Folder) :
  canonical (fs.cwd s) ->
  get_subfolder realpath_nolinks self subfolder true s = (inr f, s') ->
  os.path_exists (abspath f) s' = true
  /\ canonical (abspath f)
  /\ folder_limit f = realpath_nolinks s (folder_limit self).
Proof.
  intros Hc H. unfold get_subfolder, bind, gets, ret in H.
  destruct (Folder_init realpath_nolinks
              (realpath_nolinks s (posixpath.join (abspath self) subfolder))
              (Some (folder_limit self)) s) as [[e|f0] s0] eqn:Hi; [discriminate|].
  destruct (Folder_init_nolinks_fields s s0 _ _ f0 Hc Hi) as (-> & Ha & Hl & _).
  destruct (create f0 s) as [[e|[]] s1] eqn:Hcr; [discriminate|].
  injection H as <- <-.
  assert (Hcan : canonical (abspath f0))
    by (rewrite Ha; now apply realpath_nolinks_canonical).
  split; [|split; [exact Hcan | exact Hl]].
  now apply (create_ok f0 s s1 Hcan Hcr).
Qed.

Lemma get_subfolder_created_witness :
  exists s',
    get_subfolder realpath_nolinks sample_folder "new/../deep/er" true sample_disk
    = (inr {| abspath := "/tmp/x/deep/er"; folder_limit := "/tmp" |}, s')
    /\ os.path_exists "/tmp/x/deep/er" s' = true.
Proof.
  exists (snd (get_subfolder realpath_nolinks sample_folder "new/../deep/er" true
                 sample_disk)).
  split; [reflexivity|].
  refine (proj1 (get_subfolder_created sample_folder "new/../deep/er" sample_disk _
                   {| abspath := "/tmp/x/deep/er"; folder_limit := "/tmp" |} _ _)).
  - exists []. split; [constructor | reflexivity].
  - reflexivity.
Defined.

(* ------------------------------------------------------------------ *)
(** ** [Folder.create_symlink] *)

Lemma find_created (s : fs.state) (par : list string) (name : string)
  (c : fs.node) (es : fs.entries) :
  fs.find par (fs.Dir (fs.root s)) = Some (fs.Dir es) ->
  fs.find par (fs.Dir (fs.root (os.create_entry par name c s)))
  = Some (fs.Dir (es ++ [(name, c)])).
Proof.
  intros Hd. unfold os.create_entry.
  destruct (alter_root_look par (fun es => es ++ [(name, c)])%list s) as [E _].
  rewrite <- E. rewrite <- (app_nil_r par) at 1.
  now rewrite (find_alter_at_below _ _ _ _ _ Hd).
Qed.

(** X7.  [create_symlink] fails without touching the disk: when the
    name holds a separator ([ValueError]); when the target is empty
    ([OSError], [ENOENT], whatever is there under the name); and when
    the folder already has an entry of that name, whatever it is
    ([OSError], [EEXIST]). *)
Theorem create_symlink_refused (self : Folder) (src name : string)
  (s : fs.state) (q : list string) (es : fs.entries) :
  abspath self = path_of q ->
  Forall (fun n => proper_name n = true) q ->
  fs.find q (fs.Dir (fs.root s)) = Some (fs.Dir es) ->
  (str.has_sep name = true ->
   create_symlink self src name s
   = (inl (ValueError ("You didn't specify a valid filename: " ++ name)), s))
  /\ (str.has_sep name = false ->
      src = "" ->
      create_symlink self src name s = (inl (OSError (Some fs.ENOENT) src), s))
  /\ (proper_name name = true ->
      fs.assoc name es <> None ->
      create_symlink self src name s
      = (inl (OSError (Some (if String.eqb src "" then fs.ENOENT else fs.EEXIST))
                src),
         s)).
Proof.
  intros Hp Hq Hd. split; [|split].
  - intros Hs. unfold create_symlink, bind, lift.
    now rewrite (get_filename_rejects_sep self name Hs).
  - intros Hs ->. unfold create_symlink, bind, lift.
    rewrite get_filename_accepts; [|rewrite Hp; now apply path_of_trimmed | exact Hs].
    reflexivity.
  - intros Hn Ha.
    pose proof (proper_name_inv name Hn) as (_ & _ & _ & Hs).
    unfold create_symlink, bind, lift.
    rewrite get_filename_accepts; [|rewrite Hp; now apply path_of_trimmed | exact Hs].
    rewrite Hp, (join_path_of q name Hq Hs). unfold os.symlink.
    destruct (String.eqb src ""); [reflexivity|].
    rewrite (resolve_entry s false q name es Hq Hn Hd).
    destruct (fs.assoc name es) as [[| |]|]; try reflexivity. congruence.
Qed.

Lemma create_symlink_refused_witness :
  create_symlink sample_folder "../src.dat" "a/b" sample_disk
  = (inl (ValueError "You didn't specify a valid filename: a/b"), sample_disk)
  /\ create_symlink sample_folder "" "fresh" sample_disk
     = (inl (OSError (Some fs.ENOENT) ""), sample_disk)
  /\ create_symlink sample_folder "../src.dat" "lnk" sample_disk
     = (inl (OSError (Some fs.EEXIST) "../src.dat"), sample_disk).
Proof.
  destruct (create_symlink_refused sample_folder "../src.dat" "a/b" sample_disk
              ["tmp"; "x"]
              [ ("report.txt", fs.File "results"); ("sub", fs.Dir []);
                ("lnk", fs.Symlink "nowhere") ] eq_refl) as (H1 & _ & _);
    [repeat constructor | reflexivity |].
  destruct (create_symlink_refused sample_folder "" "fresh" sample_disk
              ["tmp"; "x"]
              [ ("report.txt", fs.File "results"); ("sub", fs.Dir []);
                ("lnk", fs.Symlink "nowhere") ] eq_refl) as (_ & H2 & _);
    [repeat constructor | reflexivity |].
  destruct (create_symlink_refused sample_folder "../src.dat" "lnk" sample_disk
              ["tmp"; "x"]
              [ ("report.txt", fs.File "results"); ("sub", fs.Dir []);
                ("lnk", fs.Symlink "nowhere") ] eq_refl) as (_ & _ & H3);
    [repeat constructor | reflexivity |].
  split; [now apply H1 | split; [now apply H2 |]].
  apply H3; [reflexivity | discriminate].
Defined.

(** X8.  Where the folder is a directory without an entry of that
    name, [create_symlink(src, name)] with a target that is not empty
    returns: the new entry is a link whose target is [src] exactly as
    given, the listing of the folder holds the new name besides the
    names it had, in some order, and every other place of the disk
    keeps its kind. *)
Theorem create_symlink_ok (self : Folder) (src name : string)
  (s : fs.state) (q : list string) (es : fs.entries) :
  abspath self = path_of q ->
  Forall (fun n => proper_name n = true) q ->
  fs.find q (fs.Dir (fs.root s)) = Some (fs.Dir es) ->
  proper_name name = true ->
  fs.assoc name es = None ->
  src <> "" ->
  exists s' l,
    create_symlink self src name s = (inr tt, s')
    /\ fs.find (q ++ [name]) (fs.Dir (fs.root s')) = Some (fs.Symlink src)
    /\ os.path_islink (path_of (q ++ [name])) s' = true
    /\ os.listdir (abspath self) s' = (inr l, s')
    /\ Permutation l (name :: map fst es)
    /\ (forall p, p <> (q ++ [name])%list ->
          fs.look (fs.root s') p = fs.look (fs.root s) p).
Proof.
  intros Hp Hq Hd Hn Ha Hsrc.
  pose proof (proper_name_inv name Hn) as (_ & _ & _ & Hs).
  exists (os.create_entry q name (fs.Symlink src) s), (map fst es ++ [name])%list.
  destruct (look_create_entry s q name (fs.Symlink src) es Hd Ha I)
    as (Hnew & Hold & Hcwd).
  pose proof (find_created s q name (fs.Symlink src) es Hd) as Hd'.
  split; [|split; [exact Hnew | split; [|split; [|split; [|exact Hold]]]]].
  - unfold create_symlink, bind, lift.
    rewrite get_filename_accepts; [|rewrite Hp; now apply path_of_trimmed | exact Hs].
    rewrite Hp, (join_path_of q name Hq Hs). unfold os.symlink.
    apply String.eqb_neq in Hsrc. rewrite Hsrc.
    now rewrite (resolve_entry s false q name es Hq Hn Hd), Ha.
  - unfold os.path_islink.
    rewrite (resolve_entry _ false q name _ Hq Hn Hd').
    now rewrite (assoc_app_absent _ _ _ _ Ha), String.eqb_refl.
  - unfold os.listdir. rewrite Hp, (dir_exists _ q _ Hq Hd' true), Hd'.
    rewrite map_app. reflexivity.
  - apply Permutation_sym, Permutation_cons_append.
Qed.

Lemma create_symlink_ok_witness :
  exists s' l,
    create_symlink sample_folder "/tmp/src.dat" "data" sample_disk = (inr tt, s')
    /\ os.listdir "/tmp/x" s' = (inr l, s')
    /\ Permutation l ["data"; "report.txt"; "sub"; "lnk"].
Proof.
  destruct (create_symlink_ok sample_folder "/tmp/src.dat" "data" sample_disk
              ["tmp"; "x"]
              [ ("report.txt", fs.File "results"); ("sub", fs.Dir []);
                ("lnk", fs.Symlink "nowhere") ])
    as (s' & l & H1 & _ & _ & H4 & H5 & _);
    try reflexivity; [repeat constructor | discriminate |].
  exists s', l. split; [exact H1 | split; [exact H4 | exact H5]].
Defined.

(* ------------------------------------------------------------------ *)
(** ** [Folder.erase] and [Folder.create] at the edges *)

(** X9.  Whenever [erase()] returns, the folder does not exist:
    [exists()] then gives [False]. *)
Theorem erase_removes (self : Folder) (s s' : fs.state) :
  erase self false s = (inr tt, s') ->
  exists_ self s' = (inr false, s').
Proof.
  intros H. unfold exists_, gets. f_equal. f_equal.
  unfold erase, bind, exists_, gets, ret in H.
  destruct (os.path_exists (abspath self) s) eqn:He.
  - destruct (shutil.rmtree (abspath self) s) as [[e|[]] s1] eqn:Hrm;
      [discriminate|].
    injection H as <-. now apply (rmtree_ok _ _ _ Hrm).
  - injection H as <-. exact He.
Qed.

Lemma erase_removes_witness :
  exists s', erase sample_folder false sample_disk = (inr tt, s')
             /\ exists_ sample_folder s' = (inr false, s').
Proof.
  eexists. split; [reflexivity|].
  apply (erase_removes sample_folder sample_disk). reflexivity.
Defined.

(** X10.  [erase()] on a folder that is a directory of the disk removes
    that directory with all that is below it, and nothing else: every
    place that is not the folder or below it keeps its kind. *)
Theorem erase_frame (self : Folder) (s : fs.state) (q : list string)
  (n : string) (es sub : fs.entries) :
  abspath self = path_of (q ++ [n]) ->
  Forall (fun n => proper_name n = true) (q ++ [n]) ->
  fs.find q (fs.Dir (fs.root s)) = Some (fs.Dir es) ->
  fs.assoc n es = Some (fs.Dir sub) ->
  exists s',
    erase self false s = (inr tt, s')
    /\ (forall p, is_below (q ++ [n]) p -> fs.look (fs.root s') p = None)
    /\ (forall p, ~ is_below (q ++ [n]) p ->
          fs.look (fs.root s') p = fs.look (fs.root s) p).
Proof.
  intros Hp Hqn Hd Ha.
  destruct (rmtree_dir s q n es sub Hqn Hd Ha) as [He Hrm].
  destruct (look_remove_entry s q n es Hd) as (Hgone & Hold & _).
  exists (fs.alter_root q (fs.remove_key n) s).
  split; [|split; assumption].
  unfold erase, bind, exists_, gets, ret. now rewrite Hp, He, Hrm.
Qed.

Lemma erase_frame_witness :
  exists s',
    erase sample_folder false sample_disk = (inr tt, s')
    /\ fs.look (fs.root s') ["tmp"; "x"; "report.txt"] = None
    /\ fs.look (fs.root s') ["tmp"; "src.dat"] = Some fs.KFile.
Proof.
  destruct (erase_frame sample_folder sample_disk ["tmp"] "x"
              [ ("x", fs.Dir [ ("report.txt", fs.File "results"); ("sub", fs.Dir []);
                               ("lnk", fs.Symlink "nowhere") ]);
                ("src.dat", fs.File "data") ]
              [ ("report.txt", fs.File "results"); ("sub", fs.Dir []);
                ("lnk", fs.Symlink "nowhere") ])
    as (s' & H1 & H2 & H3); try reflexivity; [repeat constructor|].
  exists s'. split; [exact H1|]. split.
  - apply H2. now exists ["report.txt"].
  - rewrite H3; [reflexivity|]. intros [t Ht]. discriminate.
Defined.

Lemma resolve_file (s : fs.state) (fl : bool) (q : list string) (n c : string)
  (es : fs.entries) :
  Forall (fun n => proper_name n = true) (q ++ [n]) ->
  fs.find q (fs.Dir (fs.root s)) = Some (fs.Dir es) ->
  fs.assoc n es = Some (fs.File c) ->
  fs.resolve s fl (path_of (q ++ [n])) = fs.Found (q ++ [n]) fs.KFile.
Proof.
  intros Hqn Hd Ha. apply Forall_app in Hqn as [Hq Hn].
  inversion Hn as [|? ? Hn' _]; subst.
  now rewrite (resolve_entry s fl q n es Hq Hn' Hd), Ha.
Qed.

(** X11.  On a folder whose path is a regular file, [erase] raises the
    [OSError] of [rmtree] ([ENOTDIR]), with or without
    [create_empty_folder], and the disk is as it was. *)
Theorem erase_regular_file (self : Folder) (create_empty_folder : bool)
  (s : fs.state) (q : list string) (n c : string) (es : fs.entries) :
  abspath self = path_of (q ++ [n]) ->
  Forall (fun n => proper_name n = true) (q ++ [n]) ->
  fs.find q (fs.Dir (fs.root s)) = Some (fs.Dir es) ->
  fs.assoc n es = Some (fs.File c) ->
  erase self create_empty_folder s
  = (inl (OSError (Some fs.ENOTDIR) (abspath self)), s).
Proof.
  intros Hp Hqn Hd Ha.
  pose proof (resolve_file s true q n c es Hqn Hd Ha) as Ht.
  pose proof (resolve_file s false q n c es Hqn Hd Ha) as Hf.
  assert (He : os.path_exists (abspath self) s = true)
    by (unfold os.path_exists; now rewrite Hp, Ht).
  assert (Hrm : shutil.rmtree (abspath self) s
                = (inl (OSError (Some fs.ENOTDIR) (abspath self)), s)).
  { unfold shutil.rmtree, os.path_islink. rewrite Hp, Hf, Ht. reflexivity. }
  unfold erase, bind, exists_, gets. rewrite He, Hrm. reflexivity.
Qed.

Lemma erase_regular_file_witness :
  erase {| abspath := "/tmp/src.dat"; folder_limit := "/tmp" |} true sample_disk
  = (inl (OSError (Some fs.ENOTDIR) "/tmp/src.dat"), sample_disk).
Proof.
  apply (erase_regular_file {| abspath := "/tmp/src.dat"; folder_limit := "/tmp" |}
           true sample_disk ["tmp"] "src.dat" "data"
           [ ("x", fs.Dir [ ("report.txt", fs.File "results"); ("sub", fs.Dir []);
                            ("lnk", fs.Symlink "nowhere") ]);
             ("src.dat", fs.File "data") ]).
  - reflexivity.
  - repeat constructor.
  - reflexivity.
  - reflexivity.
Defined.

Lemma resolve_through_file (s : fs.state) (fl : bool) (q m : list string)
  (n c : string) (es : fs.entries) :
  Forall (fun n => proper_name n = true) (q ++ [n]) ->
  Forall (fun n => proper_name n = true) m -> m <> [] ->
  fs.find q (fs.Dir (fs.root s)) = Some (fs.Dir es) ->
  fs.assoc n es = Some (fs.File c) ->
  fs.resolve s fl (path_of (q ++ n :: m)) = fs.Failed fs.ENOTDIR.
Proof.
  intros Hqn Hm Hne Hd Ha. apply Forall_app in Hqn as [Hq Hn].
  inversion Hn as [|? ? Hn' _]; subst.
  assert (Hk : fs.look (fs.root s) q = Some fs.KDir) by (apply look_dir; eauto).
  rewrite resolve_below; [|exact Hq | now constructor | exact Hk].
  rewrite walk_cons, Hk. destruct (proper_name_walks n Hn') as [-> ->].
  rewrite (look_entry _ _ _ _ Hd), Ha. cbn [option_map fs.kind_of].
  destruct m as [|k m]; [congruence|].
  now rewrite walk_cons, (look_entry _ _ _ _ Hd), Ha.
Qed.

Lemma makedirs_rec_blocked (s : fs.state) (q : list string) (n c : string)
  (es : fs.entries) :
  Forall (fun n => proper_name n = true) (q ++ [n]) ->
  fs.find q (fs.Dir (fs.root s)) = Some (fs.Dir es) ->
  fs.assoc n es = Some (fs.File c) ->
  forall m,
    Forall (fun n => proper_name n = true) m -> m <> [] ->
    forall fuel,
      List.length m <= S fuel ->
      os.makedirs_rec fuel (path_of (q ++ n :: m)) s
      = (inl (OSError (Some fs.ENOTDIR) (path_of (q ++ [n; hd "" m]))), s).
Proof.
  intros Hqn Hd Ha m. induction m as [|k m0 IH] using rev_ind; [congruence|].
  intros Hm _ fuel Hfuel.
  apply Forall_app in Hm as [Hm0 Hk]. inversion Hk as [|? ? Hk' _]; subst.
  pose proof (proper_name_inv k Hk') as (Hk0 & Hk1 & _ & Hks).
  assert (Hall : Forall (fun n => proper_name n = true) (q ++ n :: m0)).
  { apply Forall_app in Hqn as [Hq Hn]. apply Forall_app. split; [exact Hq|].
    inversion Hn; subst. now constructor. }
  assert (Hre : (q ++ n :: m0 ++ [k])%list = ((q ++ n :: m0) ++ [k])%list)
    by now rewrite <- app_assoc.
  assert (Hsplit : posixpath.split (path_of (q ++ n :: m0 ++ [k]))
                   = (path_of (q ++ n :: m0), k))
    by (rewrite Hre; now apply split_path_of).
  apply String.eqb_neq in Hk0, Hk1.
  assert (Hp0 : String.eqb (path_of (q ++ n :: m0)) "" = false)
    by (apply String.eqb_neq, path_of_not_empty).
  assert (Hmk : os.mkdir (path_of (q ++ n :: m0 ++ [k])) s
                = (inl (OSError (Some fs.ENOTDIR) (path_of (q ++ n :: m0 ++ [k]))), s)).
  { unfold os.mkdir.
    rewrite (resolve_through_file s false q (m0 ++ [k]) n c es Hqn); auto.
    - apply Forall_app. split; [exact Hm0 | now constructor].
    - now destruct m0. }
  destruct m0 as [|k0 m0'] eqn:Em0.
  - assert (Hex : os.path_exists (path_of (q ++ [n])) s = true).
    { unfold os.path_exists. now rewrite (resolve_file s true q n c es Hqn Hd Ha). }
    simpl app in *.
    destruct fuel; cbn [os.makedirs_rec]; rewrite Hsplit; cbv beta iota;
      rewrite Hk0; cbv beta iota; rewrite Hk0, Hp0, Hex; cbn [negb andb];
      exact Hmk.
  - rewrite <- Em0 in *.
    assert (Hne0 : m0 <> []) by (subst m0; discriminate).
    assert (Hhd : hd "" (m0 ++ [k]) = hd "" m0) by (subst m0; reflexivity).
    rewrite Hhd.
    assert (Hex : os.path_exists (path_of (q ++ n :: m0)) s = false).
    { unfold os.path_exists.
      now rewrite (resolve_through_file s true q m0 n c es Hqn Hm0 Hne0 Hd Ha). }
    destruct fuel as [|fuel].
    { rewrite length_app in Hfuel. simpl in Hfuel.
      destruct m0; [congruence | simpl in Hfuel; lia]. }
    assert (Hfuel0 : List.length m0 <= S fuel).
    { rewrite length_app in Hfuel. simpl in Hfuel. lia. }
    cbn [os.makedirs_rec]. rewrite Hsplit. cbv beta iota.
    rewrite Hk0. cbv beta iota. rewrite Hk0, Hp0, Hex. cbn [negb andb].
    now rewrite (IH Hm0 Hne0 fuel Hfuel0).
Qed.

(** X12.  Where a component of the folder path is a regular file,
    [create] raises the [OSError] of [mkdir] ([ENOTDIR]) for the first
    path below that file, and creates nothing. *)
Theorem create_blocked (self : Folder) (s : fs.state) (q m : list string)
  (n c : string) (es : fs.entries) :
  abspath self = path_of (q ++ n :: m) ->
  Forall (fun n => proper_name n = true) (q ++ [n]) ->
  Forall (fun n => proper_name n = true) m ->
  m <> [] ->
  fs.find q (fs.Dir (fs.root s)) = Some (fs.Dir es) ->
  fs.assoc n es = Some (fs.File c) ->
  create self s
  = (inl (OSError (Some fs.ENOTDIR) (path_of (q ++ [n; hd "" m]))), s).
Proof.
  intros Hp Hqn Hm Hne Hd Ha.
  assert (He : os.path_exists (abspath self) s = false).
  { unfold os.path_exists.
    now rewrite Hp, (resolve_through_file s true q m n c es Hqn Hm Hne Hd Ha). }
  rewrite (create_missing self s He), Hp. unfold os.makedirs.
  apply (makedirs_rec_blocked s q n c es Hqn Hd Ha m Hm Hne).
  assert (H : path_of (q ++ n :: m) = path_below (q ++ n :: m))
    by now destruct q.
  rewrite H. pose proof (path_below_length (q ++ n :: m)) as Hl.
  rewrite length_app in Hl. simpl in Hl. lia.
Qed.

Lemma create_blocked_witness :
  create {| abspath := "/tmp/src.dat/b/c"; folder_limit := "/tmp" |} sample_disk
  = (inl (OSError (Some fs.ENOTDIR) "/tmp/src.dat/b"), sample_disk).
Proof.
  apply (create_blocked {| abspath := "/tmp/src.dat/b/c"; folder_limit := "/tmp" |}
           sample_disk ["tmp"] ["b"; "c"] "src.dat" "data"
           [ ("x", fs.Dir [ ("report.txt", fs.File "results"); ("sub", fs.Dir []);
                            ("lnk", fs.Symlink "nowhere") ]);
             ("src.dat", fs.File "data") ]).
  - reflexivity.
  - repeat constructor.
  - repeat constructor.
  - discriminate.
  - reflexivity.
  - reflexivity.
Defined.

(** X13.  [create] does not make a directory of what is there under the
    folder path.  On a regular file it returns and changes nothing, the
    path still no directory; on a link that leads nowhere, for which
    [exists()] is [False], it raises the [OSError] of [mkdir]
    ([EEXIST]) and changes nothing. *)
Theorem create_not_directory (self : Folder) (s : fs.state) (q : list string)
  (n : string) (es : fs.entries) :
  abspath self = path_of (q ++ [n]) ->
  Forall (fun n => proper_name n = true) (q ++ [n]) ->
  fs.find q (fs.Dir (fs.root s)) = Some (fs.Dir es) ->
  (forall c,
      fs.assoc n es = Some (fs.File c) ->
      create self s = (inr tt, s) /\ os.path_isdir (abspath self) s = false)
  /\ (forall target,
        fs.assoc n es = Some (fs.Symlink target) ->
        os.path_exists (abspath self) s = false ->
        create self s = (inl (OSError (Some fs.EEXIST) (abspath self)), s)).
Proof.
  intros Hp Hqn Hd. pose proof Hqn as Hqn'.
  apply Forall_app in Hqn' as [Hq Hn]. inversion Hn as [|? ? Hn' _]; subst.
  pose proof (proper_name_inv n Hn') as (Hn0 & _ & _ & Hns).
  split.
  - intros c Ha. pose proof (resolve_file s true q n c es Hqn Hd Ha) as Ht. split.
    + apply create_exists. unfold os.path_exists. now rewrite Hp, Ht.
    + unfold os.path_isdir. now rewrite Hp, Ht.
  - intros target Ha He. rewrite (create_missing self s He), Hp.
    assert (Hex : os.path_exists (path_of q) s = true).
    { unfold os.path_exists. now rewrite (dir_exists s q es Hq Hd true). }
    assert (Hmk : os.mkdir (path_of (q ++ [n])) s
                  = (inl (OSError (Some fs.EEXIST) (path_of (q ++ [n]))), s)).
    { unfold os.mkdir. now rewrite (resolve_entry s false q n es Hq Hn' Hd), Ha. }
    apply String.eqb_neq in Hn0.
    assert (Hp0 : String.eqb (path_of q) "" = false)
      by (apply String.eqb_neq, path_of_not_empty).
    unfold os.makedirs.
    destruct (String.length (path_of (q ++ [n]))); cbn [os.makedirs_rec];
      rewrite (split_path_of q n Hq Hns); cbv beta iota;
      rewrite Hn0; cbv beta iota; rewrite Hn0, Hp0, Hex; cbn [negb andb];
      exact Hmk.
Qed.

Lemma create_not_directory_witness :
  (create {| abspath := "/tmp/src.dat"; folder_limit := "/tmp" |} sample_disk
   = (inr tt, sample_disk)
   /\ os.path_isdir "/tmp/src.dat" sample_disk = false)
  /\ create {| abspath := "/tmp/x/lnk"; folder_limit := "/tmp" |} sample_disk
     = (inl (OSError (Some fs.EEXIST) "/tmp/x/lnk"), sample_disk).
Proof.
  split.
  - destruct (create_not_directory
                {| abspath := "/tmp/src.dat"; folder_limit := "/tmp" |} sample_disk
                ["tmp"] "src.dat"
                [ ("x", fs.Dir [ ("report.txt", fs.File "results"); ("sub", fs.Dir []);
                                 ("lnk", fs.Symlink "nowhere") ]);
                  ("src.dat", fs.File "data") ] eq_refl
                ltac:(repeat constructor) eq_refl) as [H _].
    exact (H "data" eq_refl).
  - destruct (create_not_directory
                {| abspath := "/tmp/x/lnk"; folder_limit := "/tmp" |} sample_disk
                ["tmp"; "x"] "lnk"
                [ ("report.txt", fs.File "results"); ("sub", fs.Dir []);
                  ("lnk", fs.Symlink "nowhere") ] eq_refl
                ltac:(repeat constructor) eq_refl) as [_ H].
    exact (H "nowhere" eq_refl eq_refl).
Defined.

(* ------------------------------------------------------------------ *)
(** ** [Folder.get_content_list]: errors and patterns *)

Lemma get_content_list_dir (fnmatch : string -> string -> bool) (self : Folder)
  (pattern : string) (s : fs.state) (q : list string) (es : fs.entries) :
  abspath self = path_of q ->
  Forall (fun n => proper_name n = true) q ->
  fs.find q (fs.Dir (fs.root s)) = Some (fs.Dir es) ->
  get_content_list fnmatch self pattern s
  = (inr (map (fun name =>
                 (name, negb (os.path_isdir (posixpath.join (abspath self) name) s)))
              (filter (fun name => fnmatch name pattern) (map fst es))),
     s).
Proof.
  intros Hp Hq Hd. unfold get_content_list, bind, gets, os.listdir.
  rewrite Hp, (dir_exists s q es Hq Hd true), Hd. reflexivity.
Qed.

(** X14.  [get_content_list] does not give an empty list for a folder
    that is not there: on a missing folder it raises the [OSError] of
    [os.listdir] ([ENOENT]), on a regular file [ENOTDIR], whatever the
    pattern, and the disk is as it was. *)
Theorem get_content_list_not_directory (fnmatch : string -> string -> bool)
  (self : Folder) (pattern : string) (s : fs.state) (q : list string)
  (n : string) (es : fs.entries) :
  abspath self = path_of (q ++ [n]) ->
  Forall (fun n => proper_name n = true) (q ++ [n]) ->
  fs.find q (fs.Dir (fs.root s)) = Some (fs.Dir es) ->
  (fs.assoc n es = None ->
   get_content_list fnmatch self pattern s
   = (inl (OSError (Some fs.ENOENT) (abspath self)), s))
  /\ (forall c,
        fs.assoc n es = Some (fs.File c) ->
        get_content_list fnmatch self pattern s
        = (inl (OSError (Some fs.ENOTDIR) (abspath self)), s)).
Proof.
  intros Hp Hqn Hd. apply Forall_app in Hqn as [Hq Hn].
  inversion Hn as [|? ? Hn' _]; subst.
  pose proof (resolve_entry s true q n es Hq Hn' Hd) as Hr.
  split; [intros Ha | intros c Ha]; rewrite Ha in Hr;
    unfold get_content_list, bind, os.listdir; rewrite Hp, Hr; reflexivity.
Qed.

Lemma get_content_list_not_directory_witness :
  get_content_list fnmatch.fnmatch
    {| abspath := "/tmp/x/gone"; folder_limit := "/tmp" |} "*" sample_disk
  = (inl (OSError (Some fs.ENOENT) "/tmp/x/gone"), sample_disk)
  /\ get_content_list fnmatch.fnmatch
       {| abspath := "/tmp/x/report.txt"; folder_limit := "/tmp" |} "*" sample_disk
     = (inl (OSError (Some fs.ENOTDIR) "/tmp/x/report.txt"), sample_disk).
Proof.
  split.
  - destruct (get_content_list_not_directory fnmatch.fnmatch
                {| abspath := "/tmp/x/gone"; folder_limit := "/tmp" |} "*"
                sample_disk ["tmp"; "x"] "gone"
                [ ("report.txt", fs.File "results"); ("sub", fs.Dir []);
                  ("lnk", fs.Symlink "nowhere") ] eq_refl
                ltac:(repeat constructor) eq_refl) as [H _].
    exact (H eq_refl).
  - destruct (get_content_list_not_directory fnmatch.fnmatch
                {| abspath := "/tmp/x/report.txt"; folder_limit := "/tmp" |} "*"
                sample_disk ["tmp"; "x"] "report.txt"
                [ ("report.txt", fs.File "results"); ("sub", fs.Dir []);
                  ("lnk", fs.Symlink "nowhere") ] eq_refl
                ltac:(repeat constructor) eq_refl) as [_ H].
    exact (H "results" eq_refl).
Defined.

Lemma matches_star (l : list ascii) : fnmatch.matches [fnmatch.Star] l = true.
Proof.
  induction l as [|c l IH]; [reflexivity|].
  cbn [fnmatch.matches orb] in *. exact IH.
Qed.

Lemma fnmatch_star (name : string) : fnmatch.fnmatch name "*" = true.
Proof. unfold fnmatch.fnmatch. apply matches_star. Qed.

Lemma filter_all {A : Type} (f : A -> bool) (l : list A) :
  (forall x, f x = true) -> filter f l = l.
Proof.
  intros H. induction l as [|a l IH]; [reflexivity|].
  simpl. now rewrite H, IH.
Qed.

(** X15.  With the default pattern ['*'] nothing is left out: the list
    has one pair for every entry of the directory, in the order of
    [os.listdir], hidden names included. *)
Theorem get_content_list_default (self : Folder) (s : fs.state)
  (q : list string) (es : fs.entries) :
  abspath self = path_of q ->
  Forall (fun n => proper_name n = true) q ->
  fs.find q (fs.Dir (fs.root s)) = Some (fs.Dir es) ->
  exists l,
    get_content_list fnmatch.fnmatch self "*" s = (inr l, s)
    /\ os.listdir (abspath self) s = (inr (map fst l), s)
    /\ map fst l = map fst es.
Proof.
  intros Hp Hq Hd. eexists.
  split; [exact (get_content_list_dir _ self "*" s q es Hp Hq Hd)|].
  rewrite (filter_all _ _ fnmatch_star), map_map. cbn [fst]. rewrite map_id.
  split; [|reflexivity].
  unfold os.listdir. now rewrite Hp, (dir_exists s q es Hq Hd true), Hd.
Qed.

Lemma get_content_list_default_witness :
  exists l,
    get_content_list fnmatch.fnmatch sample_folder "*" sample_disk
    = (inr l, sample_disk)
    /\ map fst l = ["report.txt"; "sub"; "lnk"].
Proof.
  destruct (get_content_list_default sample_folder sample_disk ["tmp"; "x"]
              [ ("report.txt", fs.File "results"); ("sub", fs.Dir []);
                ("lnk", fs.Symlink "nowhere") ] eq_refl
              ltac:(repeat constructor) eq_refl) as (l & H1 & _ & H3).
  exists l. split; [exact H1 | exact H3].
Defined.

Lemma in_class_dot (d : ascii) :
  fnmatch.in_class d [("."%char, "."%char)] = Ascii.eqb d ".".
Proof.
  destruct d as [[] [] [] [] [] [] [] []]; reflexivity.
Qed.

Lemma fnmatch_not_dot (name : string) :
  fnmatch.fnmatch name "[!.]*"
  = match name with
    | String c _ => negb (Ascii.eqb c ".")
    | EmptyString => false
    end.
Proof.
  unfold fnmatch.fnmatch.
  change (fnmatch.parse _ _)
    with [fnmatch.Class true [("."%char, "."%char)]; fnmatch.Star].
  destruct name as [|c name]; [reflexivity|].
  change (list_ascii_of_string (String c name))
    with (c :: list_ascii_of_string name).
  change (fnmatch.matches
            [fnmatch.Class true [("."%char, "."%char)]; fnmatch.Star]
            (c :: list_ascii_of_string name))
    with (xorb true (fnmatch.in_class c [("."%char, "."%char)])
          && fnmatch.matches [fnmatch.Star] (list_ascii_of_string name)).
  rewrite matches_star, in_class_dot, andb_true_r. reflexivity.
Qed.

(** X16.  The pattern of the docstring, ['[!.]*'], does what the
    docstring says: the entries listed are exactly those whose name
    does not start with a dot, in the order of [os.listdir]. *)
Theorem get_content_list_hides_dot_names (self : Folder) (s : fs.state)
  (q : list string) (es : fs.entries) :
  abspath self = path_of q ->
  Forall (fun n => proper_name n = true) q ->
  fs.find q (fs.Dir (fs.root s)) = Some (fs.Dir es) ->
  exists l,
    get_content_list fnmatch.fnmatch self "[!.]*" s = (inr l, s)
    /\ map fst l
       = filter (fun name =>
                   match name with
                   | String c _ => negb (Ascii.eqb c ".")
                   | EmptyString => false
                   end) (map fst es).
Proof.
  intros Hp Hq Hd. eexists.
  split; [exact (get_content_list_dir _ self "[!.]*" s q es Hp Hq Hd)|].
  rewrite map_map. cbn [fst]. rewrite map_id.
  apply filter_ext. intros name. apply fnmatch_not_dot.
Qed.

Lemma get_content_list_hides_dot_names_witness :
  exists l,
    get_content_list fnmatch.fnmatch
      {| abspath := "/home"; folder_limit := "/home" |} "[!.]*"
      {| fs.root := [ ("home", fs.Dir [ (".bashrc", fs.File "");
                                        ("notes", fs.File "");
                                        (".ssh", fs.Dir []);
                                        ("a.b", fs.Dir []) ]) ];
         fs.cwd := "/" |}
    = (inr l, {| fs.root := [ ("home", fs.Dir [ (".bashrc", fs.File "");
                                                ("notes", fs.File "");
                                                (".ssh", fs.Dir []);
                                                ("a.b", fs.Dir []) ]) ];
                 fs.cwd := "/" |})
    /\ map fst l = ["notes"; "a.b"].
Proof.
  apply (get_content_list_hides_dot_names
           {| abspath := "/home"; folder_limit := "/home" |}
           {| fs.root := [ ("home", fs.Dir [ (".bashrc", fs.File "");
                                             ("notes", fs.File "");
                                             (".ssh", fs.Dir []);
                                             ("a.b", fs.Dir []) ]) ];
              fs.cwd := "/" |}
           ["home"]
           [ (".bashrc", fs.File ""); ("notes", fs.File "");
             (".ssh", fs.Dir []); ("a.b", fs.Dir []) ]).
  - reflexivity.
  - repeat constructor.
  - reflexivity.
Defined.

(* ------------------------------------------------------------------ *)
(** ** [Folder.replace_with_folder] *)

Lemma find_altered (s : fs.state) (q : list string)
  (f : fs.entries -> fs.entries) (es : fs.entries) :
  fs.find q (fs.Dir (fs.root s)) = Some (fs.Dir es) ->
  fs.find q (fs.Dir (fs.root (fs.alter_root q f s))) = Some (fs.Dir (f es)).
Proof.
  intros Hd. destruct (alter_root_look q f s) as [E _].
  rewrite <- E. rewrite <- (app_nil_r q) at 1.
  now rewrite (find_alter_at_below _ _ _ _ _ Hd).
Qed.

Lemma dirname_path_of (q : list string) (n : string) :
  Forall (fun n => proper_name n = true) q ->
  str.has_sep n = false ->
  posixpath.dirname (path_of (q ++ [n])) = path_of q.
Proof.
  intros Hq Hs. unfold posixpath.dirname. now rewrite (split_path_of q n Hq Hs).
Qed.

(** Once the destination is known to be absent, what is left of
    [replace_with_folder] is the parent directory and the copy. *)
Lemma replace_with_folder_absent (copytree move : string -> string -> M unit)
  (self : Folder) (srcdir : string) (move_ overwrite : bool) (s : fs.state) :
  os.path_exists (abspath self) s = false ->
  replace_with_folder copytree move self srcdir move_ overwrite s
  = if os.path_exists (posixpath.dirname (abspath self)) s
    then (if move_ then move else copytree) srcdir (abspath self) s
    else
      match os.makedirs (posixpath.dirname (abspath self)) s with
      | (inr _, s1) => (if move_ then move else copytree) srcdir (abspath self) s1
      | (inl e, s1) => (inl e, s1)
      end.
Proof.
  intros H.
  assert (He : erase self false s = (inr tt, s))
    by (unfold erase, bind, exists_, gets, ret; now rewrite H).
  unfold replace_with_folder, bind.
  assert (Hfirst :
            (if overwrite then erase self false
             else
               fun s0 =>
                 match exists_ self s0 with
                 | (inr a, s') =>
                     (if a : bool
                      then raise (IOError None
                                    ("Location " ++ abspath self
                                     ++ " already exists, and overwrite is set to False"))
                      else ret tt) s'
                 | (inl e, s') => (inl e, s')
                 end) s = (inr tt, s)).
  { destruct overwrite; [exact He|].
    unfold exists_, gets, ret. now rewrite H. }
  rewrite Hfirst. unfold gets, ret.
  destruct (os.path_exists (posixpath.dirname (abspath self)) s); cbn [negb].
  - now destruct move_.
  - destruct (os.makedirs (posixpath.dirname (abspath self)) s) as [[e|u] s1];
      [reflexivity | now destruct move_].
Qed.

(** X17.  With [overwrite], on a folder that is a directory,
    [replace_with_folder] first removes the directory with its content
    and then copies: [copytree] (or [move]) runs on the disk where the
    destination is gone and its parent directory is there, and its
    outcome is that of the method. *)
Theorem replace_with_folder_overwrite (copytree move : string -> string -> M unit)
  (self : Folder) (srcdir : string) (move_ : bool) (s : fs.state)
  (q : list string) (n : string) (es sub : fs.entries) :
  abspath self = path_of (q ++ [n]) ->
  Forall (fun n => proper_name n = true) (q ++ [n]) ->
  fs.find q (fs.Dir (fs.root s)) = Some (fs.Dir es) ->
  fs.assoc n es = Some (fs.Dir sub) ->
  replace_with_folder copytree move self srcdir move_ true s
  = (if move_ then move else copytree) srcdir (abspath self)
      (fs.alter_root q (fs.remove_key n) s)
  /\ os.path_exists (abspath self) (fs.alter_root q (fs.remove_key n) s) = false
  /\ os.path_isdir (posixpath.dirname (abspath self))
       (fs.alter_root q (fs.remove_key n) s) = true.
Proof.
  intros Hp Hqn Hd Ha.
  destruct (rmtree_dir s q n es sub Hqn Hd Ha) as [He Hrm].
  apply Forall_app in Hqn as [Hq Hn]. inversion Hn as [|? ? Hn' _]; subst.
  pose proof (proper_name_inv n Hn') as (_ & _ & _ & Hs).
  set (s1 := fs.alter_root q (fs.remove_key n) s) in *.
  assert (Her : erase self false s = (inr tt, s1))
    by (unfold erase, bind, exists_, gets, ret; now rewrite Hp, He, Hrm).
  pose proof (find_altered s q (fs.remove_key n) es Hd) as Hpar. fold s1 in Hpar.
  pose proof (dir_exists s1 q _ Hq Hpar true) as Hpe.
  assert (Hdn : posixpath.dirname (abspath self) = path_of q)
    by (rewrite Hp; now apply dirname_path_of).
  split; [|split].
  - unfold replace_with_folder, bind. rewrite Her. unfold gets, ret.
    rewrite Hdn. unfold os.path_exists. rewrite Hpe. cbn [negb].
    now destruct move_.
  - rewrite Hp. exact (rmtree_ok _ _ _ Hrm).
  - rewrite Hdn. unfold os.path_isdir. now rewrite Hpe.
Qed.

Lemma replace_with_folder_overwrite_witness :
  replace_with_folder copytree_missing move_missing sample_folder "/tmp/new" false
    true sample_disk
  = copytree_missing "/tmp/new" "/tmp/x"
      {| fs.root := [ ("tmp", fs.Dir [ ("src.dat", fs.File "data") ]) ];
         fs.cwd := "/" |}.
Proof.
  apply (replace_with_folder_overwrite copytree_missing move_missing sample_folder
           "/tmp/new" false sample_disk ["tmp"] "x"
           [ ("x", fs.Dir [ ("report.txt", fs.File "results"); ("sub", fs.Dir []);
                            ("lnk", fs.Symlink "nowhere") ]);
             ("src.dat", fs.File "data") ]
           [ ("report.txt", fs.File "results"); ("sub", fs.Dir []);
             ("lnk", fs.Symlink "nowhere") ]).
  - reflexivity.
  - repeat constructor.
  - reflexivity.
  - reflexivity.
Defined.

(** X18.  On a folder that is not there, with or without [overwrite],
    [replace_with_folder] makes the missing directories above the
    folder, and only those, and copies: [copytree] (or [move]) runs on
    a disk where the parent of the destination is a directory and the
    destination is still absent, and its outcome is that of the
    method.  Where the parent was there already the disk is untouched
    before the copy. *)
Theorem replace_with_folder_fresh (copytree move : string -> string -> M unit)
  (self : Folder) (srcdir : string) (move_ overwrite : bool) (s : fs.state)
  (q m : list string) (n : string) (es : fs.entries) :
  abspath self = path_of (q ++ m ++ [n]) ->
  Forall (fun n => proper_name n = true) q ->
  Forall (fun n => proper_name n = true) (m ++ [n]) ->
  fs.find q (fs.Dir (fs.root s)) = Some (fs.Dir es) ->
  fs.assoc (hd n m) es = None ->
  exists s1,
    replace_with_folder copytree move self srcdir move_ overwrite s
    = (if move_ then move else copytree) srcdir (abspath self) s1
    /\ (m = [] -> s1 = s)
    /\ os.path_isdir (posixpath.dirname (abspath self)) s1 = true
    /\ os.path_exists (abspath self) s1 = false
    /\ (forall p, ~ is_below (q ++ [hd n m]) p ->
          fs.look (fs.root s1) p = fs.look (fs.root s) p).
Proof.
  intros Hp Hq Hmn Hd Ha.
  assert (Hhd : hd "" (m ++ [n]) = hd n m) by now destruct m.
  assert (Hne : (m ++ [n])%list <> []) by now destruct m.
  assert (Hgone : os.path_exists (abspath self) s = false).
  { rewrite Hp. apply (path_missing s q (m ++ [n]) es Hq Hmn Hne Hd).
    now rewrite Hhd. }
  pose proof Hmn as Hmn'. apply Forall_app in Hmn' as [Hm Hn].
  inversion Hn as [|? ? Hn' _]; subst.
  pose proof (proper_name_inv n Hn') as (_ & _ & _ & Hs).
  assert (Hqm : Forall (fun n => proper_name n = true) (q ++ m))
    by (apply Forall_app; now split).
  assert (Hdn : posixpath.dirname (abspath self) = path_of (q ++ m)).
  { rewrite Hp, app_assoc. now apply dirname_path_of. }
  rewrite (replace_with_folder_absent copytree move self srcdir move_ overwrite s Hgone).
  rewrite Hdn.
  destruct m as [|k m0] eqn:Em.
  - exists s. rewrite app_nil_r in *.
    pose proof (dir_exists s q es Hq Hd true) as Hpe.
    unfold os.path_exists at 1. rewrite Hpe.
    split; [reflexivity|]. split; [reflexivity|].
    split; [unfold os.path_isdir; now rewrite Hpe|].
    split; [exact Hgone | reflexivity].
  - rewrite <- Em in *. assert (Hm0 : m <> []) by (subst m; discriminate).
    assert (Hhd' : hd "" m = hd n m) by (subst m; reflexivity).
    assert (Hpm : os.path_exists (path_of (q ++ m)) s = false).
    { apply (path_missing s q m es Hq Hm Hm0 Hd). now rewrite Hhd'. }
    destruct (makedirs_creates q m s es Hq Hm Hm0 Hd) as (s1 & Hmk & Hnew & Hold & _);
      [now rewrite Hhd'|].
    exists s1. rewrite Hpm, Hmk.
    pose proof (dir_exists s1 (q ++ m) [] Hqm Hnew true) as Hpe.
    split; [reflexivity|]. split; [congruence|].
    split; [unfold os.path_isdir; now rewrite Hpe|].
    split.
    + rewrite Hp, app_assoc.
      apply (path_missing s1 (q ++ m) [n] [] Hqm); auto. discriminate.
    + rewrite <- Hhd'. exact Hold.
Qed.

Lemma replace_with_folder_fresh_witness :
  exists s1,
    replace_with_folder copytree_missing move_missing
      {| abspath := "/tmp/a/b/c"; folder_limit := "/tmp" |} "/tmp/x" true false
      sample_disk
    = move_missing "/tmp/x" "/tmp/a/b/c" s1
    /\ os.path_isdir "/tmp/a/b" s1 = true
    /\ os.path_exists "/tmp/a/b/c" s1 = false.
Proof.
  destruct (replace_with_folder_fresh copytree_missing move_missing
              {| abspath := "/tmp/a/b/c"; folder_limit := "/tmp" |} "/tmp/x" true
              false sample_disk ["tmp"] ["a"; "b"] "c"
              [ ("x", fs.Dir [ ("report.txt", fs.File "results"); ("sub", fs.Dir []);
                               ("lnk", fs.Symlink "nowhere") ]);
                ("src.dat", fs.File "data") ] eq_refl
              ltac:(repeat constructor) ltac:(repeat constructor) eq_refl eq_refl)
    as (s1 & H1 & _ & H3 & H4 & _).
  exists s1. split; [exact H1 | split; [exact H3 | exact H4]].
Defined.

(** X19.  Where the parent directory cannot be made, a component above
    it being a regular file, [replace_with_folder] raises the
    [OSError] of [os.makedirs] ([ENOTDIR]): neither [copytree] nor
    [move] is called and the disk is as it was. *)
Theorem replace_with_folder_blocked (copytree move : string -> string -> M unit)
  (self : Folder) (srcdir : string) (move_ overwrite : bool) (s : fs.state)
  (q m : list string) (n k c : string) (es : fs.entries) :
  abspath self = path_of (q ++ n :: m ++ [k]) ->
  Forall (fun n => proper_name n = true) (q ++ [n]) ->
  Forall (fun n => proper_name n = true) (m ++ [k]) ->
  m <> [] ->
  fs.find q (fs.Dir (fs.root s)) = Some (fs.Dir es) ->
  fs.assoc n es = Some (fs.File c) ->
  replace_with_folder copytree move self srcdir move_ overwrite s
  = (inl (OSError (Some fs.ENOTDIR) (path_of (q ++ [n; hd "" m]))), s).
Proof.
  intros Hp Hqn Hmk Hne Hd Ha.
  pose proof Hmk as Hmk'. apply Forall_app in Hmk' as [Hm Hk].
  inversion Hk as [|? ? Hk' _]; subst.
  pose proof (proper_name_inv k Hk') as (_ & _ & _ & Hs).
  assert (Hne' : (m ++ [k])%list <> []) by now destruct m.
  assert (Hgone : os.path_exists (abspath self) s = false).
  { unfold os.path_exists.
    now rewrite Hp, (resolve_through_file s true q (m ++ [k]) n c es Hqn Hmk Hne' Hd Ha). }
  assert (Hall : Forall (fun n => proper_name n = true) (q ++ n :: m)).
  { apply Forall_app in Hqn as [Hq Hn]. apply Forall_app. split; [exact Hq|].
    inversion Hn; subst. now constructor. }
  assert (Hdn : posixpath.dirname (abspath self) = path_of (q ++ n :: m)).
  { rewrite Hp.
    replace (q ++ n :: m ++ [k])%list with ((q ++ n :: m) ++ [k])%list
      by now rewrite <- app_assoc.
    now apply dirname_path_of. }
  assert (Hpm : os.path_exists (path_of (q ++ n :: m)) s = false).
  { unfold os.path_exists.
    now rewrite (resolve_through_file s true q m n c es Hqn Hm Hne Hd Ha). }
  rewrite (replace_with_folder_absent copytree move self srcdir move_ overwrite s Hgone).
  rewrite Hdn, Hpm. unfold os.makedirs.
  rewrite (makedirs_rec_blocked s q n c es Hqn Hd Ha m Hm Hne); [reflexivity|].
  assert (H : path_of (q ++ n :: m) = path_below (q ++ n :: m))
    by now destruct q.
  rewrite H. pose proof (path_below_length (q ++ n :: m)) as Hl.
  rewrite length_app in Hl. simpl in Hl. lia.
Qed.

Lemma replace_with_folder_blocked_witness :
  replace_with_folder copytree_missing move_missing
    {| abspath := "/tmp/src.dat/b/c"; folder_limit := "/tmp" |} "/tmp/x" false true
    sample_disk
  = (inl (OSError (Some fs.ENOTDIR) "/tmp/src.dat/b"), sample_disk).
Proof.
  apply (replace_with_folder_blocked copytree_missing move_missing
           {| abspath := "/tmp/src.dat/b/c"; folder_limit := "/tmp" |} "/tmp/x" false
           true sample_disk ["tmp"] ["b"] "src.dat" "c" "data"
           [ ("x", fs.Dir [ ("report.txt", fs.File "results"); ("sub", fs.Dir []);
                            ("lnk", fs.Symlink "nowhere") ]);
             ("src.dat", fs.File "data") ]).
  - reflexivity.
  - repeat constructor.
  - repeat constructor.
  - discriminate.
  - reflexivity.
  - reflexivity.
Defined.

(* ------------------------------------------------------------------ *)
(** ** [Folder.get_subfolder] along relative paths *)

Lemma split_sep_not_nil (x : string) : str.split_sep x <> [].
Proof.
  destruct x as [|c x]; cbn [str.split_sep]; [discriminate|].
  destruct (str.split_sep x); [discriminate|].
  destruct (str.is_sep c); discriminate.
Qed.

Lemma split_sep_app (a b : string) :
  str.split_sep (a ++ "/" ++ b) = (str.split_sep a ++ str.split_sep b)%list.
Proof.
  induction a as [|c a IH].
  - change ("" ++ "/" ++ b) with (String "/" b). cbn [str.split_sep].
    destruct (str.split_sep b) as [|w ws] eqn:E;
      [now destruct (split_sep_not_nil b)|]. reflexivity.
  - change (String c a ++ "/" ++ b) with (String c (a ++ "/" ++ b)).
    cbn [str.split_sep]. rewrite IH.
    destruct (str.split_sep a) as [|w ws] eqn:E;
      [now destruct (split_sep_not_nil a)|].
    cbn [app]. destruct (str.is_sep c); reflexivity.
Qed.

Lemma split_sep_path_tail (k : string) (q : list string) :
  Forall (fun n => proper_name n = true) (k :: q) ->
  str.split_sep (k ++ path_below q) = k :: q.
Proof.
  intros Hq.
  pose proof (split_sep_path_below (k :: q) Hq ltac:(discriminate)) as H.
  change (path_below (k :: q)) with (String "/" (k ++ path_below q)) in H.
  cbn [str.split_sep] in H.
  destruct (str.split_sep (k ++ path_below q)); [discriminate|].
  change (str.is_sep "/") with true in H. cbv iota in H.
  now injection H as -> ->.
Qed.

Lemma joinrealpath_app (l1 l2 : list string) (acc : string) :
  joinrealpath_nolinks (l1 ++ l2) acc
  = joinrealpath_nolinks l2 (joinrealpath_nolinks l1 acc).
Proof.
  revert acc. induction l1 as [|a l1 IH]; intros acc; [reflexivity|].
  cbn [app joinrealpath_nolinks].
  destruct (String.eqb a "" || String.eqb a "."); [apply IH|].
  destruct (String.eqb a "..").
  - destruct (negb (String.eqb acc "")); [|apply IH].
    destruct (posixpath.split acc). apply IH.
  - apply IH.
Qed.

(** On a disk without links, from a canonical path, [realpath] of the
    joined path is what the loop over the components of the relative
    path gives. *)
Lemma realpath_nolinks_join (s : fs.state) (q : list string) (sub : string) :
  Forall (fun n => proper_name n = true) q ->
  str.startswith_sep sub = false ->
  realpath_nolinks s (posixpath.join (path_of q) sub)
  = joinrealpath_nolinks (str.split_sep sub) (path_of q).
Proof.
  intros Hq Hsub.
  assert (Htop : joinrealpath_top (posixpath.join (path_of q) sub)
                 = joinrealpath_nolinks (str.split_sep sub) (path_of q)).
  { unfold posixpath.join. rewrite Hsub. destruct q as [|k q].
    - reflexivity.
    - unfold path_of. rewrite (path_below_endswith _ Hq).
      change (String.eqb (path_below (k :: q)) "" || false) with false.
      cbv iota.
      change (path_below (k :: q) ++ "/" ++ sub)
        with (String "/" ((k ++ path_below q) ++ "/" ++ sub)).
      unfold joinrealpath_top. change (str.is_sep "/") with true. cbv iota.
      rewrite split_sep_app, (split_sep_path_tail k q Hq), joinrealpath_app.
      f_equal. apply (joinrealpath_proper (k :: q) Hq []). constructor. }
  unfold realpath_nolinks, posixpath.abspath. rewrite Htop.
  destruct (joinrealpath_canonical _ (split_sep_comps_no_sep sub) q Hq)
    as (q' & Hq' & ->).
  rewrite path_of_abs. now apply normpath_path_of.
Qed.

Lemma Folder_init_limit_twice (s : fs.state) (path limit : string) :
  canonical (fs.cwd s) ->
  Folder_init realpath_nolinks path (Some (realpath_nolinks s limit)) s
  = Folder_init realpath_nolinks path (Some limit) s.
Proof.
  intros Hc. unfold Folder_init.
  now rewrite (realpath_nolinks_idempotent s limit Hc).
Qed.

Lemma startswith_sep_app (a b : string) :
  a <> "" -> str.startswith_sep (a ++ b) = str.startswith_sep a.
Proof. destruct a; [congruence | reflexivity]. Qed.

(** X20.  On a disk without symbolic links, going down in two steps is
    going down in one: once [get_subfolder(sub1)] has returned a
    folder, [get_subfolder(sub2)] of that folder does what
    [get_subfolder(sub1 + '/' + sub2)] of the first one does, whatever
    [.] and [..] the two relative paths hold. *)
Theorem get_subfolder_compose (self f1 : Folder) (sub1 sub2 : string)
  (s : fs.state) :
  canonical (fs.cwd s) ->
  canonical (abspath self) ->
  str.startswith_sep sub1 = false -> sub1 <> "" ->
  str.startswith_sep sub2 = false ->
  get_subfolder realpath_nolinks self sub1 false s = (inr f1, s) ->
  get_subfolder realpath_nolinks f1 sub2 false s
  = get_subfolder realpath_nolinks self (sub1 ++ "/" ++ sub2) false s.
Proof.
  intros Hc (q & Hq & Hp) H1 Hne H2 H.
  unfold get_subfolder, bind, gets, ret in H.
  rewrite Hp, (realpath_nolinks_join s q sub1 Hq H1) in H.
  destruct (joinrealpath_canonical _ (split_sep_comps_no_sep sub1) q Hq)
    as (q1 & Hq1 & Hd1).
  rewrite Hd1 in H.
  destruct (Folder_init realpath_nolinks (path_of q1) (Some (folder_limit self)) s)
    as [[e|f0] s0] eqn:Hi; [discriminate|].
  destruct (Folder_init_nolinks_fields s s0 _ _ f0 Hc Hi) as (-> & Ha & Hl & _).
  injection H as ->.
  rewrite (realpath_nolinks_path_of s q1 Hq1) in Ha.
  unfold get_subfolder, bind, gets, ret.
  rewrite Ha, Hl, Hp, (realpath_nolinks_join s q1 sub2 Hq1 H2).
  rewrite (realpath_nolinks_join s q (sub1 ++ "/" ++ sub2) Hq)
    by (rewrite startswith_sep_app; assumption).
  rewrite split_sep_app, joinrealpath_app, Hd1.
  now rewrite (Folder_init_limit_twice s _ (folder_limit self) Hc).
Qed.

Lemma get_subfolder_compose_witness :
  get_subfolder realpath_nolinks
    {| abspath := "/tmp/x/sub"; folder_limit := "/tmp" |} "../../y" false sample_disk
  = get_subfolder realpath_nolinks sample_folder "sub/../../y" false sample_disk.
Proof.
  apply (get_subfolder_compose sample_folder
           {| abspath := "/tmp/x/sub"; folder_limit := "/tmp" |}
           "sub" "../../y" sample_disk).
  - exists []. split; [constructor | reflexivity].
  - exists ["tmp"; "x"]. split; [repeat constructor | reflexivity].
  - reflexivity.
  - discriminate.
  - reflexivity.
  - reflexivity.
Defined.

Lemma joinrealpath_name (q : list string) (name : string) :
  Forall (fun n => proper_name n = true) q -> proper_name name = true ->
  joinrealpath_nolinks (str.split_sep name) (path_of q) = path_of (q ++ [name]).
Proof.
  intros Hq Hn. pose proof (proper_name_inv name Hn) as (_ & _ & _ & Hs).
  assert (E : str.split_sep name = [name]).
  { pose proof (split_sep_path_tail name [] ltac:(now constructor)) as H.
    cbn [path_below] in H. now rewrite append_nil_r in H. }
  rewrite E. apply (joinrealpath_proper [name]); [now constructor | exact Hq].
Qed.

Lemma joinrealpath_dotdot (q : list string) (name : string) :
  Forall (fun n => proper_name n = true) q -> proper_name name = true ->
  joinrealpath_nolinks (str.split_sep "..") (path_of (q ++ [name])) = path_of q.
Proof.
  intros Hq Hn. pose proof (proper_name_inv name Hn) as (_ & _ & Hdd & Hs).
  change (str.split_sep "..") with [".."]. cbn [joinrealpath_nolinks].
  change (String.eqb ".." "" || String.eqb ".." ".") with false.
  change (String.eqb ".." "..") with true. cbv iota.
  destruct (String.eqb_spec (path_of (q ++ [name])) "") as [E|_];
    [now destruct (path_of_not_empty _ E)|]. cbn [negb].
  rewrite (split_path_of q name Hq Hs).
  apply String.eqb_neq in Hdd. now rewrite Hdd.
Qed.

(** X21.  On a disk without symbolic links, down and up again is a
    round trip: from a folder within its limit, [get_subfolder(name)]
    and then [get_subfolder('..')] give the folder one started from,
    and the disk is not touched. *)
Theorem get_subfolder_parent (self : Folder) (name : string) (s : fs.state)
  (q : list string) :
  abspath self = path_of q ->
  Forall (fun n => proper_name n = true) q ->
  proper_name name = true ->
  realpath_nolinks s (folder_limit self) = folder_limit self ->
  (exists rest, abspath self = folder_limit self ++ rest) ->
  exists f1,
    get_subfolder realpath_nolinks self name false s = (inr f1, s)
    /\ abspath f1 = path_of (q ++ [name])
    /\ get_subfolder realpath_nolinks f1 ".." false s = (inr self, s).
Proof.
  intros Hp Hq Hn Hl [rest Hrest].
  pose proof (proper_name_inv name Hn) as (_ & _ & _ & Hs).
  assert (Hqn : Forall (fun n => proper_name n = true) (q ++ [name]))
    by (apply Forall_app; split; [assumption | now constructor]).
  exists {| abspath := path_of (q ++ [name]); folder_limit := folder_limit self |}.
  split; [|split; [reflexivity|]].
  - destruct (path_of_extends q name) as [x Hx].
    pose proof (get_subfolder_within realpath_nolinks self name (rest ++ x) s) as H.
    cbv zeta in H.
    rewrite Hp, (realpath_nolinks_join s q name Hq (no_sep_not_abs _ Hs)) in H.
    rewrite (joinrealpath_name q name Hq Hn) in H. apply H.
    + exact Hl.
    + now apply realpath_nolinks_path_of.
    + rewrite Hx, <- Hp, Hrest. apply append_assoc.
  - pose proof (get_subfolder_within realpath_nolinks
                  {| abspath := path_of (q ++ [name]);
                     folder_limit := folder_limit self |} ".." rest s) as H.
    cbv zeta in H. cbn [abspath folder_limit] in H.
    rewrite (realpath_nolinks_join s (q ++ [name]) ".." Hqn eq_refl) in H.
    rewrite (joinrealpath_dotdot q name Hq Hn) in H.
    rewrite H.
    + destruct self as [a l]. cbn [abspath folder_limit] in *. now subst a.
    + exact Hl.
    + now apply realpath_nolinks_path_of.
    + now rewrite <- Hp.
Qed.

Lemma get_subfolder_parent_witness :
  exists f1,
    get_subfolder realpath_nolinks sample_folder "sub" false sample_disk
    = (inr f1, sample_disk)
    /\ abspath f1 = "/tmp/x/sub"
    /\ get_subfolder realpath_nolinks f1 ".." false sample_disk
       = (inr sample_folder, sample_disk).
Proof.
  apply (get_subfolder_parent sample_folder "sub" sample_disk ["tmp"; "x"]).
  - reflexivity.
  - repeat constructor.
  - reflexivity.
  - reflexivity.
  - exists "/x". reflexivity.
Defined.

Lemma append_not_shorter (a x rest : string) :
  x <> "" -> a <> (a ++ x) ++ rest.
Proof.
  intros Hx E. induction a as [|c a IH].
  - destruct x; [congruence | discriminate].
  - injection E as E. now apply IH.
Qed.

Lemma path_of_child_longer (q : list string) (n : string) :
  proper_name n = true ->
  forall rest, path_of q <> path_of (q ++ [n]) ++ rest.
Proof.
  intros Hn rest. pose proof (proper_name_inv n Hn) as (Hn0 & _).
  destruct q as [|k q].
  - cbn [app path_of path_below]. rewrite append_nil_r.
    change ("/" ++ n) with (String "/" n). intros E. injection E as E.
    destruct n; [congruence | discriminate].
  - change (path_of ((k :: q) ++ [n])) with (path_below ((k :: q) ++ [n])).
    rewrite path_below_app. unfold path_of.
    apply append_not_shorter. discriminate.
Qed.

(** X22.  The limit holds upwards: on a disk without symbolic links, a
    folder that sits at its own limit cannot go to its parent;
    [get_subfolder('..')] raises [ValueError], and with [create] set
    nothing is created. *)
Theorem get_subfolder_above_limit (self : Folder) (create_ : bool)
  (s : fs.state) (q : list string) (n : string) :
  abspath self = path_of (q ++ [n]) ->
  folder_limit self = path_of (q ++ [n]) ->
  Forall (fun n => proper_name n = true) (q ++ [n]) ->
  get_subfolder realpath_nolinks self ".." create_ s
  = (inl (ValueError
            ("The absolute path for this folder is not within the folder_limit. "
             ++ "abspath=" ++ path_of q
             ++ ", folder_limit=" ++ path_of (q ++ [n]) ++ ".")),
     s).
Proof.
  intros Hp Hl Hqn. pose proof Hqn as Hqn'.
  apply Forall_app in Hqn' as [Hq Hn]. inversion Hn as [|? ? Hn' _]; subst.
  unfold get_subfolder, bind, gets.
  rewrite Hp, (realpath_nolinks_join s (q ++ [n]) ".." Hqn eq_refl).
  rewrite (joinrealpath_dotdot q n Hq Hn'), Hl.
  rewrite (Folder_init_outside realpath_nolinks s (path_of q) (path_of (q ++ [n]))).
  - now rewrite !realpath_nolinks_path_of.
  - rewrite !realpath_nolinks_path_of by assumption.
    now apply path_of_child_longer.
Qed.

Lemma get_subfolder_above_limit_witness :
  get_subfolder realpath_nolinks {| abspath := "/tmp/x"; folder_limit := "/tmp/x" |}
    ".." true sample_disk
  = (inl (ValueError
            "The absolute path for this folder is not within the folder_limit. abspath=/tmp, folder_limit=/tmp/x."),
     sample_disk).
Proof.
  apply (get_subfolder_above_limit
           {| abspath := "/tmp/x"; folder_limit := "/tmp/x" |} true sample_disk
           ["tmp"] "x").
  - reflexivity.
  - reflexivity.
  - repeat constructor.
Defined.

(* ------------------------------------------------------------------ *)
(** ** [Folder.insert_file]: what is written, what is kept *)

(** Resolution finds at least what it found on a smaller disk. *)
Lemma walk_found_mono lk lk' (fl : bool) :
  (forall p x, lk p = Some x -> lk' p = Some x) ->
  forall b cur segs q k,
    fs.walk b lk fl cur segs = fs.Found q k ->
    fs.walk b lk' fl cur segs = fs.Found q k.
Proof.
  intros Hlk.
  apply (walk_ind (fun b cur segs =>
    forall q k,
      fs.walk b lk fl cur segs = fs.Found q k ->
      fs.walk b lk' fl cur segs = fs.Found q k)).
  - intros b cur q k. rewrite !walk_nil.
    destruct (lk cur) as [x|] eqn:Hc; [|discriminate].
    now rewrite (Hlk _ _ Hc).
  - intros b cur seg rest IH1 IH2 IH3 IH4 q k. rewrite !walk_cons.
    destruct (lk cur) as [[| |]|] eqn:Hc; try discriminate.
    rewrite (Hlk _ _ Hc).
    destruct (String.eqb seg "" || String.eqb seg "."); [apply IH1|].
    destruct (String.eqb seg ".."); [apply IH2|].
    destruct (lk (cur ++ [seg])%list) as [[|target|]|] eqn:Hn.
    + rewrite (Hlk _ _ Hn). apply IH3.
    + rewrite (Hlk _ _ Hn).
      destruct (fl || negb match rest with [] => true | _ => false end);
        [|auto].
      destruct b as [|b']; [discriminate|].
      destruct (String.eqb target ""); [discriminate|]. now apply IH4.
    + rewrite (Hlk _ _ Hn). apply IH3.
    + destruct rest; discriminate.
Qed.

Lemma resolve_found_mono (s s' : fs.state) (fl : bool) (path : string)
  (q : list string) (k : fs.kind) :
  fs.cwd s' = fs.cwd s ->
  (forall p x, fs.look (fs.root s) p = Some x -> fs.look (fs.root s') p = Some x) ->
  fs.resolve s fl path = fs.Found q k ->
  fs.resolve s' fl path = fs.Found q k.
Proof.
  intros Hcwd Hlk. unfold fs.resolve.
  destruct (String.eqb path ""); [discriminate|]. rewrite Hcwd.
  now apply walk_found_mono.
Qed.

Lemma assoc_app_present (k : string) (c : fs.node) (es r : fs.entries) :
  fs.assoc k es = Some c -> fs.assoc k (es ++ r)%list = Some c.
Proof.
  induction es as [|[k0 n0] es IH]; simpl; [discriminate|].
  destruct (String.eqb k k0); [auto | exact IH].
Qed.

(** A regular file away from the altered directory keeps its content. *)
Lemma find_alter_at_file (q p : list string) (f : fs.entries -> fs.entries)
  (n : fs.node) (c : string) :
  ~ is_below q p ->
  fs.find p n = Some (fs.File c) ->
  fs.find p (fs.alter_at q f n) = Some (fs.File c).
Proof.
  revert n p. induction q as [|k q IH]; intros n p H Hf.
  - exfalso. apply H. now exists p.
  - destruct n as [c0|c0|es]; try exact Hf. cbn [fs.alter_at].
    destruct (fs.assoc k es) as [c0|] eqn:E; [|exact Hf].
    destruct p as [|k' p]; [discriminate|]. cbn [fs.find] in *.
    rewrite assoc_put. destruct (String.eqb k' k) eqn:Ek; [|exact Hf].
    apply String.eqb_eq in Ek. subst k'. rewrite E in Hf. apply IH; [|exact Hf].
    intros [t Ht]. apply H. exists t. simpl. now f_equal.
Qed.

Lemma find_file_created (s : fs.state) (par p : list string) (name c : string)
  (c0 : fs.node) (es : fs.entries) :
  fs.find par (fs.Dir (fs.root s)) = Some (fs.Dir es) ->
  fs.assoc name es = None ->
  fs.find p (fs.Dir (fs.root s)) = Some (fs.File c) ->
  fs.find p (fs.Dir (fs.root (os.create_entry par name c0 s))) = Some (fs.File c).
Proof.
  intros Hpar Hname Hf. unfold os.create_entry.
  destruct (alter_root_look par (fun es => es ++ [(name, c0)])%list s) as [E _].
  rewrite <- E. destruct (is_below_dec par p) as [[t ->]|Hb].
  - rewrite (find_alter_at_below _ _ _ _ _ Hpar).
    rewrite find_app, Hpar in Hf.
    destruct t as [|k t]; [discriminate|]. cbn [fs.find] in *.
    destruct (fs.assoc k es) as [c1|] eqn:Ek; [|discriminate].
    now rewrite (assoc_app_present _ _ _ _ Ek).
  - now apply find_alter_at_file.
Qed.

Lemma find_file_put (s : fs.state) (par p : list string) (name c : string)
  (c0 : fs.node) (old : string) (es : fs.entries) :
  fs.find par (fs.Dir (fs.root s)) = Some (fs.Dir es) ->
  fs.assoc name es = Some (fs.File old) ->
  p <> (par ++ [name])%list ->
  fs.find p (fs.Dir (fs.root s)) = Some (fs.File c) ->
  fs.find p (fs.Dir (fs.root (fs.alter_root par (fs.put name c0) s)))
  = Some (fs.File c).
Proof.
  intros Hpar Hname Hp Hf.
  destruct (alter_root_look par (fs.put name c0) s) as [E _].
  rewrite <- E. destruct (is_below_dec par p) as [[t ->]|Hb].
  - rewrite (find_alter_at_below _ _ _ _ _ Hpar).
    rewrite find_app, Hpar in Hf.
    destruct t as [|k t]; [discriminate|]. cbn [fs.find] in *.
    rewrite assoc_put. destruct (String.eqb_spec k name) as [->|Hk]; [|exact Hf].
    rewrite Hname in Hf. destruct t as [|k' t]; [congruence | discriminate].
  - now apply find_alter_at_file.
Qed.

Lemma read_file_inv (path c : string) (s s' : fs.state) :
  shutil.read_file path s = (inr c, s') ->
  exists q, fs.resolve s true path = fs.Found q fs.KFile
            /\ fs.find q (fs.Dir (fs.root s)) = Some (fs.File c).
Proof.
  unfold shutil.read_file.
  destruct (fs.resolve s true path) as [q [| |]| |]; try discriminate.
  destruct (fs.find q (fs.Dir (fs.root s))) as [[c0| |]|] eqn:Hf;
    try discriminate.
  intros H. injection H as <- _. now exists q.
Qed.

Lemma read_file_found (path c : string) (s : fs.state) (q : list string) :
  fs.resolve s true path = fs.Found q fs.KFile ->
  fs.find q (fs.Dir (fs.root s)) = Some (fs.File c) ->
  shutil.read_file path s = (inr c, s).
Proof. intros Hr Hf. unfold shutil.read_file. now rewrite Hr, Hf. Qed.

(** Writing over a regular file: its content is the new one, and every
    path of the disk keeps its kind. *)
Lemma write_file_existing (path content : string) (s : fs.state)
  (p : list string) :
  fs.resolve s true path = fs.Found p fs.KFile ->
  exists par name old es,
    p = (par ++ [name])%list
    /\ fs.find par (fs.Dir (fs.root s)) = Some (fs.Dir es)
    /\ fs.assoc name es = Some (fs.File old)
    /\ shutil.write_file path content s
       = (inr tt, fs.alter_root par (fs.put name (fs.File content)) s).
Proof.
  intros H. pose proof (resolve_found_dir _ _ _ _ _ H) as Hk.
  assert (Hne : p <> []) by (intros ->; discriminate).
  unfold fs.look in Hk.
  destruct (fs.find p (fs.Dir (fs.root s))) as [[c0|?|?]|] eqn:Hf; try discriminate.
  rewrite (app_removelast_last_str p Hne) in Hf.
  pose proof Hf as Hf'. rewrite find_app in Hf'.
  destruct (fs.find (removelast p) (fs.Dir (fs.root s))) as [c|] eqn:Hpar;
    [|discriminate].
  destruct c as [?|?|es]; try discriminate.
  rewrite (find_entry _ _ _ _ Hpar) in Hf.
  exists (removelast p), (last p ""), c0, es.
  split; [now apply app_removelast_last_str|].
  split; [exact Hpar|]. split; [exact Hf|].
  unfold shutil.write_file. now rewrite H.
Qed.

Lemma insert_file_copy (self : Folder) (src name : string) (s : fs.state) :
  trimmed (abspath self) = true ->
  str.has_sep name = false ->
  insert_file self src (Some name) s
  = match shutil.copyfile src (posixpath.join (abspath self) name) s with
    | (inr _, s') => (inr (posixpath.join (abspath self) name), s')
    | (inl e, s') => (inl e, s')
    end.
Proof.
  intros Ht Hs. unfold insert_file, bind, lift, ret.
  rewrite (get_filename_accepts self name Ht Hs).
  now destruct (shutil.copyfile src _ s) as [[e|u] s'].
Qed.

Lemma copyfile_run (src dst content : string) (s : fs.state) :
  shutil.samefile src dst s = false ->
  shutil.read_file src s = (inr content, s) ->
  shutil.copyfile src dst s = shutil.write_file dst content s.
Proof.
  intros Hsame Hrd. unfold shutil.copyfile, bind, gets, raise.
  now rewrite Hsame, Hrd.
Qed.

(** X23.  [insert_file(src, dest_name)] into a directory without an
    entry of that name adds one entry, named [dest_name] whatever the
    name of the source: the listing of the folder holds the new name
    besides the names it had, in some order; the new entry reads as the
    source; the source is still there with its content (a copy, not a
    move); and every other path of the disk keeps its kind. *)
Theorem insert_file_named (self : Folder) (src name content : string)
  (s : fs.state) (q : list string) (es : fs.entries) :
  abspath self = path_of q ->
  Forall (fun n => proper_name n = true) q ->
  fs.find q (fs.Dir (fs.root s)) = Some (fs.Dir es) ->
  proper_name name = true ->
  fs.assoc name es = None ->
  shutil.read_file src s = (inr content, s) ->
  exists s' l,
    insert_file self src (Some name) s = (inr (path_of (q ++ [name])), s')
    /\ shutil.read_file (path_of (q ++ [name])) s' = (inr content, s')
    /\ shutil.read_file src s' = (inr content, s')
    /\ os.listdir (abspath self) s' = (inr l, s')
    /\ Permutation l (name :: map fst es)
    /\ (forall p, p <> (q ++ [name])%list ->
          fs.look (fs.root s') p = fs.look (fs.root s) p).
Proof.
  intros Hp Hq Hd Hn Ha Hrd.
  pose proof (proper_name_inv name Hn) as (_ & _ & _ & Hs).
  assert (Hr : fs.resolve s true (path_of (q ++ [name])) = fs.Absent q name)
    by now rewrite (resolve_entry s true q name es Hq Hn Hd), Ha.
  assert (Hsame : shutil.samefile src (path_of (q ++ [name])) s = false).
  { unfold shutil.samefile. rewrite Hr. now destruct (fs.resolve s true src). }
  assert (Hw : shutil.write_file (path_of (q ++ [name])) content s
               = (inr tt, os.create_entry q name (fs.File content) s))
    by (unfold shutil.write_file; now rewrite Hr).
  exists (os.create_entry q name (fs.File content) s), (map fst es ++ [name])%list.
  destruct (look_create_entry s q name (fs.File content) es Hd Ha I)
    as (Hnew & Hold & Hcwd).
  pose proof (find_created s q name (fs.File content) es Hd) as Hd'.
  split; [|split; [|split; [|split; [|split; [|exact Hold]]]]].
  - rewrite insert_file_copy; [|rewrite Hp; now apply path_of_trimmed | exact Hs].
    rewrite Hp, (join_path_of q name Hq Hs).
    now rewrite (copyfile_run _ _ content s Hsame Hrd), Hw.
  - exact (write_file_ok _ _ _ _ Hw).
  - destruct (read_file_inv _ _ _ _ Hrd) as (p & Hres & Hf).
    apply (read_file_found _ _ _ p).
    + apply (resolve_found_mono s _ true src p fs.KFile Hcwd); [|exact Hres].
      intros p0 x Hx. rewrite Hold; [exact Hx|]. intros ->.
      rewrite (look_entry _ _ _ _ Hd), Ha in Hx. discriminate.
    + now apply (find_file_created s q p name content _ es).
  - unfold os.listdir. rewrite Hp, (dir_exists _ q _ Hq Hd' true), Hd'.
    rewrite map_app. reflexivity.
  - apply Permutation_sym, Permutation_cons_append.
Qed.

Lemma insert_file_named_witness :
  exists s' l,
    insert_file sample_folder "/tmp/src.dat" (Some "copy.dat") sample_disk
    = (inr "/tmp/x/copy.dat", s')
    /\ shutil.read_file "/tmp/x/copy.dat" s' = (inr "data", s')
    /\ shutil.read_file "/tmp/src.dat" s' = (inr "data", s')
    /\ os.listdir "/tmp/x" s' = (inr l, s')
    /\ Permutation l ["copy.dat"; "report.txt"; "sub"; "lnk"].
Proof.
  destruct (insert_file_named sample_folder "/tmp/src.dat" "copy.dat" "data"
              sample_disk ["tmp"; "x"]
              [ ("report.txt", fs.File "results"); ("sub", fs.Dir []);
                ("lnk", fs.Symlink "nowhere") ] eq_refl
              ltac:(repeat constructor) eq_refl eq_refl eq_refl eq_refl)
    as (s' & l & H1 & H2 & H3 & H4 & H5 & _).
  exists s', l. repeat split; assumption.
Defined.

Lemma map_fst_put (k : string) (n old : fs.node) (es : fs.entries) :
  fs.assoc k es = Some old -> map fst (fs.put k n es) = map fst es.
Proof.
  intros H. unfold fs.put. rewrite H. rewrite map_map.
  apply map_ext. intros [k0 n0]. cbn [fst].
  destruct (String.eqb_spec k k0) as [->|_]; reflexivity.
Qed.

(** X24.  [insert_file] over a regular file of the folder replaces its
    content and nothing else: the listing of the folder is the same,
    the destination reads as the source, the source keeps its content,
    and every path of the disk keeps its kind. *)
Theorem insert_file_overwrites (self : Folder) (src name content old : string)
  (s : fs.state) (q : list string) (es : fs.entries) :
  abspath self = path_of q ->
  Forall (fun n => proper_name n = true) q ->
  fs.find q (fs.Dir (fs.root s)) = Some (fs.Dir es) ->
  proper_name name = true ->
  fs.assoc name es = Some (fs.File old) ->
  shutil.read_file src s = (inr content, s) ->
  shutil.samefile src (path_of (q ++ [name])) s = false ->
  exists s',
    insert_file self src (Some name) s = (inr (path_of (q ++ [name])), s')
    /\ shutil.read_file (path_of (q ++ [name])) s' = (inr content, s')
    /\ shutil.read_file src s' = (inr content, s')
    /\ os.listdir (abspath self) s' = (inr (map fst es), s')
    /\ (forall p, fs.look (fs.root s') p = fs.look (fs.root s) p).
Proof.
  intros Hp Hq Hd Hn Ha Hrd Hsame.
  pose proof (proper_name_inv name Hn) as (_ & _ & _ & Hs).
  assert (Hr : fs.resolve s true (path_of (q ++ [name]))
               = fs.Found (q ++ [name]) fs.KFile)
    by now rewrite (resolve_entry s true q name es Hq Hn Hd), Ha.
  assert (Hw : shutil.write_file (path_of (q ++ [name])) content s
               = (inr tt, fs.alter_root q (fs.put name (fs.File content)) s)).
  { unfold shutil.write_file. rewrite Hr.
    now rewrite removelast_last, last_last. }
  exists (fs.alter_root q (fs.put name (fs.File content)) s).
  destruct (look_put_file s q name es old content Hd Ha) as (Hnew & Hkind & Hcwd).
  pose proof (find_altered s q (fs.put name (fs.File content)) es Hd) as Hd'.
  split; [|split; [|split; [|split; [|exact Hkind]]]].
  - rewrite insert_file_copy; [|rewrite Hp; now apply path_of_trimmed | exact Hs].
    rewrite Hp, (join_path_of q name Hq Hs).
    now rewrite (copyfile_run _ _ content s Hsame Hrd), Hw.
  - exact (write_file_ok _ _ _ _ Hw).
  - destruct (read_file_inv _ _ _ _ Hrd) as (p & Hres & Hf).
    apply (read_file_found _ _ _ p).
    + apply (resolve_found_mono s _ true src p fs.KFile Hcwd); [|exact Hres].
      intros p0 x Hx. now rewrite Hkind.
    + apply (find_file_put s q p name content _ old es Hd Ha); [|exact Hf].
      intros ->. unfold shutil.samefile in Hsame. rewrite Hres, Hr in Hsame.
      now destruct (list_eq_dec string_dec (q ++ [name]) (q ++ [name])).
  - unfold os.listdir. rewrite Hp, (dir_exists _ q _ Hq Hd' true), Hd'.
    now rewrite (map_fst_put _ _ _ _ Ha).
Qed.

Lemma insert_file_overwrites_witness :
  exists s',
    insert_file sample_folder "/tmp/src.dat" (Some "report.txt") sample_disk
    = (inr "/tmp/x/report.txt", s')
    /\ shutil.read_file "/tmp/x/report.txt" s' = (inr "data", s')
    /\ os.listdir "/tmp/x" s' = (inr ["report.txt"; "sub"; "lnk"], s').
Proof.
  destruct (insert_file_overwrites sample_folder "/tmp/src.dat" "report.txt" "data"
              "results" sample_disk ["tmp"; "x"]
              [ ("report.txt", fs.File "results"); ("sub", fs.Dir []);
                ("lnk", fs.Symlink "nowhere") ] eq_refl
              ltac:(repeat constructor) eq_refl eq_refl eq_refl eq_refl eq_refl)
    as (s' & H1 & H2 & _ & H4 & _).
  exists s'. repeat split; assumption.
Defined.

(** X25.  What [insert_file] refuses, it refuses before anything is
    written.  With a name that [get_filename] accepts, in a folder that
    is a directory: where the source is the destination it raises the
    error of [shutil.copyfile]; where the source cannot be opened it
    raises the [IOError] of that, and no destination is left behind;
    where the destination is a directory of the folder it raises
    [IOError] ([EISDIR]).  In each case the disk is as it was. *)
Theorem insert_file_fails_early (self : Folder) (src name : string)
  (s : fs.state) (q : list string) (es : fs.entries) :
  abspath self = path_of q ->
  Forall (fun n => proper_name n = true) q ->
  fs.find q (fs.Dir (fs.root s)) = Some (fs.Dir es) ->
  proper_name name = true ->
  (shutil.samefile src (path_of (q ++ [name])) s = true ->
   insert_file self src (Some name) s
   = (inl (ShutilError ("`" ++ src ++ "` and `" ++ path_of (q ++ [name])
                        ++ "` are the same file")),
      s))
  /\ (forall e,
        shutil.samefile src (path_of (q ++ [name])) s = false ->
        shutil.read_file src s = (inl e, s) ->
        insert_file self src (Some name) s = (inl e, s))
  /\ (forall content sub,
        shutil.read_file src s = (inr content, s) ->
        fs.assoc name es = Some (fs.Dir sub) ->
        insert_file self src (Some name) s
        = (inl (IOError (Some fs.EISDIR) (path_of (q ++ [name]))), s)).
Proof.
  intros Hp Hq Hd Hn.
  pose proof (proper_name_inv name Hn) as (_ & _ & _ & Hs).
  assert (Hi : insert_file self src (Some name) s
               = match shutil.copyfile src (path_of (q ++ [name])) s with
                 | (inr _, s') => (inr (path_of (q ++ [name])), s')
                 | (inl e, s') => (inl e, s')
                 end).
  { rewrite insert_file_copy; [|rewrite Hp; now apply path_of_trimmed | exact Hs].
    now rewrite Hp, (join_path_of q name Hq Hs). }
  rewrite Hi. split; [|split].
  - intros Hsame. unfold shutil.copyfile, bind, gets, raise. now rewrite Hsame.
  - intros e Hsame Hrd. unfold shutil.copyfile, bind, gets, raise.
    now rewrite Hsame, Hrd.
  - intros content sub Hrd Ha.
    assert (Hr : fs.resolve s true (path_of (q ++ [name]))
                 = fs.Found (q ++ [name]) fs.KDir)
      by now rewrite (resolve_entry s true q name es Hq Hn Hd), Ha.
    assert (Hsame : shutil.samefile src (path_of (q ++ [name])) s = false).
    { destruct (read_file_inv _ _ _ _ Hrd) as (p & Hres & Hf).
      unfold shutil.samefile. rewrite Hres, Hr.
      destruct (list_eq_dec string_dec p (q ++ [name])) as [->|_]; [|reflexivity].
      rewrite (find_entry _ _ _ _ Hd), Ha in Hf. discriminate. }
    rewrite (copyfile_run _ _ content s Hsame Hrd).
    unfold shutil.write_file. now rewrite Hr.
Qed.

Lemma insert_file_fails_early_witness :
  insert_file sample_folder "/tmp/x/report.txt" (Some "report.txt") sample_disk
  = (inl (ShutilError
            "`/tmp/x/report.txt` and `/tmp/x/report.txt` are the same file"),
     sample_disk)
  /\ insert_file sample_folder "/tmp/nothing" (Some "new.dat") sample_disk
     = (inl (IOError (Some fs.ENOENT) "/tmp/nothing"), sample_disk)
  /\ insert_file sample_folder "/tmp/src.dat" (Some "sub") sample_disk
     = (inl (IOError (Some fs.EISDIR) "/tmp/x/sub"), sample_disk).
Proof.
  destruct (insert_file_fails_early sample_folder "/tmp/x/report.txt" "report.txt"
              sample_disk ["tmp"; "x"]
              [ ("report.txt", fs.File "results"); ("sub", fs.Dir []);
                ("lnk", fs.Symlink "nowhere") ] eq_refl
              ltac:(repeat constructor) eq_refl eq_refl) as (H1 & _ & _).
  destruct (insert_file_fails_early sample_folder "/tmp/nothing" "new.dat"
              sample_disk ["tmp"; "x"]
              [ ("report.txt", fs.File "results"); ("sub", fs.Dir []);
                ("lnk", fs.Symlink "nowhere") ] eq_refl
              ltac:(repeat constructor) eq_refl eq_refl) as (_ & H2 & _).
  destruct (insert_file_fails_early sample_folder "/tmp/src.dat" "sub"
              sample_disk ["tmp"; "x"]
              [ ("report.txt", fs.File "results"); ("sub", fs.Dir []);
                ("lnk", fs.Symlink "nowhere") ] eq_refl
              ltac:(repeat constructor) eq_refl eq_refl) as (_ & _ & H3).
  split; [exact (H1 eq_refl) | split].
  - exact (H2 _ eq_refl eq_refl).
  - exact (H3 "data" [] eq_refl eq_refl).
Defined.

(** X26.  The limit is not checked against what a link of the folder
    leads to.  Where the entry [dest_name] of the folder is a symbolic
    link to a regular file, [insert_file] writes through it: the file
    the link leads to, wherever it is, gets the content of the source,
    and the entry of the folder stays the link it was. *)
Theorem insert_file_through_link (self : Folder)
  (src name target content : string) (s : fs.state) (q p : list string)
  (es : fs.entries) :
  abspath self = path_of q ->
  Forall (fun n => proper_name n = true) q ->
  fs.find q (fs.Dir (fs.root s)) = Some (fs.Dir es) ->
  proper_name name = true ->
  fs.assoc name es = Some (fs.Symlink target) ->
  fs.resolve s true (path_of (q ++ [name])) = fs.Found p fs.KFile ->
  shutil.read_file src s = (inr content, s) ->
  shutil.samefile src (path_of (q ++ [name])) s = false ->
  exists s',
    insert_file self src (Some name) s = (inr (path_of (q ++ [name])), s')
    /\ fs.find p (fs.Dir (fs.root s')) = Some (fs.File content)
    /\ p <> (q ++ [name])%list
    /\ fs.find (q ++ [name]) (fs.Dir (fs.root s')) = Some (fs.Symlink target)
    /\ (forall p0, fs.look (fs.root s') p0 = fs.look (fs.root s) p0).
Proof.
  intros Hp Hq Hd Hn Ha Hr Hrd Hsame.
  pose proof (proper_name_inv name Hn) as (_ & _ & _ & Hs).
  destruct (write_file_existing _ content s p Hr)
    as (par & nm & old & es1 & -> & Hpar & Hold & Hw).
  destruct (look_put_file s par nm es1 old content Hpar Hold) as (Hnew & Hkind & _).
  assert (Hne : (par ++ [nm])%list <> (q ++ [name])%list).
  { intros E. pose proof (find_entry _ nm _ _ Hpar) as H1. rewrite E in H1.
    rewrite (find_entry _ name _ _ Hd), Ha, Hold in H1. discriminate. }
  exists (fs.alter_root par (fs.put nm (fs.File content)) s).
  split; [|split; [exact Hnew | split; [exact Hne | split; [|exact Hkind]]]].
  - rewrite insert_file_copy; [|rewrite Hp; now apply path_of_trimmed | exact Hs].
    rewrite Hp, (join_path_of q name Hq Hs).
    now rewrite (copyfile_run _ _ content s Hsame Hrd), Hw.
  - pose proof (Hkind (q ++ [name])%list) as Hk. unfold fs.look in Hk.
    rewrite (find_entry _ name _ _ Hd), Ha in Hk. cbn [option_map fs.kind_of] in Hk.
    destruct (fs.find (q ++ [name]) _) as [[| |]|]; try discriminate.
    now injection Hk as ->.
Qed.

Lemma insert_file_through_link_witness :
  exists s',
    insert_file {| abspath := "/box"; folder_limit := "/box" |} "/box/new.txt"
      (Some "out") linked_disk
    = (inr "/box/out", s')
    /\ fs.find ["data"; "keep.txt"] (fs.Dir (fs.root s')) = Some (fs.File "fresh").
Proof.
  destruct (insert_file_through_link {| abspath := "/box"; folder_limit := "/box" |}
              "/box/new.txt" "out" "/data/keep.txt" "fresh" linked_disk ["box"]
              ["data"; "keep.txt"]
              [ ("out", fs.Symlink "/data/keep.txt"); ("new.txt", fs.File "fresh") ]
              eq_refl ltac:(repeat constructor) eq_refl eq_refl eq_refl eq_refl
              eq_refl eq_refl)
    as (s' & H1 & H2 & _).
  exists s'. split; assumption.
Defined.
